(** * Certificate verification service: field extraction, similarity
      heat map, tabular log and upload handling.

    Shallow embedding of [final1.py], [ocr_service.py] and
    [ocr_routes.py].

    Modelling conventions.
    - A Python [str] is a [string]; a character is a code point in
      U+0000..U+00FF.
    - A [dict] is an association list: key order is insertion order, and
      item assignment to an existing key keeps its position.
    - The operating system is a [world]: a map from path names to
      directories and files, together with the list of calls made so far
      (file-system calls and figures shown).  Fallible calls return
      [Raise e].
    - numpy's float64 values are exact rationals extended with the three
      non-finite values a division can produce.  Rounding is left out:
      statements about computed values name only what rounding to nearest
      keeps, that is the order of values, the values 0 and 1, and the
      non-finite results.
    - The names of image files to write end in [.png], as the names the
      program builds do; matplotlib then writes a PNG file under the name
      itself.
    - The OCR engine, the image codec and the image-processing routines of
      OpenCV, scikit-image and matplotlib are not part of the repository;
      they are parameters of the definitions that call them. *)

From Stdlib Require Import String Ascii List Bool Arith ZArith NArith.
From Stdlib Require Import QArith Qround Lqa Lia.
From stdpp Require Import base option gmap strings.

Local Open Scope string_scope.
Local Open Scope list_scope.

(** ** Python text primitives *)

Module Py.

(** [str.isspace] on one character: TAB..CR, FS..US, space, NEL, NBSP. *)
Definition isspace (c : ascii) : bool :=
  let n := N_of_ascii c in
  (((9 <=? n) && (n <=? 13)) || ((28 <=? n) && (n <=? 32))
   || (n =? 133) || (n =? 160))%N.

(** [str.lower] on one character. *)
Definition lower_char (c : ascii) : ascii :=
  let n := N_of_ascii c in
  if (((65 <=? n) && (n <=? 90))
      || ((192 <=? n) && (n <=? 222) && negb (n =? 215)))%N
  then ascii_of_N (n + 32) else c.

(** [str.upper] on one character, where the result stays in Latin-1. *)
Definition upper_char (c : ascii) : ascii :=
  let n := N_of_ascii c in
  if (((97 <=? n) && (n <=? 122))
      || ((224 <=? n) && (n <=? 254) && negb (n =? 247)))%N
  then ascii_of_N (n - 32) else c.

Fixpoint lower (s : string) : string :=
  match s with
  | EmptyString => EmptyString
  | String c s' => String (lower_char c) (lower s')
  end.

Fixpoint lstrip (s : string) : string :=
  match s with
  | EmptyString => EmptyString
  | String c s' => if isspace c then lstrip s' else s
  end.

Fixpoint rstrip (s : string) : string :=
  match s with
  | EmptyString => EmptyString
  | String c s' =>
      match rstrip s' with
      | EmptyString => if isspace c then EmptyString else String c EmptyString
      | r => String c r
      end
  end.

(** [s.strip()] *)
Definition strip (s : string) : string := rstrip (lstrip s).

(** [s.split()]: the maximal runs of non-whitespace characters.  [cur] is
    the word being read. *)
Fixpoint split_from (cur : string) (s : string) : list string :=
  match s with
  | EmptyString => match cur with EmptyString => [] | _ => [cur] end
  | String c s' =>
      if isspace c
      then match cur with
           | EmptyString => split_from EmptyString s'
           | _ => cur :: split_from EmptyString s'
           end
      else split_from (cur +:+ String c EmptyString) s'
  end.

Definition split (s : string) : list string := split_from EmptyString s.

(** [sub in s] *)
Fixpoint contains (sub s : string) : bool :=
  String.prefix sub s ||
  match s with
  | EmptyString => false
  | String _ s' => contains sub s'
  end.

(** [sep.join(parts)] *)
Definition join (sep : string) (parts : list string) : string :=
  String.concat sep parts.

(** Truthiness of a [str]. *)
Definition truthy (s : string) : bool :=
  match s with EmptyString => false | _ => true end.

End Py.

(** ** The fragment of Python's [re] used by the extractor

    A backtracking matcher with ordered alternation, greedy and lazy
    repetition of a character class, and numbered capturing groups.
    Repetition is only ever applied to a single character class in the
    patterns of the program, so the syntax has repetition of classes only. *)

Module Re.

Inductive regex : Type :=
  | Lit (s : string)                 (* a literal run of characters *)
  | Cls (p : ascii -> bool)          (* one character of a class *)
  | Seq (r1 r2 : regex)
  | Alt (r1 r2 : regex)              (* r1|r2, r1 tried first *)
  | Star (p : ascii -> bool)         (* p*   greedy *)
  | Plus (p : ascii -> bool)         (* p+   greedy *)
  | StarLazy (p : ascii -> bool)     (* p*?  *)
  | Group (n : nat) (r : regex).     (* capturing group number n *)

Record flags := { IGNORECASE : bool; DOTALL : bool }.

(** Character classes of the patterns. *)
Definition ws : ascii -> bool := Py.isspace.                     (* \s *)
Definition non_ws (c : ascii) : bool := negb (Py.isspace c).     (* \S *)
Definition any_char (fl : flags) (c : ascii) : bool :=           (* .  *)
  DOTALL fl || negb (N_of_ascii c =? 10)%N.
Definition one_of (cs : string) (c : ascii) : bool :=
  existsb (Ascii.eqb c) (list_ascii_of_string cs).
Definition in_range (lo hi : ascii) (c : ascii) : bool :=
  ((N_of_ascii lo <=? N_of_ascii c) && (N_of_ascii c <=? N_of_ascii hi))%N.
Definition union (p q : ascii -> bool) (c : ascii) : bool := p c || q c.

Section Matcher.
Variable fl : flags.

Definition char_eq (p c : ascii) : bool :=
  if IGNORECASE fl
  then Ascii.eqb (Py.lower_char p) (Py.lower_char c)
  else Ascii.eqb p c.

Definition in_class (p : ascii -> bool) (c : ascii) : bool :=
  if IGNORECASE fl
  then p c || p (Py.lower_char c) || p (Py.upper_char c)
  else p c.

(** Group contents: number and captured text; the latest entry wins. *)
Definition captures := list (nat * string).

Context {A : Type}.
Definition cont := string -> captures -> option A.

Fixpoint lit (l : string) (s : string) : option string :=
  match l, s with
  | EmptyString, _ => Some s
  | String p l', String c s' => if char_eq p c then lit l' s' else None
  | String _ _, EmptyString => None
  end.

Fixpoint star (p : ascii -> bool) (s : string) (k : string -> option A)
  : option A :=
  match s with
  | String c s' =>
      if in_class p c
      then match star p s' k with
           | Some a => Some a
           | None => k s
           end
      else k s
  | EmptyString => k s
  end.

Fixpoint star_lazy (p : ascii -> bool) (s : string) (k : string -> option A)
  : option A :=
  match k s with
  | Some a => Some a
  | None =>
      match s with
      | String c s' => if in_class p c then star_lazy p s' k else None
      | EmptyString => None
      end
  end.

(** The text consumed between two suffixes of the subject. *)
Definition consumed (before after : string) : string :=
  String.substring 0 (String.length before - String.length after) before.

Fixpoint matchk (r : regex) (s : string) (caps : captures) (k : cont)
  : option A :=
  match r with
  | Lit l => match lit l s with Some s' => k s' caps | None => None end
  | Cls p =>
      match s with
      | String c s' => if in_class p c then k s' caps else None
      | EmptyString => None
      end
  | Seq r1 r2 => matchk r1 s caps (fun s' caps' => matchk r2 s' caps' k)
  | Alt r1 r2 =>
      match matchk r1 s caps k with
      | Some a => Some a
      | None => matchk r2 s caps k
      end
  | Star p => star p s (fun s' => k s' caps)
  | Plus p =>
      match s with
      | String c s' =>
          if in_class p c then star p s' (fun s'' => k s'' caps) else None
      | EmptyString => None
      end
  | StarLazy p => star_lazy p s (fun s' => k s' caps)
  | Group n r' =>
      matchk r' s caps (fun s' caps' => k s' ((n, consumed s s') :: caps'))
  end.
End Matcher.

(** A match object: the matched text, what follows it, and the groups. *)
Record match_obj := { matched : string; rest : string; groups : list (nat * string) }.

Definition match_here (fl : flags) (r : regex) (s : string) : option match_obj :=
  matchk fl r s [] (fun s' caps =>
    Some {| matched := consumed s s'; rest := s'; groups := caps |}).

(** [re.search(r, s, flags)]: the match at the leftmost position that has
    one. *)
Fixpoint search (fl : flags) (r : regex) (s : string) : option match_obj :=
  match match_here fl r s with
  | Some m => Some m
  | None =>
      match s with
      | String _ s' => search fl r s'
      | EmptyString => None
      end
  end.

(** [m.group(n)] for a group that took part in the match. *)
Fixpoint group (n : nat) (gs : list (nat * string)) : string :=
  match gs with
  | [] => EmptyString
  | (i, t) :: gs' => if Nat.eqb i n then t else group n gs'
  end.

(** [re.sub(r, repl, s, flags)].  [skip] counts the characters of the last
    match still to be passed over; an empty match is followed by the
    character it stands before. *)
Fixpoint sub_from (fl : flags) (r : regex) (repl : string) (skip : nat)
    (s : string) : string :=
  match skip with
  | S skip' =>
      match s with
      | String _ s' => sub_from fl r repl skip' s'
      | EmptyString => EmptyString
      end
  | O =>
      match match_here fl r s with
      | Some m =>
          match String.length (matched m), s with
          | S n, String _ s' => repl +:+ sub_from fl r repl n s'
          | _, String c s' => repl +:+ String c (sub_from fl r repl 0 s')
          | _, EmptyString => repl
          end
      | None =>
          match s with
          | String c s' => String c (sub_from fl r repl 0 s')
          | EmptyString => EmptyString
          end
      end
  end.

Definition sub (fl : flags) (r : regex) (repl s : string) : string :=
  sub_from fl r repl 0 s.

End Re.

(** ** Exceptions and the state-and-exception monad

    Python statements run against mutable state and may raise.  A
    computation takes the state, returns the state it leaves behind, and
    either a value or the exception raised: the state reached when an
    exception is raised is kept, as it is for objects mutated in place. *)

Inductive exn : Type :=
  | IndexError | KeyError | ValueError | MemoryError | RuntimeError
  | FileExistsError | FileNotFoundError | IsADirectoryError
  | NotADirectoryError.

Inductive result (A : Type) : Type :=
  | Ok (a : A)
  | Raise (e : exn).
Arguments Ok {A} a.
Arguments Raise {A} e.

Definition SE (S A : Type) : Type := S -> S * result A.

Definition ret {S A} (a : A) : SE S A := fun s => (s, Ok a).
Definition raise {S A} (e : exn) : SE S A := fun s => (s, Raise e).
Definition bind {S A B} (c : SE S A) (k : A -> SE S B) : SE S B :=
  fun s => match c s with
           | (s', Ok a) => k a s'
           | (s', Raise e) => (s', Raise e)
           end.
Definition get_state {S} : SE S S := fun s => (s, Ok s).

(** [try: c  except Exception as e: h e] *)
Definition try_except {S A} (c : SE S A) (h : exn -> SE S A) : SE S A :=
  fun s => match c s with
           | (s', Ok a) => (s', Ok a)
           | (s', Raise e) => h e s'
           end.

Declare Scope se_scope.
Delimit Scope se_scope with se.
Notation "x <- c ;; k" := (bind c (fun x => k))
  (at level 100, c at next level, right associativity) : se_scope.
Notation "c ;; k" := (bind c (fun _ => k))
  (at level 100, right associativity) : se_scope.
Local Open Scope se_scope.

(** [for i in idxs: body], where the body updates the loop-carried
    variables [v] and says whether it executed [break]. *)
Fixpoint for_loop {S V} (idxs : list Z) (body : Z -> V -> SE S (V * bool))
    (v : V) : SE S V :=
  match idxs with
  | [] => ret v
  | i :: idxs' =>
      r <- body i v ;;
      if snd r then ret (fst r) else for_loop idxs' body (fst r)
  end.

(** [range(a, b)] *)
Definition range (a b : Z) : list Z :=
  map (fun k => (a + Z.of_nat k)%Z) (seq 0 (Z.to_nat (b - a))).

(** [len(l)] *)
Definition len {A} (l : list A) : Z := Z.of_nat (length l).

(** [l[i]]: a negative index counts from the end; out of range raises. *)
Definition index {S} (l : list string) (i : Z) : SE S string :=
  let j := (if i <? 0 then i + len l else i)%Z in
  if ((0 <=? j) && (j <? len l))%Z
  then ret (nth (Z.to_nat j) l EmptyString)
  else raise IndexError.

(** ** Dictionaries *)

Definition dict := list (string * string).

Fixpoint dict_get (k : string) (d : dict) : option string :=
  match d with
  | [] => None
  | (k', v) :: d' => if String.eqb k k' then Some v else dict_get k d'
  end.

(** [d[k] = v] *)
Fixpoint dict_set (k v : string) (d : dict) : dict :=
  match d with
  | [] => [(k, v)]
  | (k', v') :: d' =>
      if String.eqb k k' then (k, v) :: d' else (k', v') :: dict_set k v d'
  end.

(** [list(d.keys())] *)
Definition keys (d : dict) : list string := map fst d.

(** Item access and assignment on the dictionary held as state. *)
Definition get_item (k : string) : SE dict string :=
  fun d => match dict_get k d with
           | Some v => (d, Ok v)
           | None => (d, Raise KeyError)
           end.
Definition set_item (k v : string) : SE dict unit :=
  fun d => (dict_set k v d, Ok tt).

(** ** Recognized text spans *)

Record span := { bbox : list (Q * Q); text : string; conf : Q }.

(** ** The six-field record and the patterns of the extractor *)

Definition SENTINEL : string := "N/A".

(** The literal the extractor starts from, in the order the keys are
    written. *)
Definition blank_record : dict :=
  [ ("University Name", SENTINEL);
    ("Certificate Holder Name", SENTINEL);
    ("Course", SENTINEL);
    ("Grade", SENTINEL);
    ("Roll No", SENTINEL);
    ("Certificate ID", SENTINEL) ].

Module Patterns.
Import Re.
Infix ">>" := Seq (at level 45, right associativity).

(** A compiled pattern: the pattern text of the program and its syntax
    tree. *)
Record pattern := { source : string; ast : regex }.

Definition ic : flags := {| IGNORECASE := true; DOTALL := false |}.
Definition ic_dotall : flags := {| IGNORECASE := true; DOTALL := true |}.

(** The bracketed classes: colon or whitespace; dash, whitespace or
    colon; capital letter, digit or whitespace. *)
Definition colon_ws : ascii -> bool := union (one_of ":") ws.
Definition dash_ws_colon : ascii -> bool :=
  union (one_of "-") (union ws (one_of ":")).
Definition alnum_ws : ascii -> bool :=
  union (in_range "A" "Z") (union (in_range "0" "9") ws).

Definition roll : pattern :=
  {| source := "(?:Roll\s*Number|Roll\s*No)\s*[:\s]*(\S+)";
     ast :=
       Alt (Lit "Roll" >> Star ws >> Lit "Number")
           (Lit "Roll" >> Star ws >> Lit "No")
       >> Star ws >> Star colon_ws >> Group 1 (Plus non_ws) |}.

Definition cert_id : pattern :=
  {| source := "(?:Certificate\s*ID|Cert\s*ID|ID\s*)\s*[:\s]*(\S+)";
     ast :=
       Alt (Lit "Certificate" >> Star ws >> Lit "ID")
           (Alt (Lit "Cert" >> Star ws >> Lit "ID") (Lit "ID" >> Star ws))
       >> Star ws >> Star colon_ws >> Group 1 (Plus non_ws) |}.

Definition grade : pattern :=
  {| source := "(?:Grade\s*[-\s:]*|with\s*Grade\s*[-\s:]*)\s*(\S)";
     ast :=
       Alt (Lit "Grade" >> Star ws >> Star dash_ws_colon)
           (Lit "with" >> Star ws >> Lit "Grade" >> Star ws
            >> Star dash_ws_colon)
       >> Star ws >> Group 1 (Cls non_ws) |}.

Definition course : pattern :=
  {| source := "completed the course of\s*(.*?)\s*(authorized by|with Grade)";
     ast :=
       Lit "completed the course of" >> Star ws
       >> Group 1 (StarLazy (any_char ic_dotall)) >> Star ws
       >> Group 2 (Alt (Lit "authorized by") (Lit "with Grade")) |}.

Definition boilerplate : pattern :=
  {| source := "(?:an\s+online\s+non-credit\s+course|a\s+non-credit\s+course)";
     ast :=
       Alt (Lit "an" >> Plus ws >> Lit "online" >> Plus ws
            >> Lit "non-credit" >> Plus ws >> Lit "course")
           (Lit "a" >> Plus ws >> Lit "non-credit" >> Plus ws
            >> Lit "course") |}.

Definition course_fallback : pattern :=
  {| source := "course of\s*([A-Z0-9\s]+)";
     ast := Lit "course of" >> Star ws >> Group 1 (Plus alnum_ws) |}.
End Patterns.

(** ** [final1.py]: the field extractor on the spans the OCR engine returned *)

Module Extractor.

(** The steps of the [try] block, in program order. *)
Inductive stage : Type :=
  | Flatten | University | Holder | Roll | CertId | Grade | Course
  | CourseFallback.

Definition stage_index (st : stage) : nat :=
  match st with
  | Flatten => 0 | University => 1 | Holder => 2 | Roll => 3 | CertId => 4
  | Grade => 5 | Course => 6 | CourseFallback => 7
  end.

Definition stage_eqb (a b : stage) : bool :=
  Nat.eqb (stage_index a) (stage_index b).

Section Body.
(** The step, if any, during which the interpreter raises an exception
    of its own (such as [MemoryError]); [None] is the undisturbed run.
    Each step assigns to the record at most once, as the last thing it
    does, so for the record it makes no difference where inside a step
    the exception strikes: before the assignment it is as at the start of
    the step, after it as at the start of the next. *)
Variable fault : option stage.

Definition enter (st : stage) : SE dict unit :=
  match fault with
  | Some f => if stage_eqb f st then raise MemoryError else ret tt
  | None => ret tt
  end.

(** [[text.strip() for (bbox, text, conf) in results if text.strip()]] *)
Definition stripped_texts (results : list span) : list string :=
  map (fun sp => Py.strip (text sp))
      (filter (fun sp => Py.truthy (Py.strip (text sp))) results).

(** The [enumerate] loop with [break]: the index of the first line that
    contains one of the three keywords, else the initial value. *)
Fixpoint first_keyword_line (i : Z) (lines : list string) (uni_start_idx : Z)
  : Z :=
  match lines with
  | [] => uni_start_idx
  | line :: lines' =>
      if Py.contains "Institute" line || Py.contains "University" line
         || Py.contains "Technology" line
      then i
      else first_keyword_line (i + 1) lines' uni_start_idx
  end.

Definition is_continuation (next_line : string) : bool :=
  (len (Py.split next_line) <=? 4)%Z
  && (Py.contains "of" (Py.lower next_line)
      || Py.contains "technology" (Py.lower next_line)).

Definition looks_like_name (line : string) : bool :=
  (2 <=? len (Py.split line))%Z
  && negb (Py.contains "course" (Py.lower line))
  && negb (Py.contains "roll" (Py.lower line))
  && negb (Py.contains "id" (Py.lower line))
  && negb (Py.contains "successfully" (Py.lower line)).

(** Step 1; returns the new value of [uni_end_idx]. *)
Definition university_step (text_lines : list string) (uni_end_idx : Z)
  : SE dict Z :=
  let uni_start_idx := first_keyword_line 0 text_lines (-1) in
  if negb (uni_start_idx =? -1)%Z then
    first <- index text_lines uni_start_idx ;;
    let uni_name_parts := [first] in
    let uni_end_idx := (uni_start_idx + 1)%Z in
    acc <- for_loop
             (range uni_end_idx (Z.min (uni_start_idx + 3) (len text_lines)))
             (fun i acc =>
                line <- index text_lines i ;;
                let next_line := Py.strip line in
                if is_continuation next_line
                then ret ((fst acc ++ [next_line], (i + 1)%Z), false)
                else ret (acc, true))
             (uni_name_parts, uni_end_idx) ;;
    set_item "University Name" (Py.strip (Py.join " " (fst acc))) ;;
    ret (snd acc)
  else ret uni_end_idx.

(** Step 2. *)
Definition holder_step (text_lines : list string) (name_search_start : Z)
  : SE dict unit :=
  for_loop (range name_search_start (len text_lines))
    (fun i _ =>
       line <- index text_lines i ;;
       if looks_like_name line
       then set_item "Certificate Holder Name" line ;; ret (tt, true)
       else ret (tt, false))
    tt.

(** A labelled field: the first group of the first match, stripped. *)
Definition labelled_step (key : string) (p : Patterns.pattern)
    (all_text : string) : SE dict unit :=
  match Re.search Patterns.ic (Patterns.ast p) all_text with
  | Some m => set_item key (Py.strip (Re.group 1 (Re.groups m)))
  | None => ret tt
  end.

Definition course_step (all_text : string) : SE dict unit :=
  match Re.search Patterns.ic_dotall (Patterns.ast Patterns.course)
          all_text with
  | Some m =>
      let course_name := Py.strip (Re.group 1 (Re.groups m)) in
      let course_name :=
        Py.strip (Re.sub Patterns.ic (Patterns.ast Patterns.boilerplate) ""
                    course_name) in
      set_item "Course" course_name
  | None => ret tt
  end.

Definition course_fallback_step (all_text : string) : SE dict unit :=
  current <- get_item "Course" ;;
  if String.eqb current SENTINEL then
    enter CourseFallback ;;
    labelled_step "Course" Patterns.course_fallback all_text
  else ret tt.

(** The statements of the [try] block after [READER.readtext]. *)
Definition extract_body (results : list span) : SE dict unit :=
  enter Flatten ;;
  let all_text := Py.join " " (stripped_texts results) in
  let text_lines := stripped_texts results in
  let uni_end_idx := 0%Z in
  enter University ;;
  uni_end_idx <- university_step text_lines uni_end_idx ;;
  enter Holder ;;
  let name_search_start := uni_end_idx in
  holder_step text_lines name_search_start ;;
  enter Roll ;;
  labelled_step "Roll No" Patterns.roll all_text ;;
  enter CertId ;;
  labelled_step "Certificate ID" Patterns.cert_id all_text ;;
  enter Grade ;;
  labelled_step "Grade" Patterns.grade all_text ;;
  enter Course ;;
  course_step all_text ;;
  course_fallback_step all_text.

(** [try: ... return extracted_data  except Exception: return
    extracted_data], started on the freshly built record: both exits
    return the dictionary as the statements left it. *)
Definition extract_from_results (results : list span) : result dict :=
  let run :=
    try_except (extract_body results ;; d <- get_state ;; ret d)
               (fun _ => d <- get_state ;; ret d) in
  snd (run blank_record).
End Body.

End Extractor.

(** A span with the given text; the extractor looks at the text only. *)
Definition mk_span (t : string) : span :=
  {| bbox := [(0, 0); (1, 0); (1, 1); (0, 1)]%Q; text := t; conf := 1%Q |}.

(** The spans of the scenario, in scan order. *)
Definition scenario : list span :=
  map mk_span
    [ "XYZ University of Technology";
      "presents this certificate to";
      "John Doe";
      "for successfully completed the course of Machine Learning authorized by XYZ with Grade A";
      "Roll Number: 12345";
      "Certificate ID: CERT-99" ].


(** ** The file system

    Path names are relative to the working directory and written
    canonically (no [.] or [..] components, no doubled or trailing
    separators); the working directory itself always exists. *)

Inductive node : Type :=
  | Dir
  | File (data : string).

(** The calls a program makes on the file system, in order, and the
    figures it puts on the screen. *)
Inductive call : Type :=
  | CExists (p : string)
  | CRead (p : string)
  | CMakedirs (p : string)
  | CWrite (p : string)
  | CAppend (p : string)
  | CRemove (p : string)
  | CShow (figure : string).

Record world := { fs : gmap string node; calls : list call }.

Definition log (c : call) : SE world unit :=
  fun w => ({| fs := fs w; calls := calls w ++ [c] |}, Ok tt).

Definition lookup_path (p : string) : SE world (option node) :=
  fun w => (w, Ok (fs w !! p)).

Definition store (p : string) (n : node) : SE world unit :=
  fun w => ({| fs := <[p := n]> (fs w); calls := calls w |}, Ok tt).

Definition unlink (p : string) : SE world unit :=
  fun w => ({| fs := delete p (fs w); calls := calls w |}, Ok tt).

Module Path.

Definition is_sep (c : ascii) : bool := Ascii.eqb c "/".

Fixpoint has_sep (p : string) : bool :=
  match p with
  | EmptyString => false
  | String c p' => is_sep c || has_sep p'
  end.

(** [(p[:i], p[i:])] for [i] one past the last separator. *)
Fixpoint cut_last (p : string) : string * string :=
  match p with
  | EmptyString => (EmptyString, EmptyString)
  | String c p' =>
      if has_sep p' then (String c (fst (cut_last p')), snd (cut_last p'))
      else if is_sep c then (String c EmptyString, p')
      else (EmptyString, p)
  end.

Fixpoint all_seps (p : string) : bool :=
  match p with
  | EmptyString => true
  | String c p' => is_sep c && all_seps p'
  end.

Fixpoint rstrip_seps (p : string) : string :=
  match p with
  | EmptyString => EmptyString
  | String c p' =>
      match rstrip_seps p' with
      | EmptyString => if is_sep c then EmptyString else String c EmptyString
      | r => String c r
      end
  end.

(** [os.path.split] *)
Definition split (p : string) : string * string :=
  let (head, tail) := cut_last p in
  if Py.truthy head && negb (all_seps head)
  then (rstrip_seps head, tail) else (head, tail).

(** [os.path.dirname], [os.path.basename] *)
Definition dirname (p : string) : string := fst (split p).
Definition basename (p : string) : string := snd (split p).

Fixpoint ends_with_sep (p : string) : bool :=
  match p with
  | EmptyString => false
  | String c EmptyString => is_sep c
  | String _ p' => ends_with_sep p'
  end.

(** [os.path.join(a, b)] *)
Definition join (a b : string) : string :=
  match b with
  | String c _ =>
      if is_sep c then b
      else if negb (Py.truthy a) || ends_with_sep a then a +:+ b
      else a +:+ "/" +:+ b
  | EmptyString =>
      if negb (Py.truthy a) || ends_with_sep a then a else a +:+ "/"
  end.

(** The directories above [p], outermost first: the text before each
    separator of [p]. *)
Fixpoint ancestors_from (seen : string) (p : string) : list string :=
  match p with
  | EmptyString => []
  | String c p' =>
      if is_sep c
      then (if Py.truthy seen then [seen] else [])
             ++ ancestors_from (seen +:+ String c EmptyString) p'
      else ancestors_from (seen +:+ String c EmptyString) p'
  end.

Definition ancestors (p : string) : list string :=
  ancestors_from EmptyString p.

End Path.

Module OS.

(** [os.path.exists(p)] *)
Definition exists_ (p : string) : SE world bool :=
  log (CExists p) ;;
  n <- lookup_path p ;;
  ret (match n with Some _ => true | None => false end).

(** The directory that is to hold [p] must be there. *)
Definition check_parent (p : string) : SE world unit :=
  let head := Path.dirname p in
  if negb (Py.truthy head) then ret tt
  else
    n <- lookup_path head ;;
    match n with
    | Some Dir => ret tt
    | Some (File _) => raise NotADirectoryError
    | None => raise FileNotFoundError
    end.

(** Reading the bytes of a regular file. *)
Definition read (p : string) : SE world string :=
  log (CRead p) ;;
  n <- lookup_path p ;;
  match n with
  | Some (File data) => ret data
  | Some Dir => raise IsADirectoryError
  | None => raise FileNotFoundError
  end.

(** Creating or replacing the regular file [p] with [data]. *)
Definition write (p : string) (data : string) : SE world unit :=
  log (CWrite p) ;;
  check_parent p ;;
  n <- lookup_path p ;;
  match n with
  | Some Dir => raise IsADirectoryError
  | _ => store p (File data)
  end.

(** [open(p, 'a')]: the file is created, empty, when absent. *)
Definition open_append (p : string) : SE world unit :=
  log (CAppend p) ;;
  check_parent p ;;
  n <- lookup_path p ;;
  match n with
  | Some Dir => raise IsADirectoryError
  | Some (File _) => ret tt
  | None => store p (File EmptyString)
  end.

(** Writing [data] to a file opened for appending: it goes after what
    the file holds. *)
Definition append (p : string) (data : string) : SE world unit :=
  n <- lookup_path p ;;
  match n with
  | Some (File old) => store p (File (old +:+ data))
  | _ => store p (File data)
  end.

(** [os.remove(p)] *)
Definition remove (p : string) : SE world unit :=
  log (CRemove p) ;;
  n <- lookup_path p ;;
  match n with
  | Some (File _) => unlink p
  | Some Dir => raise IsADirectoryError
  | None => raise FileNotFoundError
  end.

(** One level of [os.makedirs(_, exist_ok=True)]: a directory is made
    where there is nothing, kept where there is one, and a regular file
    in its place is an error. *)
Definition ensure_dir (e : exn) (p : string) : SE world unit :=
  n <- lookup_path p ;;
  match n with
  | None => store p Dir
  | Some Dir => ret tt
  | Some (File _) => raise e
  end.

Fixpoint ensure_dirs (ps : list string) : SE world unit :=
  match ps with
  | [] => ret tt
  | p :: ps' => ensure_dir NotADirectoryError p ;; ensure_dirs ps'
  end.

(** [os.makedirs(p, exist_ok=True)] *)
Definition makedirs (p : string) : SE world unit :=
  log (CMakedirs p) ;;
  ensure_dirs (Path.ancestors p) ;;
  ensure_dir FileExistsError p.

End OS.


(** ** Images and numpy arithmetic *)

(** A decoded colour image: rows of (blue, green, red) samples. *)
Definition image := list (list (Z * Z * Z)).
(** A grayscale image. *)
Definition gray := list (list Z).

(** [img.shape] *)
Definition shape (img : image) : Z * Z * Z := (len img, len (hd [] img), 3%Z).

Definition shape_eqb (a b : Z * Z * Z) : bool :=
  let '(h1, w1, c1) := a in
  let '(h2, w2, c2) := b in
  ((h1 =? h2) && (w1 =? w2) && (c1 =? c2))%Z.

(** [np.zeros((h, w, 3), dtype=np.uint8)] *)
Definition zeros (h w : nat) : image := repeat (repeat (0, 0, 0)%Z w) h.

(** A float64: a finite value, or what a division by zero leaves. *)
Inductive npfloat : Type :=
  | Fin (q : Q)
  | PosInf
  | NegInf
  | NaN.

(** [a / b] on finite floats; division by zero does not raise. *)
Definition np_div (a b : Q) : npfloat :=
  if Qeq_bool b 0 then
    if Qeq_bool a 0 then NaN
    else if Qle_bool 0 a then PosInf else NegInf
  else Fin (a / b)%Q.

(** [1 - x] *)
Definition one_minus (x : npfloat) : npfloat :=
  match x with
  | Fin q => Fin (1 - q)%Q
  | PosInf => NegInf
  | NegInf => PosInf
  | NaN => NaN
  end.

Definition qmin (a b : Q) : Q := if Qle_bool a b then a else b.
Definition qmax (a b : Q) : Q := if Qle_bool a b then b else a.

(** [np.min(m)], [np.max(m)]: an array without elements raises. *)
Definition np_min (m : list (list Q)) : result Q :=
  match concat m with
  | [] => Raise ValueError
  | x :: xs => Ok (fold_left qmin xs x)
  end.
Definition np_max (m : list (list Q)) : result Q :=
  match concat m with
  | [] => Raise ValueError
  | x :: xs => Ok (fold_left qmax xs x)
  end.

(** [(ssim_map - np.min(ssim_map)) / (np.max(ssim_map) - np.min(ssim_map))] *)
Definition normalize (ssim_map : list (list Q)) : result (list (list npfloat)) :=
  match np_min ssim_map, np_max ssim_map with
  | Ok lo, Ok hi => Ok (map (map (fun v => np_div (v - lo)%Q (hi - lo)%Q)) ssim_map)
  | Raise e, _ => Raise e
  | _, Raise e => Raise e
  end.

(** The divisor of the normalization. *)
Definition divisor (ssim_map : list (list Q)) : result Q :=
  match np_min ssim_map, np_max ssim_map with
  | Ok lo, Ok hi => Ok (hi - lo)%Q
  | Raise e, _ => Raise e
  | _, Raise e => Raise e
  end.

(** [1 - ssim_map] *)
Definition invert (m : list (list npfloat)) : list (list npfloat) :=
  map (map one_minus) m.

(** The suspicion surface before the blur: normalized, then inverted. *)
Definition suspicion_surface (ssim_map : list (list Q))
  : result (list (list npfloat)) :=
  match normalize ssim_map with
  | Ok m => Ok (invert m)
  | Raise e => Raise e
  end.

(** A float in the closed unit interval. *)
Definition in_unit (x : npfloat) : Prop :=
  match x with
  | Fin q => (0 <= q /\ q <= 1)%Q
  | _ => False
  end.

(** A float within [eps] of zero. *)
Definition near_zero (eps : Q) (x : npfloat) : Prop :=
  match x with
  | Fin q => (- eps <= q /\ q <= eps)%Q
  | _ => False
  end.

(** The routines of OpenCV, scikit-image and matplotlib the program
    calls.  A routine that can fail returns [Raise]. *)
Record imaging := {
  (* the decoder behind cv2.imread *)
  imdecode : string -> option image;
  (* cv2.resize(img, (width, height)) *)
  resize : image -> Z * Z -> result image;
  (* cv2.cvtColor(img, cv2.COLOR_BGR2GRAY) *)
  BGR2GRAY : image -> result gray;
  (* cv2.cvtColor(img, cv2.COLOR_BGR2RGB) *)
  BGR2RGB : image -> result image;
  (* skimage.metrics.structural_similarity(a, b, full=True) *)
  structural_similarity : gray -> gray -> result (Q * list (list Q));
  (* cv2.GaussianBlur(m, ksize, sigma) *)
  GaussianBlur : list (list npfloat) -> Z * Z -> Z -> result (list (list npfloat));
  (* (plt.cm.jet(m)[:,:,:3] * 255).astype(np.uint8) *)
  jet_uint8 : list (list npfloat) -> result image;
  (* cv2.addWeighted(a, alpha, b, beta, gamma) *)
  addWeighted : image -> Q -> image -> Q -> Q -> result image;
  (* the bytes plt.imsave writes for an array *)
  imsave_bytes : image -> string;
  (* the bytes plt.savefig writes for the figure that shows the image
     under the title carrying the score *)
  savefig_bytes : image -> Q -> string
}.

Definition lift {S A} (r : result A) : SE S A := fun s => (s, r).

(** ** [str(uuid.uuid4())]

    The random draw is an input of the caller: a 128-bit value, written as
    32 lower-case hexadecimal digits in groups of 8, 4, 4, 4 and 12. *)

Module Uuid.

Definition hex_digit (d : N) : ascii :=
  match d with
  | 0%N => "0" | 1%N => "1" | 2%N => "2" | 3%N => "3" | 4%N => "4"
  | 5%N => "5" | 6%N => "6" | 7%N => "7" | 8%N => "8" | 9%N => "9"
  | 10%N => "a" | 11%N => "b" | 12%N => "c" | 13%N => "d" | 14%N => "e"
  | _ => "f"
  end%char.

(** The last [n] hexadecimal digits of [v], most significant first. *)
Fixpoint hex (n : nat) (v : N) : string :=
  match n with
  | O => EmptyString
  | S n' => hex n' (v / 16)%N +:+ String (hex_digit (v mod 16)%N) EmptyString
  end.

Definition to_str (u : N) : string :=
  let h := hex 32 u in
  String.substring 0 8 h +:+ "-" +:+ String.substring 8 4 h +:+ "-"
  +:+ String.substring 12 4 h +:+ "-" +:+ String.substring 16 4 h +:+ "-"
  +:+ String.substring 20 12 h.

End Uuid.

(** ** The statements the two heat-map generators share

    [generate_ssim_heatmap] of [final1.py] and of [ocr_service.py] read
    the two images and go from them to the blended picture by the same
    statements; they differ in what they do with the picture and in how
    they report failure. *)

Module Heatmap.

Section Shared.
Variable lib : imaging.

(** [cv2.imread(p)]: [None] when the file is missing or cannot be
    decoded; it does not raise. *)
Definition imread (p : string) : SE world (option image) :=
  log (CRead p) ;;
  n <- lookup_path p ;;
  ret (match n with
       | Some (File data) => imdecode lib data
       | _ => None
       end).

(** From the two decoded images to the global score, the suspicion
    surface before the blur, and the candidate as compared: the
    statements from the dimension check to the inversion. *)
Definition similarity_mapper (reference test : image)
  : result (Q * list (list npfloat) * image) :=
  match (if negb (shape_eqb (shape reference) (shape test))
         then resize lib test (len (hd [] reference), len reference)
         else Ok test) with
  | Raise e => Raise e
  | Ok test =>
      match BGR2GRAY lib reference with
      | Raise e => Raise e
      | Ok gray_reference =>
          match BGR2GRAY lib test with
          | Raise e => Raise e
          | Ok gray_test =>
              match structural_similarity lib gray_reference gray_test with
              | Raise e => Raise e
              | Ok (score, ssim_map) =>
                  match suspicion_surface ssim_map with
                  | Raise e => Raise e
                  | Ok ssim_map_inverted =>
                      Ok (score, ssim_map_inverted, test)
                  end
              end
          end
      end
  end.

(** From the suspicion surface to the picture that is saved: blur,
    colour scale, blend, channel order. *)
Definition overlay_renderer (test : image)
    (ssim_map_inverted : list (list npfloat)) : result image :=
  match GaussianBlur lib ssim_map_inverted (51, 51)%Z 0%Z with
  | Raise e => Raise e
  | Ok ssim_map_blurred =>
      match jet_uint8 lib ssim_map_blurred with
      | Raise e => Raise e
      | Ok heatmap =>
          match addWeighted lib test (7 # 10) heatmap (3 # 10) 0 with
          | Raise e => Raise e
          | Ok heatmap_on_image => BGR2RGB lib heatmap_on_image
          end
      end
  end.

End Shared.

End Heatmap.

(** ** [ocr_service.py] *)

Module OcrService.

Definition REFERENCE_IMAGE_PATH : string := "reference_template.png".

Section Service.
Variable lib : imaging.

(** [plt.imsave] and [plt.savefig] appear as the write of their bytes to
    [output_path]: this is what they do under a name with the extension
    [.png], the only kind of name the program passes. *)
Definition generate_ssim_heatmap (reference_path test_path output_path : string)
  : SE world bool :=
  found <- OS.exists_ reference_path ;;
  if negb found then
    let dummy_img := zeros 200 300 in
    OS.write output_path (imsave_bytes lib dummy_img) ;;
    ret false
  else
    try_except
      (reference <- Heatmap.imread lib reference_path ;;
       test <- Heatmap.imread lib test_path ;;
       match reference, test with
       | Some reference, Some test =>
           r <- lift (Heatmap.similarity_mapper lib reference test) ;;
           let '(score, ssim_map_inverted, test) := r in
           shown <- lift (Heatmap.overlay_renderer lib test ssim_map_inverted) ;;
           OS.write output_path (savefig_bytes lib shown score) ;;
           ret true
       | _, _ => ret false
       end)
      (fun _ => ret false).

(** The extractor of this module is a stand-in that returns one fixed
    record for every path. *)
Definition extract_fields (image_path : string) : SE world dict :=
  ret [ ("University Name", "Jharkhand University of Technology");
        ("Certificate Holder Name", "Alok Kumar Sharma");
        ("Course", "Certified Web Developer");
        ("Grade", "A+");
        ("Roll No", "JUT2024-54321");
        ("Certificate ID", "PV-JKH-87234") ].

Definition heatmap_path_of (u : N) : string :=
  let heatmap_filename := Uuid.to_str u +:+ "_heatmap.png" in
  Path.join "static/heatmaps" heatmap_filename.

(** [u] is the value [uuid.uuid4()] draws. *)
Definition process_certificate (u : N) (file_path : string)
  : SE world (dict * string) :=
  extracted_data <- extract_fields file_path ;;
  OS.makedirs "static/heatmaps" ;;
  let heatmap_path := heatmap_path_of u in
  generate_ssim_heatmap REFERENCE_IMAGE_PATH file_path heatmap_path ;;
  found <- OS.exists_ file_path ;;
  (if found then OS.remove file_path else ret tt) ;;
  ret (extracted_data, heatmap_path).

End Service.

End OcrService.

(** ** [ocr_routes.py] *)

Module OcrRoutes.

Record response := {
  status : string;
  extracted_data : dict;
  heatmap_url : string
}.

Section Routes.
Variable lib : imaging.

(** [u1] and [u2] are the two identifiers drawn while the request is
    served; [filename] and [content] are the uploaded file. *)
Definition verify_certificate (u1 u2 : N) (filename content : string)
  : SE world response :=
  let filename := Uuid.to_str u1 +:+ "_" +:+ filename in
  let file_path := "static/" +:+ filename in
  OS.write file_path content ;;
  r <- OcrService.process_certificate lib u2 file_path ;;
  ret {| status := "success";
         extracted_data := fst r;
         heatmap_url := "/ocr/heatmap/" +:+ Path.basename (snd r) |}.
End Routes.

(** The response [FileResponse] gives for [static/heatmaps/filename]: the
    bytes of a regular file, and an error when there is none. *)
Definition get_heatmap (filename : string) : SE world string :=
  log (CRead ("static/heatmaps/" +:+ filename)) ;;
  n <- lookup_path ("static/heatmaps/" +:+ filename) ;;
  match n with
  | Some (File data) => ret data
  | _ => raise RuntimeError
  end.

End OcrRoutes.

(** ** The [csv] writer with the default dialect

    Fields are separated by commas and records end in CR LF.  A field is
    quoted when it holds a comma, a quote or a line break, and quotes
    inside it are doubled. *)

Module Csv.

Definition QUOTE : ascii := "034"%char.
Definition CR : ascii := "013"%char.
Definition LF : ascii := "010"%char.
Definition lineterminator : string := String CR (String LF EmptyString).

Definition special (c : ascii) : bool :=
  Ascii.eqb c "," || Ascii.eqb c QUOTE || Ascii.eqb c CR || Ascii.eqb c LF.

Fixpoint has_special (s : string) : bool :=
  match s with
  | EmptyString => false
  | String c s' => special c || has_special s'
  end.

Fixpoint double_quotes (s : string) : string :=
  match s with
  | EmptyString => EmptyString
  | String c s' =>
      if Ascii.eqb c QUOTE then String c (String c (double_quotes s'))
      else String c (double_quotes s')
  end.

Definition field (s : string) : string :=
  if has_special s
  then String QUOTE (double_quotes s) +:+ String QUOTE EmptyString
  else s.

(** [writer.writerow(cells)]: what is written for one row. *)
Definition line (cells : list string) : string :=
  match cells with
  | [EmptyString] => String QUOTE (String QUOTE EmptyString) +:+ lineterminator
  | _ => String.concat "," (map field cells) +:+ lineterminator
  end.

End Csv.

(** ** [final1.py] *)

Module Final1.

(** The OCR engine once initialized: from the bytes of an image file to
    the spans it recognizes. *)
Definition reader := string -> result (list span).

Definition on_world {A} (c : SE world A) : SE (world * dict) A :=
  fun s => let '(w', r) := c (fst s) in ((w', snd s), r).
Definition on_dict {A} (c : SE dict A) : SE (world * dict) A :=
  fun s => let '(d', r) := c (snd s) in ((fst s, d'), r).

Section Program.
(** The module-level [READER]: [None] when the engine failed to
    initialize. *)
Variable READER : option reader.
Variable fault : option Extractor.stage.

(** [r.readtext(image_path)] *)
Definition readtext (r : reader) (image_path : string)
  : SE world (list span) :=
  data <- OS.read image_path ;;
  lift (r data).

(** [extracted_data] is the dictionary component of the state; the
    function returns it on each of its exits. *)
Definition extract_fields (image_path : string) : SE world dict :=
  fun w =>
    let run : SE (world * dict) dict :=
      match READER with
      | None => on_dict get_state
      | Some r =>
          found <- on_world (OS.exists_ image_path) ;;
          if negb found then on_dict get_state
          else
            try_except
              (results <- on_world (readtext r image_path) ;;
               on_dict (Extractor.extract_body fault results) ;;
               on_dict get_state)
              (fun _ => on_dict get_state)
      end in
    let '(s, res) := run (w, blank_record) in
    (fst s, res).

(** [DictWriter._dict_to_list]: a key outside [fieldnames] is an error,
    a missing one is written as the empty string. *)
Definition dict_to_list (fieldnames : list string) (rowdict : dict)
  : result (list string) :=
  if forallb (fun k => existsb (String.eqb k) fieldnames) (keys rowdict)
  then Ok (map (fun k => default EmptyString (dict_get k rowdict)) fieldnames)
  else Raise ValueError.

Definition writerow (csvfile : string) (fieldnames : list string)
    (rowdict : dict) : SE world unit :=
  row <- lift (dict_to_list fieldnames rowdict) ;;
  OS.append csvfile (Csv.line row).

(** [writer.writeheader()] *)
Definition writeheader (csvfile : string) (fieldnames : list string)
  : SE world unit :=
  writerow csvfile fieldnames (combine fieldnames fieldnames).

(** [writer.writerows(data_list)] *)
Fixpoint writerows (csvfile : string) (fieldnames : list string)
    (rowdicts : list dict) : SE world unit :=
  match rowdicts with
  | [] => ret tt
  | d :: rest =>
      writerow csvfile fieldnames d ;;
      writerows csvfile fieldnames rest
  end.

Definition DEFAULT_OUTPUT : string := "extracted_certificates.csv".

Definition save_to_csv (data_list : list dict) (output_filename : string)
  : SE world unit :=
  match data_list with
  | [] => ret tt
  | first :: _ =>
      let fieldnames := keys first in
      file_exists <- OS.exists_ output_filename ;;
      try_except
        (OS.open_append output_filename ;;
         (if negb file_exists
          then writeheader output_filename fieldnames
          else ret tt) ;;
         writerows output_filename fieldnames data_list)
        (fun _ => ret tt)
  end.
End Program.

Section Display.
Variable lib : imaging.

(** This generator shows the picture instead of saving it, and returns
    nothing on every path. *)
Definition generate_ssim_heatmap (reference_path test_path : string)
  : SE world unit :=
  try_except
    (reference <- Heatmap.imread lib reference_path ;;
     test <- Heatmap.imread lib test_path ;;
     match reference, test with
     | Some reference, Some test =>
         r <- lift (Heatmap.similarity_mapper lib reference test) ;;
         let '(score, ssim_map_inverted, test) := r in
         shown <- lift (Heatmap.overlay_renderer lib test ssim_map_inverted) ;;
         log (CShow (imsave_bytes lib shown))
     | _, _ => ret tt
     end)
    (fun _ => ret tt).
End Display.

Section Main.
Variable lib : imaging.
Variable READER : option reader.
Variable fault : option Extractor.stage.

Definition REFERENCE_IMAGE_PATH : string := "genuine.png".
Definition TEST_IMAGE_PATH : string := "test1.png".

(** The block run when the file is executed as a script. *)
Definition main : SE world unit :=
  generate_ssim_heatmap lib REFERENCE_IMAGE_PATH TEST_IMAGE_PATH ;;
  let CERTIFICATE_FILE_PATH := TEST_IMAGE_PATH in
  let OUTPUT_CSV_FILE := "extracted_certificates.csv" in
  found <- OS.exists_ CERTIFICATE_FILE_PATH ;;
  if negb found then ret tt
  else
    match READER with
    | None => ret tt
    | Some _ =>
        extracted_fields <- extract_fields READER fault CERTIFICATE_FILE_PATH ;;
        save_to_csv [extracted_fields] OUTPUT_CSV_FILE
    end.
End Main.

End Final1.

(** ** A small stand-in for the imaging libraries

    Used to run the definitions on concrete inputs.  An image file is the
    three characters [IMG] followed by one row of gray samples, one
    character each; the similarity field is the structural similarity
    with a window of a single sample. *)

Module Double.

Definition sample (c : ascii) : Z * Z * Z :=
  let v := Z.of_N (N_of_ascii c) in (v, v, v).

Definition decode (data : string) : option image :=
  match data with
  | String "I" (String "M" (String "G" body)) =>
      Some [map sample (list_ascii_of_string body)]
  | _ => None
  end.

Definition encode (img : image) : string :=
  "IMG" +:+ string_of_list_ascii
    (map (fun px => ascii_of_N (Z.to_N (fst (fst px)))) (concat img)).

Definition to_gray (img : image) : gray :=
  map (map (fun px => let '(b, g, r) := px in ((b + g + r) / 3)%Z)) img.

Definition swap_channels (img : image) : image :=
  map (map (fun px => let '(b, g, r) := px in (r, g, b))) img.

(** (2xy + C1) / (x^2 + y^2 + C1) with C1 = (0.01 * 255)^2. *)
Definition C1 : Q := (65025 # 10000)%Q.
Definition local_ssim (x y : Z) : Q :=
  ((2 * inject_Z x * inject_Z y + C1)
   / (inject_Z x * inject_Z x + inject_Z y * inject_Z y + C1))%Q.

Definition mean (xs : list Q) : Q :=
  (fold_left Qplus xs 0 / inject_Z (len xs))%Q.

Definition ssim (a b : gray) : result (Q * list (list Q)) :=
  match concat a with
  | [] => Raise ValueError
  | _ =>
      let m := map (fun rows => map (fun xy => local_ssim (fst xy) (snd xy))
                                    (combine (fst rows) (snd rows)))
                   (combine a b) in
      Ok (Qred (mean (concat m)), m)
  end.

Definition heat (x : npfloat) : Z * Z * Z :=
  match x with
  | Fin q => (Qfloor (255 * (1 - q)), 0, Qfloor (255 * q))%Z
  | _ => (0, 0, 0)%Z
  end.

Definition blend (alpha beta gamma : Q) (p q : Z * Z * Z) : Z * Z * Z :=
  let mix x y := Qfloor (alpha * inject_Z x + beta * inject_Z y + gamma) in
  let '(b1, g1, r1) := p in
  let '(b2, g2, r2) := q in
  (mix b1 b2, mix g1 g2, mix r1 r2).

Definition lib : imaging :=
  {| imdecode := decode;
     resize := fun img size =>
       Ok (repeat (repeat (hd (0, 0, 0)%Z (concat img)) (Z.to_nat (fst size)))
                  (Z.to_nat (snd size)));
     BGR2GRAY := fun img => Ok (to_gray img);
     BGR2RGB := fun img => Ok (swap_channels img);
     structural_similarity := ssim;
     GaussianBlur := fun m _ _ => Ok m;
     jet_uint8 := fun m => Ok (map (map heat) m);
     addWeighted := fun a alpha b beta gamma =>
       Ok (map (fun rows => map (fun pq => blend alpha beta gamma (fst pq) (snd pq))
                                (combine (fst rows) (snd rows)))
               (combine a b));
     imsave_bytes := encode;
     savefig_bytes := fun img _ => encode img |}.

End Double.

(** ** Abbreviations used in the statements *)

(** The world after the calls [cs] that leave the files as they are. *)
Definition logged (w : world) (cs : list call) : world :=
  {| fs := fs w; calls := calls w ++ cs |}.

(** The record the extractor of [ocr_service.py] returns. *)
Definition stand_in_record : dict :=
  [ ("University Name", "Jharkhand University of Technology");
    ("Certificate Holder Name", "Alok Kumar Sharma");
    ("Course", "Certified Web Developer");
    ("Grade", "A+");
    ("Roll No", "JUT2024-54321");
    ("Certificate ID", "PV-JKH-87234") ].

(** The file [p] can be created or replaced: the directory that is to
    hold it is there, and [p] is not itself a directory. *)
Definition writable (m : gmap string node) (p : string) : Prop :=
  (Path.dirname p = EmptyString \/ m !! Path.dirname p = Some Dir)
  /\ m !! p <> Some Dir.

(** No regular file stands at [p]. *)
Definition no_file_at (m : gmap string node) (p : string) : Prop :=
  forall data, m !! p <> Some (File data).

(** A dictionary with exactly the six keys of the schema, in order. *)
Definition is_record (d : dict) : Prop := keys d = keys blank_record.

(** The cells written for a record. *)
Definition row_of (d : dict) : list string :=
  map (fun k => default EmptyString (dict_get k d)) (keys blank_record).

(** What the regular file at [p] holds; nothing when there is none. *)
Definition contents (m : gmap string node) (p : string) : string :=
  match m !! p with
  | Some (File data) => data
  | _ => EmptyString
  end.

(** The text of the rows of a list of records, and of the header row. *)
Definition rows_text (data_list : list dict) : string :=
  String.concat EmptyString (map (fun d => Csv.line (row_of d)) data_list).
Definition header_text : string := Csv.line (keys blank_record).

(** A computation on the record that keeps its six keys and changes at
    most the field [key]. *)
Definition touches {A} (key : string) (c : SE dict A) : Prop :=
  forall d d' r, is_record d -> c d = (d', r) ->
    is_record d' /\ forall k, k <> key -> dict_get k d' = dict_get k d.

(** The step that settles each field: the field is final once the step
    is over. *)
Definition field_stages : list (string * Extractor.stage) :=
  [ ("University Name", Extractor.University);
    ("Certificate Holder Name", Extractor.Holder);
    ("Roll No", Extractor.Roll);
    ("Certificate ID", Extractor.CertId);
    ("Grade", Extractor.Grade);
    ("Course", Extractor.CourseFallback) ].

(** Whether a dash occurs in a string. *)
Fixpoint has_dash (s : string) : bool :=
  match s with
  | EmptyString => false
  | String c s' => Ascii.eqb c "-" || has_dash s'
  end.

(** ** Concrete states of the file system *)

(** An upload as the route names it. *)
Definition upload_path : string :=
  "static/" +:+ Uuid.to_str 7 +:+ "_certificate.png".

(** The template and a decodable upload. *)
Definition world_ready : world :=
  {| fs := {[ "static" := Dir;
              "reference_template.png" := File "IMGab";
              upload_path := File "IMGac" ]};
     calls := [] |}.

(** The template and an upload that is not an image. *)
Definition world_bad_upload : world :=
  {| fs := {[ "static" := Dir;
              "reference_template.png" := File "IMGab";
              upload_path := File "not an image" ]};
     calls := [] |}.

(** A regular file stands where the overlay directory is to be. *)
Definition world_blocked : world :=
  {| fs := {[ "static" := Dir;
              "static/heatmaps" := File "x";
              upload_path := File "IMGac" ]};
     calls := [] |}.

(** ** Further abbreviations *)

(** The keyword test of the scan for the university name. *)
Definition has_keyword (line : string) : bool :=
  Py.contains "Institute" line || Py.contains "University" line
  || Py.contains "Technology" line.

(** The position of the first element that passes a test. *)
Fixpoint first_index {A} (p : A -> bool) (l : list A) : option nat :=
  match l with
  | [] => None
  | x :: l' => if p x then Some 0%nat else option_map S (first_index p l')
  end.

(** The longest run of elements at the front that pass a test. *)
Fixpoint leading {A} (p : A -> bool) (l : list A) : list A :=
  match l with
  | [] => []
  | x :: l' => if p x then x :: leading p l' else []
  end.

(** No whitespace character occurs in a string. *)
Fixpoint no_space (s : string) : bool :=
  match s with
  | EmptyString => true
  | String c s' => negb (Py.isspace c) && no_space s'
  end.

(** A computation that keeps the six keys and a property of one field. *)
Definition keeps {A} (key : string) (Q : option string -> Prop)
    (c : SE dict A) : Prop :=
  forall d d' r, is_record d -> Q (dict_get key d) -> c d = (d', r) ->
    is_record d' /\ Q (dict_get key d').

(** The value a labelled pattern gives on a text. *)
Definition labelled_value (p : Patterns.pattern) (all_text : string) : string :=
  match Re.search Patterns.ic (Patterns.ast p) all_text with
  | Some m => Py.strip (Re.group 1 (Re.groups m))
  | None => SENTINEL
  end.

(** Where the scan for the holder name starts: after the lines joined into
    the university name, or at the first line when there is none. *)
Definition resume_point (text_lines : list string) : nat :=
  match first_index has_keyword text_lines with
  | None => 0
  | Some i =>
      S i + length (leading Extractor.is_continuation
                      (map Py.strip (firstn 2 (skipn (S i) text_lines))))
  end.

(** What [extract_fields] of [final1.py] returns, read off the engine and
    the files alone. *)
Definition extracted (READER : option Final1.reader)
    (fault : option Extractor.stage) (image_path : string)
    (m : gmap string node) : result dict :=
  match READER, m !! image_path with
  | Some r, Some (File data) =>
      match r data with
      | Ok results => Extractor.extract_from_results fault results
      | Raise _ => Ok blank_record
      end
  | _, _ => Ok blank_record
  end.

(** The calls [extract_fields] makes. *)
Definition extract_calls (READER : option Final1.reader) (image_path : string)
    (m : gmap string node) : list call :=
  match READER, m !! image_path with
  | None, _ => []
  | Some _, None => [CExists image_path]
  | Some _, Some _ => [CExists image_path; CRead image_path]
  end.

(** An engine that fails on every file. *)
Definition failing_reader : Final1.reader := fun _ => Raise ValueError.

(** The suspicion of a raw similarity [v] in a field with minimum [lo] and
    maximum [hi]. *)
Definition suspicion (lo hi v : Q) : Q := (1 - (v - lo) / (hi - lo))%Q.

(** A name with the extension [.png]: it ends in [.png], and the character
    before the extension is neither a dot nor a separator.  Under such a
    name [plt.imsave] and [plt.savefig] write a PNG file to the name
    itself; for other names they choose another format, add an extension
    to the name, or refuse the name. *)
Fixpoint png_name (p : string) : bool :=
  match p with
  | EmptyString => false
  | String c rest =>
      (negb (Path.is_sep c) && negb (Ascii.eqb c ".") && String.eqb rest ".png")
      || png_name rest
  end.

(** The upload directory and an upload; no template. *)
Definition world_bare : world :=
  {| fs := {[ "static" := Dir; upload_path := File "IMGac" ]}; calls := [] |}.

(** Nothing but the template. *)
Definition world_template_only : world :=
  {| fs := {[ "reference_template.png" := File "IMGab" ]}; calls := [] |}.

(** Only the upload directory and the template. *)
Definition world_fresh : world :=
  {| fs := {[ "static" := Dir; "reference_template.png" := File "IMGab" ]};
     calls := [] |}.

(** What the log file holds after a list of records has been saved. *)
Definition saved (m : gmap string node) (p : string) (data_list : list dict)
  : string :=
  contents m p
  +:+ (match m !! p with None => header_text | Some _ => EmptyString end)
  +:+ rows_text data_list.

(** The directory of the script: the genuine template and the
    certificate to check. *)
Definition world_desk : world :=
  {| fs := {[ "genuine.png" := File "IMGab"; "test1.png" := File "IMGac" ]};
     calls := [] |}.

(** An engine that recognizes the spans of the scenario on every file. *)
Definition scenario_reader : Final1.reader := fun _ => Ok scenario.

(** * Properties *)

(** ** Running a computation one statement at a time *)

Lemma bind_ok {S A B} (c : SE S A) (k : A -> SE S B) s s' a :
  c s = (s', Ok a) -> bind c k s = k a s'.
Proof. intros H. unfold bind. now rewrite H. Qed.

Lemma bind_raise {S A B} (c : SE S A) (k : A -> SE S B) s s' e :
  c s = (s', Raise e) -> bind c k s = (s', Raise e).
Proof. intros H. unfold bind. now rewrite H. Qed.

Lemma try_except_ok {S A} (c : SE S A) h s s' a :
  c s = (s', Ok a) -> try_except c h s = (s', Ok a).
Proof. intros H. unfold try_except. now rewrite H. Qed.

Lemma try_except_raise {S A} (c : SE S A) h s s' e :
  c s = (s', Raise e) -> try_except c h s = h e s'.
Proof. intros H. unfold try_except. now rewrite H. Qed.

(** ** Dictionaries *)

Lemma dict_get_set_same k v d : dict_get k (dict_set k v d) = Some v.
Proof.
  induction d as [|[k' v'] d IH]; simpl.
  - now rewrite String.eqb_refl.
  - destruct (String.eqb k k') eqn:E; simpl; rewrite ?E, ?String.eqb_refl; auto.
Qed.

Lemma dict_get_set_other k k' v d :
  k <> k' -> dict_get k' (dict_set k v d) = dict_get k' d.
Proof.
  intros Hne. induction d as [|[k0 v0] d IH]; simpl.
  - destruct (String.eqb k' k) eqn:E; [|reflexivity].
    apply String.eqb_eq in E. congruence.
  - destruct (String.eqb k k0) eqn:E; simpl.
    + apply String.eqb_eq in E. subst k0.
      destruct (String.eqb k' k) eqn:E'; [|reflexivity].
      apply String.eqb_eq in E'. congruence.
    + now rewrite IH.
Qed.

Lemma keys_dict_set_present k v d :
  In k (keys d) -> keys (dict_set k v d) = keys d.
Proof.
  unfold keys. induction d as [|[k0 v0] d IH]; simpl; [tauto|].
  intros Hin. destruct (String.eqb k k0) eqn:E; simpl.
  - apply String.eqb_eq in E. now subst.
  - f_equal. apply IH. destruct Hin as [->|]; [|assumption].
    now rewrite String.eqb_refl in E.
Qed.

(** ** The scan for the holder name *)

(** [range] and indexing on natural numbers. *)
Lemma seq_from (a n : nat) : map (Nat.add a) (seq 0 n) = seq a n.
Proof.
  revert a. induction n as [|n IH]; intros a; [reflexivity|].
  cbn [seq map]. rewrite Nat.add_0_r. f_equal.
  rewrite <- List.seq_shift, List.map_map, <- (IH (S a)).
  apply List.map_ext. intros k. lia.
Qed.

Lemma range_nat (a n : nat) :
  range (Z.of_nat a) (Z.of_nat (a + n)) = map Z.of_nat (seq a n).
Proof.
  unfold range.
  replace (Z.to_nat (Z.of_nat (a + n) - Z.of_nat a)) with n by lia.
  rewrite <- (seq_from a n), List.map_map.
  apply List.map_ext. intros k. lia.
Qed.

Lemma index_in_range {S} (l : list string) (i : nat) (s : S) :
  (i < length l)%nat ->
  index l (Z.of_nat i) s = (s, Ok (nth i l EmptyString)).
Proof.
  intros Hi. unfold index, len.
  replace (Z.of_nat i <? 0)%Z with false by lia.
  replace ((0 <=? Z.of_nat i)%Z && (Z.of_nat i <? Z.of_nat (length l))%Z)
    with true by lia.
  now rewrite Nat2Z.id.
Qed.

Lemma skipn_nth_cons {A} (l : list A) (i : nat) (x : A) :
  (i < length l)%nat -> skipn i l = nth i l x :: skipn (S i) l.
Proof.
  revert i. induction l as [|y l IH]; intros i Hi; simpl in Hi; [lia|].
  destruct i as [|i]; [reflexivity|].
  cbn [skipn nth]. apply IH. lia.
Qed.

(** The holder step takes the first line, from the resume point on, that
    passes the name test; when no line passes, the record is left as it
    is. *)
Lemma holder_step_first_match (text_lines : list string) (start : nat) (d : dict) :
  Extractor.holder_step text_lines (Z.of_nat start) d =
  match List.find Extractor.looks_like_name (skipn start text_lines) with
  | Some line => (dict_set "Certificate Holder Name" line d, Ok tt)
  | None => (d, Ok tt)
  end.
Proof.
  unfold Extractor.holder_step.
  destruct (le_lt_dec (length text_lines) start) as [Hge|Hlt].
  { rewrite skipn_all2 by exact Hge. simpl.
    unfold range. replace (Z.to_nat _) with 0%nat by (unfold len; lia).
    reflexivity. }
  remember (length text_lines - start)%nat as n eqn:Hn.
  replace (len text_lines) with (Z.of_nat (start + n)) by (unfold len; lia).
  rewrite range_nat.
  assert (Hlen : (start + n = length text_lines)%nat) by lia.
  clear Hn Hlt. revert start Hlen.
  induction n as [|n IH]; intros start Hlen.
  - rewrite skipn_all2 by lia. reflexivity.
  - cbn [seq map for_loop].
    assert (Hi : (start < length text_lines)%nat) by lia.
    rewrite (skipn_nth_cons text_lines start EmptyString Hi).
    cbn [List.find].
    unfold bind at 1. unfold bind at 1.
    rewrite (index_in_range text_lines start d Hi).
    destruct (Extractor.looks_like_name (nth start text_lines EmptyString)).
    + reflexivity.
    + unfold ret at 1. cbn [fst snd]. apply IH. lia.
Qed.

(** ** The extractor on fixed span sequences *)

(** C1.  On the six spans of the scenario the extractor returns the
    university, course, grade, roll number and certificate identifier the
    scenario names, but the holder name is the second span, "presents this
    certificate to": it is the first line after the university name with
    two words or more and none of the excluded keywords. *)
Theorem extract_fields_scenario :
  Extractor.extract_from_results None scenario =
  Ok [ ("University Name", "XYZ University of Technology");
       ("Certificate Holder Name", "presents this certificate to");
       ("Course", "Machine Learning");
       ("Grade", "A");
       ("Roll No", "12345");
       ("Certificate ID", "CERT-99") ].
Proof. vm_compute. reflexivity. Qed.

(** On the scenario the university name ends at the first span, and the
    second span is the first one from there on that passes the name test:
    the scan stops at it and never reaches "John Doe". *)
Lemma scenario_holder_is_first_match :
  Extractor.university_step (Extractor.stripped_texts scenario) 0 blank_record
  = (dict_set "University Name" "XYZ University of Technology" blank_record,
     Ok 1%Z)
  /\ List.find Extractor.looks_like_name
       (skipn 1 (Extractor.stripped_texts scenario))
     = Some "presents this certificate to".
Proof. split; vm_compute; reflexivity. Qed.

(** C7.  On the empty span sequence every field is the sentinel and the
    call returns normally; this holds whether or not the interpreter
    raises an exception of its own at some step. *)
Theorem extract_fields_empty_spans :
  forall fault : option Extractor.stage,
    Extractor.extract_from_results fault [] = Ok blank_record
    /\ Forall (fun k => dict_get k blank_record = Some SENTINEL)
              (keys blank_record).
Proof.
  intros fault. split.
  - destruct fault as [[]|]; vm_compute; reflexivity.
  - repeat constructor.
Qed.

(** C10.  With the empty list [save_to_csv] returns at once: the file
    system is the one it was, and no file-system call is made. *)
Theorem save_to_csv_empty_list :
  forall (output_filename : string) (w : world),
    Final1.save_to_csv [] output_filename w = (w, Ok tt).
Proof. intros. reflexivity. Qed.

(** ** The extractor behind its guard *)

(** When the engine is there and the path names a regular file, the
    result is the one computed from the spans the engine returns. *)
Lemma extract_fields_reads r fault path w data results :
  fs w !! path = Some (File data) ->
  r data = Ok results ->
  Final1.extract_fields (Some r) fault path w =
  (logged w [CExists path; CRead path],
   Extractor.extract_from_results fault results).
Proof.
  intros Hfile Hr.
  unfold Final1.extract_fields, Extractor.extract_from_results, logged.
  unfold try_except, bind, Final1.on_world, Final1.on_dict, Final1.readtext,
    OS.exists_, OS.read, log, lookup_path, bind, ret, lift, get_state.
  simpl. rewrite Hfile. simpl. rewrite Hfile. simpl. rewrite Hr.
  rewrite <- app_assoc. simpl.
  destruct (Extractor.extract_body fault results blank_record) as [d [[]|e]];
    reflexivity.
Qed.

(** In [final1.py] an engine that failed to initialize gives the
    all-sentinel record, without touching the file system. *)
Lemma final1_extract_fields_engine_unavailable fault path w :
  Final1.extract_fields None fault path w = (w, Ok blank_record).
Proof. reflexivity. Qed.

(** In [final1.py] a path that does not exist gives the all-sentinel
    record. *)
Lemma final1_extract_fields_missing_path r fault path w :
  fs w !! path = None ->
  Final1.extract_fields (Some r) fault path w =
  (logged w [CExists path], Ok blank_record).
Proof.
  intros Hnone. unfold Final1.extract_fields, logged.
  unfold bind, Final1.on_world, Final1.on_dict, OS.exists_, log, lookup_path,
    bind, ret, get_state.
  simpl. rewrite Hnone. reflexivity.
Qed.

(** In [final1.py] an engine that raises on the file gives the
    all-sentinel record as well. *)
Lemma final1_extract_fields_engine_raises r fault path w data e :
  fs w !! path = Some (File data) ->
  r data = Raise e ->
  Final1.extract_fields (Some r) fault path w =
  (logged w [CExists path; CRead path], Ok blank_record).
Proof.
  intros Hfile Hr. unfold Final1.extract_fields, logged.
  unfold try_except, bind, Final1.on_world, Final1.on_dict, Final1.readtext,
    OS.exists_, OS.read, log, lookup_path, bind, ret, lift, get_state.
  simpl. rewrite Hfile. simpl. rewrite Hfile. simpl. rewrite Hr.
  rewrite <- app_assoc. reflexivity.
Qed.

(** With the engine there and a file in which it finds no text,
    [extract_fields] of [final1.py] returns the all-sentinel record. *)
Lemma final1_extract_fields_no_spans r fault path w data :
  fs w !! path = Some (File data) ->
  r data = Ok [] ->
  Final1.extract_fields (Some r) fault path w =
  (logged w [CExists path; CRead path], Ok blank_record).
Proof.
  intros Hfile Hr. rewrite (extract_fields_reads r fault path w data []) by assumption.
  f_equal. destruct fault as [[]|]; vm_compute; reflexivity.
Qed.

(** C2.  The extractor of [ocr_service.py], the one [process_certificate]
    calls, returns the same fixed record for every path and every state of
    the file system, so also for a path that does not exist: none of its
    six fields is the sentinel. *)
Theorem ocr_service_extract_fields_ignores_missing_path :
  forall (image_path : string) (w : world),
    OcrService.extract_fields image_path w = (w, Ok stand_in_record)
    /\ Forall (fun k => dict_get k stand_in_record <> Some SENTINEL)
              (keys blank_record).
Proof.
  intros. split; [reflexivity|].
  repeat constructor; vm_compute; discriminate.
Qed.

(** ** The normalization of the similarity field *)

Lemma qmin_idem c : qmin c c = c.
Proof. unfold qmin. now destruct (Qle_bool c c). Qed.
Lemma qmax_idem c : qmax c c = c.
Proof. unfold qmax. now destruct (Qle_bool c c). Qed.

Lemma fold_qmin_repeat c n : fold_left qmin (repeat c n) c = c.
Proof. induction n; simpl; [reflexivity|]. now rewrite qmin_idem. Qed.
Lemma fold_qmax_repeat c n : fold_left qmax (repeat c n) c = c.
Proof. induction n; simpl; [reflexivity|]. now rewrite qmax_idem. Qed.

Lemma concat_repeat_repeat {A} (c : A) m n :
  concat (repeat (repeat c m) n) = repeat c (n * m).
Proof.
  induction n; simpl; [reflexivity|]. now rewrite IHn, repeat_app.
Qed.

Lemma np_min_constant c h w : np_min (repeat (repeat c (S w)) (S h)) = Ok c.
Proof.
  unfold np_min. rewrite concat_repeat_repeat. simpl.
  now rewrite fold_qmin_repeat.
Qed.
Lemma np_max_constant c h w : np_max (repeat (repeat c (S w)) (S h)) = Ok c.
Proof.
  unfold np_max. rewrite concat_repeat_repeat. simpl.
  now rewrite fold_qmax_repeat.
Qed.

Lemma np_div_zero_zero a b : (a == 0)%Q -> (b == 0)%Q -> np_div a b = NaN.
Proof.
  intros Ha Hb. unfold np_div.
  apply Qeq_bool_iff in Ha, Hb. now rewrite Ha, Hb.
Qed.

Lemma map_map_repeat {A B} (f : A -> B) c m n :
  map (map f) (repeat (repeat c m) n) = repeat (repeat (f c) m) n.
Proof. now rewrite map_repeat, map_repeat. Qed.



Lemma qmin_le_l x a : (qmin x a <= x)%Q.
Proof.
  unfold qmin. destruct (Qle_bool x a) eqn:E; [lra|].
  assert (~ (x <= a)%Q) by (intros H; apply Qle_bool_iff in H; congruence).
  lra.
Qed.
Lemma qmin_le_r x a : (qmin x a <= a)%Q.
Proof.
  unfold qmin. destruct (Qle_bool x a) eqn:E; [|lra].
  now apply Qle_bool_iff.
Qed.
Lemma qmax_ge_l x a : (x <= qmax x a)%Q.
Proof.
  unfold qmax. destruct (Qle_bool x a) eqn:E; [|lra].
  now apply Qle_bool_iff.
Qed.
Lemma qmax_ge_r x a : (a <= qmax x a)%Q.
Proof.
  unfold qmax. destruct (Qle_bool x a) eqn:E; [lra|].
  assert (~ (x <= a)%Q) by (intros H; apply Qle_bool_iff in H; congruence).
  lra.
Qed.

Lemma fold_qmin_le xs : forall x v, In v (x :: xs) -> (fold_left qmin xs x <= v)%Q.
Proof.
  induction xs as [|a xs IH]; intros x v Hin; simpl.
  - destruct Hin as [->|[]]. lra.
  - destruct Hin as [<-|[<-|Hin]].
    + eapply Qle_trans; [apply IH; left; reflexivity|apply qmin_le_l].
    + eapply Qle_trans; [apply IH; left; reflexivity|apply qmin_le_r].
    + apply IH. now right.
Qed.
Lemma fold_qmax_ge xs : forall x v, In v (x :: xs) -> (v <= fold_left qmax xs x)%Q.
Proof.
  induction xs as [|a xs IH]; intros x v Hin; simpl.
  - destruct Hin as [->|[]]. lra.
  - destruct Hin as [<-|[<-|Hin]].
    + eapply Qle_trans; [apply qmax_ge_l|apply IH; left; reflexivity].
    + eapply Qle_trans; [apply qmax_ge_r|apply IH; left; reflexivity].
    + apply IH. now right.
Qed.

Lemma fold_qmin_In xs : forall x, In (fold_left qmin xs x) (x :: xs).
Proof.
  induction xs as [|a xs IH]; intros x; simpl; [now left|].
  destruct (IH (qmin x a)) as [H|H]; [|now right; right].
  rewrite <- H. unfold qmin. destruct (Qle_bool x a); [now left|now right; left].
Qed.
Lemma fold_qmax_In xs : forall x, In (fold_left qmax xs x) (x :: xs).
Proof.
  induction xs as [|a xs IH]; intros x; simpl; [now left|].
  destruct (IH (qmax x a)) as [H|H]; [|now right; right].
  rewrite <- H. unfold qmax. destruct (Qle_bool x a); [now right; left|now left].
Qed.

Lemma np_min_spec m lo :
  np_min m = Ok lo -> In lo (concat m) /\ forall v, In v (concat m) -> (lo <= v)%Q.
Proof.
  unfold np_min. destruct (concat m) as [|x xs]; [discriminate|].
  intros [= <-]. split; [apply fold_qmin_In|apply fold_qmin_le].
Qed.
Lemma np_max_spec m hi :
  np_max m = Ok hi -> In hi (concat m) /\ forall v, In v (concat m) -> (v <= hi)%Q.
Proof.
  unfold np_max. destruct (concat m) as [|x xs]; [discriminate|].
  intros [= <-]. split; [apply fold_qmax_In|apply fold_qmax_ge].
Qed.

Lemma in_unit_normalized v lo hi :
  (lo <= v)%Q -> (v <= hi)%Q -> ~ (hi - lo == 0)%Q ->
  in_unit (one_minus (np_div (v - lo) (hi - lo))).
Proof.
  intros Hlo Hhi Hne. unfold np_div.
  destruct (Qeq_bool (hi - lo) 0) eqn:E.
  { apply Qeq_bool_iff in E. contradiction. }
  simpl. assert (0 < hi - lo)%Q by lra.
  assert (0 <= (v - lo) / (hi - lo))%Q by (apply Qle_shift_div_l; lra).
  assert ((v - lo) / (hi - lo) <= 1)%Q by (apply Qle_shift_div_r; lra).
  lra.
Qed.

Lemma suspicion_surface_in_unit m d :
  divisor m = Ok d -> ~ (d == 0)%Q ->
  exists s, suspicion_surface m = Ok s /\ Forall (Forall in_unit) s.
Proof.
  unfold divisor, suspicion_surface, normalize.
  destruct (np_min m) as [lo|] eqn:Hmin; [|discriminate].
  destruct (np_max m) as [hi|] eqn:Hmax; [|discriminate].
  intros [= <-] Hne. eexists; split; [reflexivity|].
  apply np_min_spec in Hmin as [_ Hmin]. apply np_max_spec in Hmax as [_ Hmax].
  unfold invert. rewrite map_map.
  apply List.Forall_forall. intros row Hrow.
  apply List.in_map_iff in Hrow as (row0 & <- & Hrow0).
  rewrite map_map. apply List.Forall_forall. intros x Hx.
  apply List.in_map_iff in Hx as (v & <- & Hv).
  assert (In v (concat m)) by (apply List.in_concat; eauto).
  apply in_unit_normalized; auto.
Qed.

(** C3.  For a raw similarity field that is constant (every value [c], any
    shape with at least one value) the divisor of the normalization,
    maximum minus minimum, is zero, and every value of the suspicion
    surface is the not-a-number left by 0/0, which lies outside [0,1].
    The lemma before this one gives the unit interval whenever the divisor
    is not zero. *)
Theorem suspicion_surface_constant_field :
  forall (c : Q) (h w : nat),
    let field := repeat (repeat c (S w)) (S h) in
    divisor field = Ok (c - c)%Q
    /\ (c - c == 0)%Q
    /\ suspicion_surface field = Ok (repeat (repeat NaN (S w)) (S h))
    /\ ~ in_unit NaN.
Proof.
  intros c h w field. subst field. repeat split.
  - unfold divisor. now rewrite np_min_constant, np_max_constant.
  - ring.
  - unfold suspicion_surface, normalize.
    rewrite np_min_constant, np_max_constant.
    unfold invert. rewrite !map_map_repeat.
    rewrite np_div_zero_zero by ring. reflexivity.
  - simpl. tauto.
Qed.

(** A field whose values all equal [c] has minimum and maximum equal to
    [c], so each normalized value is 0/0. *)
Lemma suspicion_surface_all_equal (c : Q) (m : list (list Q)) :
  concat m <> [] ->
  Forall (Forall (fun v => v == c)%Q) m ->
  suspicion_surface m = Ok (map (map (fun _ => NaN)) m).
Proof.
  intros Hne Hall.
  assert (Hc : forall v, In v (concat m) -> (v == c)%Q).
  { intros v Hv. apply List.in_concat in Hv as (row & Hrow & Hv).
    rewrite List.Forall_forall in Hall. specialize (Hall row Hrow).
    rewrite List.Forall_forall in Hall. auto. }
  unfold suspicion_surface, normalize.
  destruct (np_min m) as [lo|e] eqn:Hmin.
  2:{ unfold np_min in Hmin. destruct (concat m); [contradiction|discriminate]. }
  destruct (np_max m) as [hi|e] eqn:Hmax.
  2:{ unfold np_max in Hmax. destruct (concat m); [contradiction|discriminate]. }
  apply np_min_spec in Hmin as [Hlo _]. apply np_max_spec in Hmax as [Hhi _].
  apply Hc in Hlo, Hhi.
  f_equal. unfold invert. rewrite map_map.
  apply map_ext_in. intros row Hrow. rewrite map_map.
  apply map_ext_in. intros v Hv.
  assert (v == c)%Q by (apply Hc, List.in_concat; eauto).
  rewrite np_div_zero_zero; [reflexivity|lra|lra].
Qed.

Lemma shape_eqb_refl s : shape_eqb s s = true.
Proof. destruct s as [[h w] c]. simpl. now rewrite !Z.eqb_refl. Qed.

(** C4.  When the reference and the candidate are the same image, and the
    similarity routine returns for it a score and a non-empty field whose
    values all equal 1, the mapper returns that score, and every value of
    the suspicion surface before the blur is the not-a-number left by
    0/0: no value is within any distance of zero. *)
Theorem similarity_mapper_identical_images :
  forall (lib : imaging) (img : image) (g : gray) (score : Q)
         (ssim_map : list (list Q)),
    BGR2GRAY lib img = Ok g ->
    structural_similarity lib g g = Ok (score, ssim_map) ->
    concat ssim_map <> [] ->
    Forall (Forall (fun v => v == 1)%Q) ssim_map ->
    Heatmap.similarity_mapper lib img img =
      Ok (score, map (map (fun _ => NaN)) ssim_map, img)
    /\ forall eps : Q, ~ near_zero eps NaN.
Proof.
  intros lib img g score ssim_map Hg Hs Hne Hall. split.
  - unfold Heatmap.similarity_mapper.
    rewrite shape_eqb_refl. simpl. rewrite Hg, Hs.
    now rewrite (suspicion_surface_all_equal 1 ssim_map Hne Hall).
  - intros eps. simpl. tauto.
Qed.

Lemma similarity_mapper_identical_images_witness :
  Heatmap.similarity_mapper Double.lib
    [[(10, 10, 10); (20, 20, 20)]]%Z [[(10, 10, 10); (20, 20, 20)]]%Z =
  Ok (1%Q, [[NaN; NaN]], [[(10, 10, 10); (20, 20, 20)]]%Z).
Proof.
  apply (similarity_mapper_identical_images Double.lib
           [[(10, 10, 10); (20, 20, 20)]]%Z [[10; 20]]%Z 1%Q
           [[20650250000 # 20650250000; 80650250000 # 80650250000]]%Q).
  - reflexivity.
  - vm_compute. reflexivity.
  - discriminate.
  - repeat constructor.
Defined.

(** ** The file system and the heat-map generator *)

(** Writing to a path that can be written creates or replaces the file
    and does not raise. *)
Lemma OS_check_parent_ok w p :
  writable (fs w) p -> OS.check_parent p w = (w, Ok tt).
Proof.
  intros [[Hd|Hd] _]; unfold OS.check_parent.
  - rewrite Hd. reflexivity.
  - destruct (negb (Py.truthy (Path.dirname p))); [reflexivity|].
    unfold bind, lookup_path. now rewrite Hd.
Qed.

Lemma OS_write_ok w p data :
  writable (fs w) p ->
  OS.write p data w =
  ({| fs := <[p := File data]> (fs w); calls := calls w ++ [CWrite p] |}, Ok tt).
Proof.
  intros Hw. unfold OS.write, bind, log.
  rewrite (OS_check_parent_ok _ p) by exact Hw.
  unfold lookup_path, store. simpl.
  destruct Hw as [_ Hnd].
  destruct (fs w !! p) as [[|old]|] eqn:E; simpl; try reflexivity.
  congruence.
Qed.

(** *** What the file-system calls do *)

Lemma logged_logged w cs cs' : logged (logged w cs) cs' = logged w (cs ++ cs').
Proof. unfold logged. simpl. now rewrite <- app_assoc. Qed.

Lemma fs_logged w cs : fs (logged w cs) = fs w.
Proof. reflexivity. Qed.

Lemma OS_exists_spec p w :
  OS.exists_ p w =
  (logged w [CExists p],
   Ok (match fs w !! p with Some _ => true | None => false end)).
Proof. reflexivity. Qed.

Lemma imread_spec lib p w :
  Heatmap.imread lib p w =
  (logged w [CRead p],
   Ok (match fs w !! p with
       | Some (File data) => imdecode lib data
       | _ => None
       end)).
Proof. reflexivity. Qed.

Lemma OS_write_logged w cs p data :
  writable (fs w) p ->
  OS.write p data (logged w cs) =
  ({| fs := <[p := File data]> (fs w);
      calls := calls w ++ cs ++ [CWrite p] |}, Ok tt).
Proof.
  intros Hw. rewrite OS_write_ok by exact Hw. simpl. now rewrite <- app_assoc.
Qed.

Section Heatmap.
Variable lib : imaging.

Lemma generate_ssim_heatmap_missing_reference w reference_path test_path output_path :
  fs w !! reference_path = None ->
  writable (fs w) output_path ->
  OcrService.generate_ssim_heatmap lib reference_path test_path output_path w =
  ({| fs := <[output_path := File (imsave_bytes lib (zeros 200 300))]> (fs w);
      calls := calls w ++ [CExists reference_path; CWrite output_path] |},
   Ok false).
Proof.
  intros Href Hw. unfold OcrService.generate_ssim_heatmap.
  rewrite (bind_ok _ _ _ _ _ (OS_exists_spec _ _)), Href.
  cbv beta iota delta [negb].
  rewrite (bind_ok _ _ _ _ _ (OS_write_logged _ _ _ _ Hw)).
  reflexivity.
Qed.

(** C5.  When the reference template exists but the candidate cannot be
    decoded, the generator returns its failure signal after reading the
    two files and writes nothing: what stands at the output path, if
    anything, is what stood there before.  No placeholder is written on
    this path; the lemma before this one shows the placeholder written
    when the reference template is missing. *)
Theorem generate_ssim_heatmap_undecodable_candidate :
  forall (w : world) (reference_path test_path output_path : string),
    fs w !! reference_path <> None ->
    match fs w !! test_path with
    | Some (File data) => imdecode lib data
    | _ => None
    end = None ->
    OcrService.generate_ssim_heatmap lib reference_path test_path output_path w =
      (logged w [CExists reference_path; CRead reference_path; CRead test_path],
       Ok false)
    /\ fs (logged w [CExists reference_path; CRead reference_path; CRead test_path])
         !! output_path = fs w !! output_path.
Proof.
  intros w reference_path test_path output_path Href Htest.
  split; [|reflexivity].
  unfold OcrService.generate_ssim_heatmap.
  rewrite (bind_ok _ _ _ _ _ (OS_exists_spec _ _)).
  destruct (fs w !! reference_path) as [n|] eqn:E; [|congruence].
  cbv beta iota delta [negb].
  erewrite try_except_ok; [reflexivity|].
  rewrite (bind_ok _ _ _ _ _ (imread_spec _ _ _)). cbv beta.
  rewrite (bind_ok _ _ _ _ _ (imread_spec _ _ _)). cbv beta.
  rewrite !logged_logged, !fs_logged, Htest. simpl app.
  now destruct (match fs w !! reference_path with
                | Some (File data) => imdecode lib data | _ => None end).
Qed.

Lemma generate_ssim_heatmap_outcome w reference_path test_path output_path :
  writable (fs w) output_path ->
  exists w' b,
    OcrService.generate_ssim_heatmap lib reference_path test_path output_path w
      = (w', Ok b)
    /\ (fs w' = fs w \/ exists data, fs w' = <[output_path := File data]> (fs w)).
Proof.
  intros Hw.
  destruct (fs w !! reference_path) as [n|] eqn:Href.
  2:{ rewrite generate_ssim_heatmap_missing_reference by assumption.
      do 2 eexists. split; [reflexivity|]. right. eexists. reflexivity. }
  unfold OcrService.generate_ssim_heatmap.
  rewrite (bind_ok _ _ _ _ _ (OS_exists_spec _ _)), Href.
  cbv beta iota delta [negb].
  match goal with |- context [try_except ?c ?h ?s] =>
    destruct (c s) as [w1 [b|e]] eqn:Hbody end.
  - rewrite (try_except_ok _ _ _ _ _ Hbody).
    do 2 eexists. split; [reflexivity|].
    revert Hbody.
    rewrite (bind_ok _ _ _ _ _ (imread_spec _ _ _)). cbv beta.
    rewrite (bind_ok _ _ _ _ _ (imread_spec _ _ _)). cbv beta.
    rewrite !logged_logged, !fs_logged.
    destruct (match fs w !! reference_path with
              | Some (File data) => imdecode lib data | _ => None end)
      as [reference|];
    destruct (match fs w !! test_path with
              | Some (File data) => imdecode lib data | _ => None end)
      as [test|];
      try (intros [= <- <-]; now left).
    unfold lift at 1. unfold bind at 1.
    destruct (Heatmap.similarity_mapper lib reference test)
      as [[[score inverted] test']|e]; [|discriminate].
    unfold lift at 1. unfold bind at 1.
    destruct (Heatmap.overlay_renderer lib test' inverted) as [shown|e];
      [|discriminate].
    rewrite (bind_ok _ _ _ _ _ (OS_write_logged _ _ _ _ Hw)).
    intros [= <- <-]. right. eexists. reflexivity.
  - rewrite (try_except_raise _ _ _ _ _ Hbody).
    do 2 eexists. split; [reflexivity|].
    revert Hbody.
    rewrite (bind_ok _ _ _ _ _ (imread_spec _ _ _)). cbv beta.
    rewrite (bind_ok _ _ _ _ _ (imread_spec _ _ _)). cbv beta.
    rewrite !logged_logged, !fs_logged.
    destruct (match fs w !! reference_path with
              | Some (File data) => imdecode lib data | _ => None end)
      as [reference|];
    destruct (match fs w !! test_path with
              | Some (File data) => imdecode lib data | _ => None end)
      as [test|];
      try discriminate.
    unfold lift at 1. unfold bind at 1.
    destruct (Heatmap.similarity_mapper lib reference test)
      as [[[score inverted] test']|e'].
    2:{ intros [= <- <-]. now left. }
    unfold lift at 1. unfold bind at 1.
    destruct (Heatmap.overlay_renderer lib test' inverted) as [shown|e'].
    2:{ intros [= <- <-]. now left. }
    rewrite (bind_ok _ _ _ _ _ (OS_write_logged _ _ _ _ Hw)).
    discriminate.
Qed.
End Heatmap.

Lemma generate_ssim_heatmap_undecodable_candidate_witness :
  OcrService.generate_ssim_heatmap Double.lib OcrService.REFERENCE_IMAGE_PATH
    upload_path "static/heatmaps/overlay.png" world_bad_upload =
  (logged world_bad_upload
     [CExists OcrService.REFERENCE_IMAGE_PATH;
      CRead OcrService.REFERENCE_IMAGE_PATH; CRead upload_path],
   Ok false)
  /\ fs (logged world_bad_upload
           [CExists OcrService.REFERENCE_IMAGE_PATH;
            CRead OcrService.REFERENCE_IMAGE_PATH; CRead upload_path])
       !! "static/heatmaps/overlay.png"
     = fs world_bad_upload !! "static/heatmaps/overlay.png".
Proof.
  apply (generate_ssim_heatmap_undecodable_candidate Double.lib world_bad_upload).
  - vm_compute. discriminate.
  - vm_compute. reflexivity.
Defined.

(** When both images decode and a step between the dimension check and
    the inversion raises, the exception is caught and nothing is
    written. *)
Lemma generate_ssim_heatmap_processing_exception
    lib w reference_path test_path output_path ref_data test_data
    reference test e :
  fs w !! reference_path = Some (File ref_data) ->
  fs w !! test_path = Some (File test_data) ->
  imdecode lib ref_data = Some reference ->
  imdecode lib test_data = Some test ->
  Heatmap.similarity_mapper lib reference test = Raise e ->
  OcrService.generate_ssim_heatmap lib reference_path test_path output_path w =
  (logged w [CExists reference_path; CRead reference_path; CRead test_path],
   Ok false).
Proof.
  intros Href Htest Hdr Hdt Hraise.
  unfold OcrService.generate_ssim_heatmap.
  rewrite (bind_ok _ _ _ _ _ (OS_exists_spec _ _)), Href.
  cbv beta iota delta [negb].
  erewrite try_except_raise; [reflexivity|].
  rewrite (bind_ok _ _ _ _ _ (imread_spec _ _ _)). cbv beta.
  rewrite (bind_ok _ _ _ _ _ (imread_spec _ _ _)). cbv beta.
  rewrite !logged_logged, !fs_logged, Href, Htest, Hdr, Hdt.
  unfold lift, bind. rewrite Hraise. reflexivity.
Qed.

(** *** Path names built from an identifier *)

Lemma append_cons c a b : String c a +:+ b = String c (a +:+ b).
Proof. reflexivity. Qed.
Lemma append_nil b : EmptyString +:+ b = b.
Proof. reflexivity. Qed.

Lemma has_sep_app a b : Path.has_sep (a +:+ b) = Path.has_sep a || Path.has_sep b.
Proof.
  induction a as [|c a IH].
  - now rewrite append_nil.
  - rewrite append_cons. simpl. now rewrite IH, orb_assoc.
Qed.

Lemma has_sep_substring s : forall i n,
  Path.has_sep s = false -> Path.has_sep (String.substring i n s) = false.
Proof.
  induction s as [|c s IH]; intros i n Hs.
  - now destruct i, n.
  - simpl in Hs. apply orb_false_elim in Hs as [Hc Hs].
    destruct i, n; simpl; auto.
    rewrite Hc. simpl. now apply IH.
Qed.

Lemma hex_digit_not_sep d : Path.is_sep (Uuid.hex_digit d) = false.
Proof.
  destruct d as [|p]; [reflexivity|].
  do 4 (destruct p as [p|p|]; try reflexivity).
Qed.

Lemma has_sep_hex n : forall v, Path.has_sep (Uuid.hex n v) = false.
Proof.
  induction n as [|n IH]; intros v; simpl; [reflexivity|].
  rewrite has_sep_app, IH. simpl. now rewrite hex_digit_not_sep.
Qed.

Lemma has_sep_uuid u : Path.has_sep (Uuid.to_str u) = false.
Proof.
  unfold Uuid.to_str.
  rewrite !has_sep_app, !has_sep_substring by apply has_sep_hex.
  reflexivity.
Qed.

Lemma join_heatmaps b :
  Path.has_sep b = false ->
  Path.join "static/heatmaps" b = "static/heatmaps" +:+ String "/" b.
Proof.
  intros Hb. destruct b as [|c b]; [reflexivity|].
  simpl in Hb. apply orb_false_elim in Hb as [Hc _].
  unfold Path.join. now rewrite Hc.
Qed.

Lemma cut_last_app_sep a b :
  Path.has_sep b = false ->
  Path.cut_last (a +:+ String "/" b) = (a +:+ "/", b).
Proof.
  intros Hb. induction a as [|c a IH].
  - rewrite !append_nil. simpl. now rewrite Hb.
  - rewrite !append_cons. cbn [Path.cut_last].
    rewrite has_sep_app. cbn [Path.has_sep].
    replace (Path.has_sep a || (Path.is_sep "/" || Path.has_sep b)) with true
      by (now rewrite orb_true_r).
    now rewrite IH.
Qed.

Lemma heatmap_path_of_eq u :
  OcrService.heatmap_path_of u =
  "static/heatmaps" +:+ String "/" (Uuid.to_str u +:+ "_heatmap.png").
Proof.
  unfold OcrService.heatmap_path_of. apply join_heatmaps.
  now rewrite has_sep_app, has_sep_uuid.
Qed.

Lemma dirname_heatmap_path u :
  Path.dirname (OcrService.heatmap_path_of u) = "static/heatmaps".
Proof.
  rewrite heatmap_path_of_eq.
  unfold Path.dirname, Path.split.
  rewrite cut_last_app_sep by (now rewrite has_sep_app, has_sep_uuid).
  reflexivity.
Qed.

Lemma heatmap_path_not_static u :
  OcrService.heatmap_path_of u <> "static"
  /\ OcrService.heatmap_path_of u <> "static/heatmaps".
Proof.
  rewrite heatmap_path_of_eq. split; discriminate.
Qed.

(** ** Cleaning up after a request *)

Lemma world_eta w : {| fs := fs w; calls := calls w |} = w.
Proof. now destruct w. Qed.

Lemma OS_ensure_dir_ok e p w :
  no_file_at (fs w) p ->
  OS.ensure_dir e p w = ({| fs := <[p := Dir]> (fs w); calls := calls w |}, Ok tt).
Proof.
  intros Hnf. unfold OS.ensure_dir, bind, lookup_path, store, ret.
  destruct (fs w !! p) as [[|data]|] eqn:E.
  - rewrite insert_id by exact E. now rewrite world_eta.
  - now destruct (Hnf data).
  - reflexivity.
Qed.

Lemma OS_makedirs_heatmaps w :
  no_file_at (fs w) "static" ->
  no_file_at (fs w) "static/heatmaps" ->
  OS.makedirs "static/heatmaps" w =
  ({| fs := <["static/heatmaps" := Dir]> (<["static" := Dir]> (fs w));
      calls := calls w ++ [CMakedirs "static/heatmaps"] |}, Ok tt).
Proof.
  intros Hs Hh. unfold OS.makedirs.
  change (Path.ancestors "static/heatmaps") with ["static"].
  pose (w0 := logged w [CMakedirs "static/heatmaps"]).
  assert (Hlog : log (CMakedirs "static/heatmaps") w = (w0, Ok tt)) by reflexivity.
  rewrite (bind_ok _ _ _ _ _ Hlog). cbv beta.
  assert (Hs0 : no_file_at (fs w0) "static") by exact Hs.
  assert (Hdirs : OS.ensure_dirs ["static"] w0 =
                  ({| fs := <["static" := Dir]> (fs w0); calls := calls w0 |}, Ok tt)).
  { unfold OS.ensure_dirs.
    now rewrite (bind_ok _ _ _ _ _ (OS_ensure_dir_ok _ _ _ Hs0)). }
  rewrite (bind_ok _ _ _ _ _ Hdirs). cbv beta.
  rewrite OS_ensure_dir_ok; [reflexivity|].
  intros data. cbn [fs]. rewrite lookup_insert_ne by discriminate. apply Hh.
Qed.

Lemma OS_remove_file w p data :
  fs w !! p = Some (File data) ->
  OS.remove p w = ({| fs := delete p (fs w); calls := calls w ++ [CRemove p] |}, Ok tt).
Proof.
  intros H. unfold OS.remove, bind, log, lookup_path, unlink. simpl. now rewrite H.
Qed.

(** The straight-line run of [process_certificate]: once the overlay
    directory is there the generator cannot raise, and the last statement
    removes the upload. *)
Lemma process_certificate_cleanup :
  forall (lib : imaging) (u : N) (file_path data : string) (w : world),
    fs w !! file_path = Some (File data) ->
    no_file_at (fs w) "static" ->
    no_file_at (fs w) "static/heatmaps" ->
    fs w !! OcrService.heatmap_path_of u <> Some Dir ->
    exists w',
      OcrService.process_certificate lib u file_path w =
        (w', Ok (stand_in_record, OcrService.heatmap_path_of u))
      /\ fs w' !! file_path = None.
Proof.
  intros lib u file_path data w Hfile Hs Hh Hout.
  assert (Hne1 : "static" <> file_path).
  { intros <-. now destruct (Hs data). }
  assert (Hne2 : "static/heatmaps" <> file_path).
  { intros <-. now destruct (Hh data). }
  destruct (heatmap_path_not_static u) as [Ho1 Ho2].
  unfold OcrService.process_certificate.
  unfold OcrService.extract_fields at 1. unfold bind at 1, ret at 1. cbv beta iota.
  rewrite (bind_ok _ _ _ _ _ (OS_makedirs_heatmaps _ Hs Hh)). cbv beta zeta.
  set (w1 := {| fs := <["static/heatmaps" := Dir]> (<["static" := Dir]> (fs w));
                calls := calls w ++ [CMakedirs "static/heatmaps"] |}).
  assert (Hw : writable (fs w1) (OcrService.heatmap_path_of u)).
  { split.
    - right. rewrite dirname_heatmap_path. apply lookup_insert_eq.
    - subst w1. cbn [fs].
      rewrite !lookup_insert_ne by (intros E; now symmetry in E). exact Hout. }
  destruct (generate_ssim_heatmap_outcome lib w1 OcrService.REFERENCE_IMAGE_PATH
              file_path (OcrService.heatmap_path_of u) Hw)
    as (w2 & b & Hgen & Hfs).
  rewrite (bind_ok _ _ _ _ _ Hgen). cbv beta.
  assert (Hfile2 : exists d, fs w2 !! file_path = Some (File d)).
  { assert (fs w1 !! file_path = Some (File data)).
    { subst w1. cbn [fs]. now rewrite !lookup_insert_ne. }
    destruct Hfs as [->|[d ->]]; [eauto|].
    destruct (decide (OcrService.heatmap_path_of u = file_path)) as [->|Hne].
    - rewrite lookup_insert_eq. eauto.
    - rewrite lookup_insert_ne by exact Hne. eauto. }
  destruct Hfile2 as [d Hfile2].
  rewrite (bind_ok _ _ _ _ _ (OS_exists_spec _ _)), Hfile2. cbv beta iota.
  erewrite bind_ok.
  2:{ apply (OS_remove_file _ _ d). rewrite fs_logged. exact Hfile2. }
  cbv beta. unfold ret. eexists. split; [reflexivity|].
  cbn [fs]. apply lookup_delete_eq.
Qed.

(** C6.  The upload is not deleted on every exit.  With a regular file
    where the overlay directory is to be, [os.makedirs] raises, the
    exception leaves [process_certificate] before its last block, the one
    that removes the upload, and the upload is still there.  The exits on
    which the generator fails do reach that block
    ([process_certificate_cleanup]). *)
Lemma process_certificate_leaves_upload :
  let '(w', r) :=
    OcrService.process_certificate Double.lib 5 upload_path world_blocked in
  r = Raise FileExistsError
  /\ fs w' !! upload_path = Some (File "IMGac").
Proof. vm_compute. split; reflexivity. Qed.

(** ** The upload route *)

Lemma has_dash_app a b : has_dash (a +:+ b) = has_dash a || has_dash b.
Proof.
  induction a as [|c a IH].
  - now rewrite append_nil.
  - rewrite append_cons. simpl. now rewrite IH, orb_assoc.
Qed.

Lemma has_dash_uuid u : has_dash (Uuid.to_str u) = true.
Proof.
  unfold Uuid.to_str. rewrite !has_dash_app.
  change (has_dash "-") with true. now rewrite !orb_true_r.
Qed.

Lemma upload_name_not_heatmaps u filename :
  "static/" +:+ Uuid.to_str u +:+ "_" +:+ filename <> "static/heatmaps".
Proof.
  intros E.
  assert (H : has_dash ("static/" +:+ Uuid.to_str u +:+ "_" +:+ filename) = true).
  { rewrite !has_dash_app, has_dash_uuid. now rewrite orb_true_r. }
  rewrite E in H. discriminate.
Qed.

Lemma dirname_upload b :
  Path.has_sep b = false -> Path.dirname ("static/" +:+ b) = "static".
Proof.
  intros Hb. change ("static/" +:+ b) with ("static" +:+ String "/" b).
  unfold Path.dirname, Path.split. now rewrite cut_last_app_sep.
Qed.

(** The route: the upload is written under [static], processed, and gone
    when the response is returned. *)
Lemma verify_certificate_removes_upload lib u1 u2 filename content w :
  let file_path := "static/" +:+ Uuid.to_str u1 +:+ "_" +:+ filename in
  Path.has_sep filename = false ->
  fs w !! "static" = Some Dir ->
  fs w !! file_path <> Some Dir ->
  no_file_at (fs w) "static/heatmaps" ->
  fs w !! OcrService.heatmap_path_of u2 <> Some Dir ->
  exists w' resp,
    OcrRoutes.verify_certificate lib u1 u2 filename content w = (w', Ok resp)
    /\ OcrRoutes.extracted_data resp = stand_in_record
    /\ fs w' !! file_path = None.
Proof.
  intros file_path Hname Hstatic Hnd Hh Hout.
  assert (Hw : writable (fs w) file_path).
  { split; [|exact Hnd]. right. subst file_path.
    rewrite dirname_upload; [exact Hstatic|].
    now rewrite !has_sep_app, has_sep_uuid, Hname. }
  assert (Hne1 : file_path <> "static") by (subst file_path; discriminate).
  assert (Hne2 : file_path <> "static/heatmaps")
    by apply upload_name_not_heatmaps.
  unfold OcrRoutes.verify_certificate. fold file_path.
  rewrite (bind_ok _ _ _ _ _ (OS_write_ok _ _ content Hw)). cbv beta.
  set (w1 := {| fs := <[file_path := File content]> (fs w);
                calls := calls w ++ [CWrite file_path] |}).
  destruct (process_certificate_cleanup lib u2 file_path content w1)
    as (w' & Hproc & Hgone).
  - apply lookup_insert_eq.
  - intros data. cbn [fs w1]. rewrite lookup_insert_ne by exact Hne1.
    rewrite Hstatic. discriminate.
  - intros data. cbn [fs w1]. rewrite lookup_insert_ne by exact Hne2. apply Hh.
  - cbn [fs w1].
    destruct (decide (file_path = OcrService.heatmap_path_of u2)) as [<-|Hne].
    + rewrite lookup_insert_eq. discriminate.
    + rewrite lookup_insert_ne by exact Hne. exact Hout.
  - rewrite (bind_ok _ _ _ _ _ Hproc). cbv beta. unfold ret.
    do 2 eexists. split; [reflexivity|]. split; [reflexivity|exact Hgone].
Qed.

(** A request with an upload that is not an image: the response names an
    overlay, the upload is gone, and asking for the overlay fails because
    no file was written under that name. *)
Example overlay_of_undecodable_upload_is_missing :
  let w := {| fs := {[ "static" := Dir;
                       "reference_template.png" := File "IMGab" ]};
              calls := [] |} in
  let '(w1, r) :=
    OcrRoutes.verify_certificate Double.lib 7 5 "certificate.png"
      "not an image" w in
  r = Ok {| OcrRoutes.status := "success";
            OcrRoutes.extracted_data := stand_in_record;
            OcrRoutes.heatmap_url :=
              "/ocr/heatmap/00000000-0000-0000-0000-000000000005_heatmap.png" |}
  /\ fs w1 !! upload_path = None
  /\ snd (OcrRoutes.get_heatmap
            "00000000-0000-0000-0000-000000000005_heatmap.png" w1)
     = Raise RuntimeError.
Proof. vm_compute. repeat split; reflexivity. Qed.

(** ** The tabular log *)

Lemma append_assoc a b c : (a +:+ b) +:+ c = a +:+ (b +:+ c).
Proof.
  induction a as [|x a IH]; [reflexivity|].
  rewrite !append_cons. now rewrite IH.
Qed.

Lemma append_nil_r a : a +:+ EmptyString = a.
Proof.
  induction a as [|x a IH]; [reflexivity|]. rewrite append_cons. now rewrite IH.
Qed.

Lemma concat_nil_cons a l :
  String.concat EmptyString (a :: l) = a +:+ String.concat EmptyString l.
Proof.
  destruct l as [|b l]; simpl; [now rewrite append_nil_r|reflexivity].
Qed.

Lemma dict_to_list_record d :
  is_record d ->
  Final1.dict_to_list (keys blank_record) d = Ok (row_of d).
Proof.
  intros Hd. unfold Final1.dict_to_list. rewrite Hd. reflexivity.
Qed.

Lemma OS_append_file w p old data :
  fs w !! p = Some (File old) ->
  OS.append p data w =
  ({| fs := <[p := File (old +:+ data)]> (fs w); calls := calls w |}, Ok tt).
Proof.
  intros H. unfold OS.append, bind, lookup_path, store. now rewrite H.
Qed.

Lemma writerow_record w p old d :
  is_record d ->
  fs w !! p = Some (File old) ->
  Final1.writerow p (keys blank_record) d w =
  ({| fs := <[p := File (old +:+ Csv.line (row_of d))]> (fs w); calls := calls w |},
   Ok tt).
Proof.
  intros Hd Hp. unfold Final1.writerow.
  unfold lift at 1. unfold bind at 1. rewrite (dict_to_list_record d Hd).
  now apply OS_append_file.
Qed.

Lemma writerows_records data_list : forall w p old,
  Forall is_record data_list ->
  fs w !! p = Some (File old) ->
  Final1.writerows p (keys blank_record) data_list w =
  ({| fs := <[p := File (old +:+ rows_text data_list)]> (fs w); calls := calls w |},
   Ok tt).
Proof.
  induction data_list as [|d ds IH]; intros w p old Hall Hp.
  - unfold rows_text. simpl. rewrite append_nil_r.
    rewrite insert_id by exact Hp. now rewrite world_eta.
  - inversion Hall as [|? ? Hd Hds]; subst.
    cbn [Final1.writerows].
    rewrite (bind_ok _ _ _ _ _ (writerow_record w p old d Hd Hp)).
    rewrite (IH _ p (old +:+ Csv.line (row_of d)) Hds)
      by (cbn [fs]; apply lookup_insert_eq).
    cbn [fs calls]. rewrite insert_insert_eq.
    unfold rows_text. cbn [map]. rewrite concat_nil_cons.
    now rewrite append_assoc.
Qed.

Lemma writeheader_fixed w p old :
  fs w !! p = Some (File old) ->
  Final1.writeheader p (keys blank_record) w =
  ({| fs := <[p := File (old +:+ header_text)]> (fs w); calls := calls w |}, Ok tt).
Proof.
  intros Hp. unfold Final1.writeheader, Final1.writerow.
  unfold lift at 1. unfold bind at 1.
  change (Final1.dict_to_list (keys blank_record)
            (combine (keys blank_record) (keys blank_record)))
    with (Ok (A := list string) (keys blank_record)).
  now apply OS_append_file.
Qed.

Lemma OS_open_append_ok w p :
  writable (fs w) p ->
  OS.open_append p w =
  ({| fs := <[p := File (contents (fs w) p)]> (fs w);
      calls := calls w ++ [CAppend p] |}, Ok tt).
Proof.
  intros Hw. unfold OS.open_append.
  pose (w0 := logged w [CAppend p]).
  assert (Hlog : log (CAppend p) w = (w0, Ok tt)) by reflexivity.
  rewrite (bind_ok _ _ _ _ _ Hlog). cbv beta.
  assert (Hw0 : writable (fs w0) p) by exact Hw.
  rewrite (bind_ok _ _ _ _ _ (OS_check_parent_ok _ _ Hw0)). cbv beta.
  unfold bind, lookup_path, store, ret, contents. cbn [fs w0 logged calls].
  destruct Hw as [_ Hnd].
  destruct (fs w !! p) as [[|old]|] eqn:E.
  - congruence.
  - rewrite insert_id by exact E. reflexivity.
  - reflexivity.
Qed.

(** C8.  For a non-empty list of records and a log path that can be opened
    for appending, [save_to_csv] leaves at that path what the file held
    before, then the header row when nothing existed at the path before the
    call and nothing otherwise, then one row per record in order; it makes
    one existence check and one open and returns normally. *)
Theorem save_to_csv_appends :
  forall (data_list : list dict) (output_filename : string) (w : world),
    data_list <> [] ->
    Forall is_record data_list ->
    writable (fs w) output_filename ->
    Final1.save_to_csv data_list output_filename w =
    ({| fs :=
          <[output_filename :=
              File (contents (fs w) output_filename
                    +:+ (match fs w !! output_filename with
                         | None => header_text
                         | Some _ => EmptyString
                         end)
                    +:+ rows_text data_list)]> (fs w);
        calls := calls w ++ [CExists output_filename; CAppend output_filename] |},
     Ok tt).
Proof.
  intros data_list p w Hne Hall Hw.
  destruct data_list as [|first rest]; [congruence|].
  assert (Hfirst : keys first = keys blank_record).
  { now inversion Hall. }
  unfold Final1.save_to_csv. rewrite Hfirst.
  rewrite (bind_ok _ _ _ _ _ (OS_exists_spec _ _)). cbv beta.
  assert (Hw' : writable (fs (logged w [CExists p])) p) by exact Hw.
  erewrite try_except_ok; [reflexivity|].
  rewrite (bind_ok _ _ _ _ _ (OS_open_append_ok _ _ Hw')). cbv beta.
  rewrite fs_logged.
  set (w1 := {| fs := <[p := File (contents (fs w) p)]> (fs w);
                calls := calls (logged w [CExists p]) ++ [CAppend p] |}).
  assert (H1 : fs w1 !! p = Some (File (contents (fs w) p)))
    by apply lookup_insert_eq.
  destruct (fs w !! p) as [n|] eqn:E; cbv beta iota delta [negb].
  - unfold ret at 1. unfold bind at 1.
    rewrite (writerows_records _ _ _ _ Hall H1).
    subst w1. cbn [fs calls logged]. rewrite insert_insert_eq.
    rewrite append_nil. now rewrite <- app_assoc.
  - rewrite (bind_ok _ _ _ _ _ (writeheader_fixed _ _ _ H1)). cbv beta.
    rewrite (writerows_records _ _ _ (contents (fs w) p +:+ header_text) Hall)
      by (cbn [fs]; apply lookup_insert_eq).
    subst w1. cbn [fs calls logged]. rewrite !insert_insert_eq.
    rewrite append_assoc. now rewrite <- app_assoc.
Qed.

Lemma save_to_csv_appends_witness :
  Final1.save_to_csv [blank_record; stand_in_record] Final1.DEFAULT_OUTPUT
    world_ready =
  ({| fs :=
        <[Final1.DEFAULT_OUTPUT :=
            File (contents (fs world_ready) Final1.DEFAULT_OUTPUT
                  +:+ (match fs world_ready !! Final1.DEFAULT_OUTPUT with
                       | None => header_text
                       | Some _ => EmptyString
                       end)
                  +:+ rows_text [blank_record; stand_in_record])]>
          (fs world_ready);
      calls := calls world_ready
               ++ [CExists Final1.DEFAULT_OUTPUT; CAppend Final1.DEFAULT_OUTPUT] |},
   Ok tt).
Proof.
  apply (save_to_csv_appends [blank_record; stand_in_record]
           Final1.DEFAULT_OUTPUT world_ready).
  - discriminate.
  - repeat constructor.
  - split; [left; reflexivity|]. vm_compute. discriminate.
Defined.

(** ** Exceptions during the extraction *)

Lemma touches_ret {A} key (a : A) : touches key (ret a).
Proof. intros d d' r Hd [= <- <-]. auto. Qed.

Lemma touches_raise {A} key e : touches key (raise (A := A) e).
Proof. intros d d' r Hd [= <- <-]. auto. Qed.

Lemma touches_bind {A B} key (c : SE dict A) (k : A -> SE dict B) :
  touches key c -> (forall a, touches key (k a)) -> touches key (bind c k).
Proof.
  intros Hc Hk d d' r Hd. unfold bind.
  destruct (c d) as [d1 [a|e]] eqn:E.
  - destruct (Hc _ _ _ Hd E) as [Hd1 Hf1]. intros Hka.
    destruct (Hk a _ _ _ Hd1 Hka) as [Hd' Hf']. split; [assumption|].
    intros k0 Hne. now rewrite Hf', Hf1.
  - intros [= <- <-]. exact (Hc _ _ _ Hd E).
Qed.

Lemma touches_set_item key v :
  In key (keys blank_record) -> touches key (set_item key v).
Proof.
  intros Hin d d' r Hd [= <- <-]. split.
  - unfold is_record in *. rewrite keys_dict_set_present; [assumption|].
    now rewrite Hd.
  - intros k Hne. apply dict_get_set_other. congruence.
Qed.

Lemma touches_get_item key k : touches key (get_item k).
Proof.
  intros d d' r Hd. unfold get_item.
  destruct (dict_get k d); intros [= <- <-]; auto.
Qed.

Lemma touches_index key l i : touches key (index l i).
Proof.
  unfold index.
  destruct ((0 <=? _) && _)%Z; [apply touches_ret|apply touches_raise].
Qed.

Lemma touches_for_loop {V} key idxs (body : Z -> V -> SE dict (V * bool)) :
  (forall i v, touches key (body i v)) ->
  forall v, touches key (for_loop idxs body v).
Proof.
  intros Hbody. induction idxs as [|i idxs IH]; intros v; simpl.
  - apply touches_ret.
  - apply touches_bind; [apply Hbody|].
    intros [v' stop]. simpl. destruct stop; [apply touches_ret|apply IH].
Qed.

Lemma touches_enter key fault st : touches key (Extractor.enter fault st).
Proof.
  unfold Extractor.enter. destruct fault as [f|]; [|apply touches_ret].
  destruct (Extractor.stage_eqb f st); [apply touches_raise|apply touches_ret].
Qed.

Lemma touches_university_step tl i :
  touches "University Name" (Extractor.university_step tl i).
Proof.
  unfold Extractor.university_step.
  destruct (negb _); [|apply touches_ret].
  apply touches_bind; [apply touches_index|]. intros first.
  apply touches_bind.
  - apply touches_for_loop. intros j acc.
    apply touches_bind; [apply touches_index|]. intros line.
    destruct (Extractor.is_continuation _); apply touches_ret.
  - intros acc. apply touches_bind; [|intros; apply touches_ret].
    apply touches_set_item. simpl. auto.
Qed.

Lemma touches_holder_step tl i :
  touches "Certificate Holder Name" (Extractor.holder_step tl i).
Proof.
  unfold Extractor.holder_step.
  apply touches_for_loop. intros j [].
  apply touches_bind; [apply touches_index|]. intros line.
  destruct (Extractor.looks_like_name line); [|apply touches_ret].
  apply touches_bind; [|intros; apply touches_ret].
  apply touches_set_item. simpl. auto.
Qed.

Lemma touches_labelled_step key p all_text :
  In key (keys blank_record) ->
  touches key (Extractor.labelled_step key p all_text).
Proof.
  intros Hin. unfold Extractor.labelled_step.
  destruct (Re.search _ _ _); [now apply touches_set_item|apply touches_ret].
Qed.

Lemma touches_course_step all_text :
  touches "Course" (Extractor.course_step all_text).
Proof.
  unfold Extractor.course_step.
  destruct (Re.search _ _ _); [|apply touches_ret].
  apply touches_set_item. simpl. auto 10.
Qed.

Lemma touches_course_fallback_step fault all_text :
  touches "Course" (Extractor.course_fallback_step fault all_text).
Proof.
  unfold Extractor.course_fallback_step.
  apply touches_bind; [apply touches_get_item|]. intros current.
  destruct (String.eqb current SENTINEL); [|apply touches_ret].
  apply touches_bind; [apply touches_enter|]. intros _.
  apply touches_labelled_step. simpl. auto 10.
Qed.

Lemma is_record_blank : is_record blank_record.
Proof. reflexivity. Qed.

Lemma labelled_step_ok key p all_text d :
  exists d', Extractor.labelled_step key p all_text d = (d', Ok tt).
Proof.
  unfold Extractor.labelled_step.
  destruct (Re.search _ _ _); eexists; reflexivity.
Qed.

Lemma course_step_ok all_text d :
  exists d', Extractor.course_step all_text d = (d', Ok tt).
Proof.
  unfold Extractor.course_step.
  destruct (Re.search _ _ _); eexists; reflexivity.
Qed.

Lemma is_record_has_course d : is_record d -> exists v, dict_get "Course" d = Some v.
Proof.
  unfold is_record, keys. intros H.
  destruct d as [|[k1 v1] [|[k2 v2] [|[k3 v3] d]]]; try discriminate.
  simpl in H. injection H as -> -> -> _. simpl. eauto.
Qed.

(** The fallback under a fault: it raises only when the fault is at the
    fallback and the course is still the sentinel, and otherwise does what
    the undisturbed fallback does. *)
Lemma course_fallback_step_fault f all_text d :
  is_record d ->
  match Extractor.course_fallback_step (Some f) all_text d with
  | (d', Ok _) =>
      Extractor.course_fallback_step None all_text d = (d', Ok tt)
  | (d', Raise _) =>
      d' = d /\ dict_get "Course" d = Some SENTINEL /\ f = Extractor.CourseFallback
  end.
Proof.
  intros Hd. destruct (is_record_has_course d Hd) as [v Hv].
  unfold Extractor.course_fallback_step, get_item, bind. rewrite Hv.
  destruct (String.eqb v SENTINEL) eqn:E; [|reflexivity].
  apply String.eqb_eq in E. subst v.
  destruct f; cbn [Extractor.enter Extractor.stage_eqb Extractor.stage_index Nat.eqb];
    unfold ret, raise;
    try (destruct (labelled_step_ok "Course" Patterns.course_fallback all_text d)
           as [d' ->]; reflexivity).
  auto.
Qed.

Ltac frames :=
  repeat match goal with
         | H : forall k, k <> _ -> dict_get k _ = dict_get k _ |- _ =>
             rewrite H by discriminate
         end.

(** C9.  Let an exception be raised while step [f] of the extraction is
    being carried out.  The extractor returns normally the record as the
    steps before left it.  Compared with the undisturbed run on the same
    spans: when the exception did occur, each field settled by a step
    before [f] has the value of the undisturbed run and every other field is
    the sentinel; when it did not (the fallback for the course was not
    needed), the record is that of the undisturbed run. *)
Theorem extract_fields_partial_on_exception :
  forall (results : list span) (f : Extractor.stage),
    let '(d, r) := Extractor.extract_body (Some f) results blank_record in
    Extractor.extract_from_results (Some f) results = Ok d
    /\ exists dn,
         Extractor.extract_from_results None results = Ok dn
         /\ match r with
            | Ok _ => d = dn
            | Raise _ =>
                Forall (fun ks =>
                          dict_get (fst ks) d =
                          if (Extractor.stage_index (snd ks)
                              <? Extractor.stage_index f)%nat
                          then dict_get (fst ks) dn
                          else Some SENTINEL)
                       field_stages
            end.
Proof.
  intros results f.
  unfold Extractor.extract_from_results, Extractor.extract_body.
  set (tl := Extractor.stripped_texts results).
  set (txt := Py.join " " tl).
  pose proof is_record_blank as R0.
  destruct f;
    cbn [Extractor.enter Extractor.stage_eqb Extractor.stage_index Nat.eqb];
    unfold try_except, bind, ret, raise, get_state; cbn [fst snd];
    repeat first
      [ match goal with
        | Hr : is_record ?d |- context [Extractor.university_step ?a ?b ?d] =>
            let E := fresh "E" in
            destruct (Extractor.university_step a b d) as [? [?|?]] eqn:E;
            destruct (touches_university_step a b d _ _ Hr E); cbn [fst snd]
        end
      | match goal with
        | Hr : is_record ?d |- context [Extractor.holder_step ?a ?b ?d] =>
            let E := fresh "E" in
            destruct (Extractor.holder_step a b d) as [? [?|?]] eqn:E;
            destruct (touches_holder_step a b d _ _ Hr E); cbn [fst snd]
        end
      | match goal with
        | Hr : is_record ?d |- context [Extractor.labelled_step ?k ?p ?t ?d] =>
            let E := fresh "E" in
            destruct (labelled_step_ok k p t d) as [? E];
            rewrite ?E;
            destruct (touches_labelled_step k p t ltac:(simpl; auto 10) d _ _ Hr E);
            cbn [fst snd]
        end
      | match goal with
        | Hr : is_record ?d |- context [Extractor.course_step ?t ?d] =>
            let E := fresh "E" in
            destruct (course_step_ok t d) as [? E];
            rewrite ?E;
            destruct (touches_course_step t d _ _ Hr E); cbn [fst snd]
        end
      | match goal with
        | Hr : is_record ?d
          |- context [Extractor.course_fallback_step (Some ?f) ?t ?d] =>
            let E := fresh "E" in
            pose proof (course_fallback_step_fault f t d Hr) as E;
            destruct (Extractor.course_fallback_step (Some f) t d) as [? [?|?]];
            [ rewrite ?E | destruct E as (-> & ? & _) ]; cbn [fst snd]
        end
      | match goal with
        | Hr : is_record ?d
          |- context [Extractor.course_fallback_step None ?t ?d] =>
            let E := fresh "E" in
            destruct (Extractor.course_fallback_step None t d) as [? [?|?]] eqn:E;
            destruct (touches_course_fallback_step None t d _ _ Hr E);
            cbn [fst snd]
        end ];
    (split; [reflexivity|]); eexists; (split; [reflexivity|]);
    try reflexivity;
    repeat constructor; cbn [fst snd Extractor.stage_index Nat.ltb Nat.leb];
    frames; try reflexivity; try assumption.
Qed.

(** On the scenario, an exception at the grade step leaves the four
    fields settled before it and the sentinel in the other two. *)
Example scenario_interrupted_at_grade :
  Extractor.extract_body (Some Extractor.Grade) scenario blank_record =
    ([ ("University Name", "XYZ University of Technology");
       ("Certificate Holder Name", "presents this certificate to");
       ("Course", "N/A");
       ("Grade", "N/A");
       ("Roll No", "12345");
       ("Certificate ID", "CERT-99") ], Raise MemoryError)
  /\ Extractor.extract_from_results (Some Extractor.Grade) scenario =
     Ok [ ("University Name", "XYZ University of Technology");
          ("Certificate Holder Name", "presents this certificate to");
          ("Course", "N/A");
          ("Grade", "N/A");
          ("Roll No", "12345");
          ("Certificate ID", "CERT-99") ].
Proof. split; vm_compute; reflexivity. Qed.

(** Every step keeps the six keys, so what the extractor returns is a
    record of the schema, whatever the spans and wherever an exception
    strikes. *)
Lemma touches_keeps_record {A} key (c : SE dict A) d d' r :
  touches key c -> is_record d -> c d = (d', r) -> is_record d'.
Proof. intros Hc Hd E. exact (proj1 (Hc d d' r Hd E)). Qed.

Lemma extract_body_keeps_record fault results d d' r :
  is_record d ->
  Extractor.extract_body fault results d = (d', r) ->
  is_record d'.
Proof.
  unfold Extractor.extract_body.
  set (tl := Extractor.stripped_texts results).
  set (txt := Py.join " " tl).
  revert d d' r.
  assert (step : forall {A B} (c : SE dict A) (k : A -> SE dict B) key,
             touches key c ->
             (forall a d d' r, is_record d -> k a d = (d', r) -> is_record d') ->
             forall d d' r, is_record d -> bind c k d = (d', r) -> is_record d').
  { intros A B c k key Hc Hk d d' r Hd. unfold bind.
    destruct (c d) as [d1 [a|e]] eqn:E.
    - apply Hk. exact (touches_keeps_record key c d d1 _ Hc Hd E).
    - intros [= <- <-]. exact (touches_keeps_record key c d d1 _ Hc Hd E). }
  eapply step; [apply (touches_enter "Course")|intros _].
  eapply step; [apply (touches_enter "Course")|intros _].
  eapply step; [apply touches_university_step|intros uni_end_idx].
  eapply step; [apply (touches_enter "Course")|intros _].
  eapply step; [apply touches_holder_step|intros _].
  eapply step; [apply (touches_enter "Course")|intros _].
  eapply step; [apply touches_labelled_step; simpl; auto 10|intros _].
  eapply step; [apply (touches_enter "Course")|intros _].
  eapply step; [apply touches_labelled_step; simpl; auto 10|intros _].
  eapply step; [apply (touches_enter "Course")|intros _].
  eapply step; [apply touches_labelled_step; simpl; auto 10|intros _].
  eapply step; [apply (touches_enter "Course")|intros _].
  eapply step; [apply touches_course_step|intros _].
  intros d d' r Hd E.
  exact (touches_keeps_record _ _ _ _ _ (touches_course_fallback_step fault txt) Hd E).
Qed.

Lemma extract_from_results_is_record fault results :
  exists d, Extractor.extract_from_results fault results = Ok d /\ is_record d.
Proof.
  unfold Extractor.extract_from_results, try_except, bind, ret, get_state.
  destruct (Extractor.extract_body fault results blank_record) as [d [[]|e]] eqn:E;
    cbn [snd]; eexists; (split; [reflexivity|]);
    exact (extract_body_keeps_record _ _ _ _ _ is_record_blank E).
Qed.

(** ** The scan for the university name *)

Lemma first_keyword_line_spec (lines : list string) (a : nat) :
  Extractor.first_keyword_line (Z.of_nat a) lines (-1) =
  match first_index has_keyword lines with
  | Some i => Z.of_nat (a + i)
  | None => (-1)%Z
  end.
Proof.
  revert a. induction lines as [|line lines IH]; intros a; [reflexivity|].
  cbn [Extractor.first_keyword_line first_index].
  fold (has_keyword line). destruct (has_keyword line).
  - now rewrite Nat.add_0_r.
  - replace (Z.of_nat a + 1)%Z with (Z.of_nat (S a)) by lia.
    rewrite IH. destruct (first_index has_keyword lines); simpl; [|reflexivity].
    f_equal. lia.
Qed.

Lemma first_index_lt {A} (p : A -> bool) l i :
  first_index p l = Some i -> (i < length l)%nat.
Proof.
  revert i. induction l as [|x l IH]; intros i; simpl; [discriminate|].
  destruct (p x); [intros [= <-]; lia|].
  destruct (first_index p l) as [j|]; [|discriminate].
  intros [= <-]. specialize (IH j eq_refl). lia.
Qed.

Lemma continuation_loop (text_lines : list string) (n a : nat)
    (parts : list string) (d : dict) :
  (a + n <= length text_lines)%nat ->
  for_loop (map Z.of_nat (seq a n))
    (fun i (acc : list string * Z) =>
       line <- index text_lines i ;;
       let next_line := Py.strip line in
       if Extractor.is_continuation next_line
       then ret ((fst acc ++ [next_line], (i + 1)%Z), false)
       else ret (acc, true))
    (parts, Z.of_nat a) d =
  (d, Ok (parts ++ leading Extractor.is_continuation
                     (map Py.strip (firstn n (skipn a text_lines))),
          Z.of_nat (a + length (leading Extractor.is_continuation
                                  (map Py.strip (firstn n (skipn a text_lines))))))).
Proof.
  revert a parts. induction n as [|n IH]; intros a parts Hlen.
  - cbn. now rewrite app_nil_r, Nat.add_0_r.
  - cbn [seq map for_loop].
    assert (Hi : (a < length text_lines)%nat) by lia.
    rewrite (skipn_nth_cons text_lines a EmptyString Hi).
    cbn [firstn map leading].
    unfold bind at 1. unfold bind at 1.
    rewrite (index_in_range text_lines a d Hi).
    destruct (Extractor.is_continuation (Py.strip (nth a text_lines EmptyString))).
    + unfold ret at 1. cbn [fst snd].
      replace (Z.of_nat a + 1)%Z with (Z.of_nat (S a)) by lia.
      rewrite IH by lia. rewrite <- app_assoc. cbn [app length].
      do 3 f_equal. lia.
    + unfold ret. cbn [fst snd length]. now rewrite app_nil_r, Nat.add_0_r.
Qed.

Lemma university_step_spec :
  forall (text_lines : list string) (uni_end_idx : Z) (d : dict),
    Extractor.university_step text_lines uni_end_idx d =
    match first_index has_keyword text_lines with
    | None => (d, Ok uni_end_idx)
    | Some i =>
        let more :=
          leading Extractor.is_continuation
            (map Py.strip (firstn 2 (skipn (S i) text_lines))) in
        (dict_set "University Name"
           (Py.strip (Py.join " " (nth i text_lines EmptyString :: more))) d,
         Ok (Z.of_nat (S i + length more)))
    end.
Proof.
  intros text_lines uni_end_idx d. unfold Extractor.university_step.
  pose proof (first_keyword_line_spec text_lines 0) as Hk.
  change (Z.of_nat 0) with 0%Z in Hk. cbn [Nat.add] in Hk.
  destruct (first_index has_keyword text_lines) as [i|] eqn:Hi;
    rewrite !Hk; [|reflexivity].
  apply first_index_lt in Hi.
  replace (negb (Z.of_nat i =? -1)%Z) with true by lia.
  unfold bind at 1. rewrite (index_in_range text_lines i d Hi).
  set (n := Nat.min 2 (length text_lines - S i)).
  replace (Z.of_nat i + 1)%Z with (Z.of_nat (S i)) by lia.
  replace (Z.min (Z.of_nat i + 3) (len text_lines))
    with (Z.of_nat (S i + n)) by (unfold len; lia).
  rewrite range_nat.
  unfold bind at 1.
  rewrite (continuation_loop text_lines n (S i)) by lia.
  replace (firstn n (skipn (S i) text_lines))
    with (firstn 2 (skipn (S i) text_lines)).
  2:{ subst n. rewrite <- (List.firstn_all (skipn (S i) text_lines)) at 1.
      rewrite List.firstn_firstn, List.length_skipn. reflexivity. }
  reflexivity.
Qed.

(** ** What a match of a labelled pattern has captured *)

Section Inversion.
Variable fl : Re.flags.
Context {A : Type}.

Lemma star_calls (p : ascii -> bool) (s : string) (k : string -> option A) a :
  Re.star fl p s k = Some a ->
  exists pre s', s = pre +:+ s' /\ k s' = Some a
                 /\ Forall (fun c => Re.in_class fl p c = true)
                           (list_ascii_of_string pre).
Proof.
  revert a. induction s as [|c s IH]; intros a; cbn [Re.star].
  - intros H. exists EmptyString, EmptyString. repeat split; auto; try constructor.
  - destruct (Re.in_class fl p c) eqn:Hc.
    + destruct (Re.star fl p s k) as [a'|] eqn:Hs.
      * intros [= <-]. destruct (IH a' eq_refl) as (pre & s' & -> & Hk & Hall).
        exists (String c pre), s'. repeat split; auto.
        cbn. constructor; assumption.
      * intros H. exists EmptyString, (String c s). repeat split; auto; try constructor.
    + intros H. exists EmptyString, (String c s). repeat split; auto; try constructor.
Qed.

Lemma star_lazy_calls (p : ascii -> bool) (s : string) (k : string -> option A) a :
  Re.star_lazy fl p s k = Some a -> exists s', k s' = Some a.
Proof.
  revert a. induction s as [|c s IH]; intros a; cbn [Re.star_lazy].
  - destruct (k EmptyString) eqn:E; [intros [= <-]; eauto|discriminate].
  - destruct (k (String c s)) eqn:E; [intros [= <-]; eauto|].
    destruct (Re.in_class fl p c); [apply IH|discriminate].
Qed.

(** A match that succeeds has called its continuation. *)
Lemma matchk_calls (r : Re.regex) :
  forall s caps (k : Re.cont (A := A)) a,
    Re.matchk fl r s caps k = Some a -> exists s' caps', k s' caps' = Some a.
Proof.
  induction r as [l|p|r1 IH1 r2 IH2|r1 IH1 r2 IH2|p|p|p|n r IH];
    intros s caps k a; cbn [Re.matchk].
  - destruct (Re.lit fl l s); [eauto|discriminate].
  - destruct s as [|c s]; [discriminate|].
    destruct (Re.in_class fl p c); [eauto|discriminate].
  - intros H. apply IH1 in H as (s1 & caps1 & H). apply IH2 in H. exact H.
  - destruct (Re.matchk fl r1 s caps k) eqn:E.
    + intros [= <-]. eapply IH1. exact E.
    + apply IH2.
  - intros H. apply star_calls in H as (pre & s' & _ & H & _). eauto.
  - destruct s as [|c s]; [discriminate|].
    destruct (Re.in_class fl p c); [|discriminate].
    intros H. apply star_calls in H as (pre & s' & _ & H & _). eauto.
  - intros H. apply star_lazy_calls in H as (s' & H). eauto.
  - intros H. apply IH in H as (s' & caps' & H). eauto.
Qed.
End Inversion.

Lemma search_is_match fl r s m :
  Re.search fl r s = Some m -> exists s0, Re.match_here fl r s0 = Some m.
Proof.
  induction s as [|c s IH]; cbn [Re.search].
  - destruct (Re.match_here fl r EmptyString) eqn:E; [intros [= <-]; eauto|discriminate].
  - destruct (Re.match_here fl r (String c s)) eqn:E; [intros [= <-]; eauto|].
    exact IH.
Qed.

Lemma length_append a b : String.length (a +:+ b) = (String.length a + String.length b)%nat.
Proof.
  induction a as [|c a IH]; [reflexivity|].
  rewrite append_cons. cbn [String.length]. now rewrite IH.
Qed.

Lemma substring_prefix a b : String.substring 0 (String.length a) (a +:+ b) = a.
Proof.
  induction a as [|c a IH].
  - rewrite append_nil. now destruct b.
  - rewrite append_cons. cbn [String.length String.substring]. now rewrite IH.
Qed.

Lemma consumed_prefix a b : Re.consumed (a +:+ b) b = a.
Proof.
  unfold Re.consumed. rewrite length_append.
  replace (String.length a + String.length b - String.length b)%nat
    with (String.length a) by lia.
  apply substring_prefix.
Qed.

(** Under the flags of the program a character of the class [\S] is not
    whitespace. *)
Lemma in_class_non_ws c :
  Re.in_class Patterns.ic Re.non_ws c = true -> Py.isspace c = false.
Proof.
  destruct c as [[] [] [] [] [] [] [] []]; vm_compute; congruence.
Qed.

Lemma no_space_of_class pre :
  Forall (fun c => Re.in_class Patterns.ic Re.non_ws c = true)
         (list_ascii_of_string pre) ->
  no_space pre = true.
Proof.
  induction pre as [|c pre IH]; cbn; [reflexivity|].
  intros H. inversion H as [|? ? Hc Hrest]; subst.
  rewrite (in_class_non_ws c Hc). cbn. auto.
Qed.

Lemma lstrip_no_space s : no_space s = true -> Py.lstrip s = s.
Proof.
  destruct s as [|c s]; [reflexivity|]. cbn.
  destruct (Py.isspace c); [discriminate|reflexivity].
Qed.

Lemma rstrip_no_space s : no_space s = true -> Py.rstrip s = s.
Proof.
  induction s as [|c s IH]; [reflexivity|]. cbn.
  destruct (Py.isspace c) eqn:Hc; [discriminate|]. cbn. intros Hs.
  rewrite (IH Hs). now destruct s.
Qed.

Lemma strip_no_space s : no_space s = true -> Py.strip s = s.
Proof.
  intros H. unfold Py.strip. rewrite lstrip_no_space by exact H.
  now apply rstrip_no_space.
Qed.

(** The first group of a match of a pattern that ends in [(\S+)]. *)
Lemma ends_in_token_group r0 s m :
  Re.match_here Patterns.ic
    (Re.Seq r0 (Re.Seq (Re.Star Re.ws)
       (Re.Seq (Re.Star Patterns.colon_ws) (Re.Group 1 (Re.Plus Re.non_ws))))) s
    = Some m ->
  Re.group 1 (Re.groups m) <> EmptyString
  /\ no_space (Re.group 1 (Re.groups m)) = true.
Proof.
  unfold Re.match_here. cbn [Re.matchk]. intros H.
  apply matchk_calls in H as (s1 & caps1 & H).
  apply star_calls in H as (_ & s2 & _ & H & _).
  apply star_calls in H as (_ & s3 & _ & H & _).
  destruct s3 as [|c s3]; [discriminate|].
  destruct (Re.in_class Patterns.ic Re.non_ws c) eqn:Hc; [|discriminate].
  apply star_calls in H as (pre & s4 & -> & H & Hall).
  injection H as <-. cbn [Re.groups Re.group Nat.eqb].
  rewrite <- append_cons, consumed_prefix. split; [discriminate|].
  cbn [no_space]. rewrite (in_class_non_ws c Hc). cbn.
  now apply no_space_of_class.
Qed.

(** The first group of a match of a pattern that ends in [(\S)]. *)
Lemma ends_in_char_group r0 s m :
  Re.match_here Patterns.ic
    (Re.Seq r0 (Re.Seq (Re.Star Re.ws) (Re.Group 1 (Re.Cls Re.non_ws)))) s
    = Some m ->
  exists c, Py.isspace c = false
            /\ Re.group 1 (Re.groups m) = String c EmptyString.
Proof.
  unfold Re.match_here. cbn [Re.matchk]. intros H.
  apply matchk_calls in H as (s1 & caps1 & H).
  apply star_calls in H as (_ & s2 & _ & H & _).
  destruct s2 as [|c s2]; [discriminate|].
  destruct (Re.in_class Patterns.ic Re.non_ws c) eqn:Hc; [|discriminate].
  injection H as <-. cbn [Re.groups Re.group Nat.eqb].
  exists c. split; [now apply in_class_non_ws|].
  change (String c s2) with (String c EmptyString +:+ s2).
  apply consumed_prefix.
Qed.

(** ** Invariants of the labelled fields *)

Lemma keeps_bind {A B} key Q (c : SE dict A) (k : A -> SE dict B) :
  keeps key Q c -> (forall a, keeps key Q (k a)) -> keeps key Q (bind c k).
Proof.
  intros Hc Hk d d' r Hd HQ. unfold bind.
  destruct (c d) as [d1 [a|e]] eqn:E.
  - destruct (Hc _ _ _ Hd HQ E) as [Hd1 HQ1]. now apply Hk.
  - intros [= <- <-]. exact (Hc _ _ _ Hd HQ E).
Qed.

Lemma keeps_of_touches {A} key key' Q (c : SE dict A) :
  touches key' c -> key <> key' -> keeps key Q c.
Proof.
  intros Hc Hne d d' r Hd HQ E. destruct (Hc _ _ _ Hd E) as [Hd' Hf].
  split; [assumption|]. now rewrite Hf.
Qed.

Lemma keeps_labelled_step key Q p all_text :
  In key (keys blank_record) ->
  (forall m, Re.search Patterns.ic (Patterns.ast p) all_text = Some m ->
             Q (Some (Py.strip (Re.group 1 (Re.groups m))))) ->
  keeps key Q (Extractor.labelled_step key p all_text).
Proof.
  intros Hin Hm d d' r Hd HQ. unfold Extractor.labelled_step.
  destruct (Re.search _ _ _) as [m|] eqn:E.
  - intros [= <- <-]. split.
    + unfold is_record in *. rewrite keys_dict_set_present; [assumption|].
      now rewrite Hd.
    + rewrite dict_get_set_same. now apply Hm.
  - intros [= <- <-]. auto.
Qed.

(** What holds of a labelled field at the start, and of the stripped first
    group of any match of its pattern in the joined text, holds of the
    field in the record the extractor returns. *)
Lemma labelled_field_invariant key p (Q : option string -> Prop) fault results d :
  In (key, p) [ ("Roll No", Patterns.roll);
                ("Certificate ID", Patterns.cert_id);
                ("Grade", Patterns.grade) ] ->
  Q (Some SENTINEL) ->
  (forall m,
      Re.search Patterns.ic (Patterns.ast p)
        (Py.join " " (Extractor.stripped_texts results)) = Some m ->
      Q (Some (Py.strip (Re.group 1 (Re.groups m))))) ->
  Extractor.extract_from_results fault results = Ok d ->
  Q (dict_get key d).
Proof.
  intros Hin Hs Hm.
  assert (Hbody : keeps key Q (Extractor.extract_body fault results)).
  { unfold Extractor.extract_body.
    set (tl := Extractor.stripped_texts results).
    set (txt := Py.join " " tl).
    assert (Henter : forall st, keeps key Q (Extractor.enter fault st)).
    { intros st d0 d' r Hd HQ. unfold Extractor.enter.
      destruct fault as [f|]; [destruct (Extractor.stage_eqb f st)|];
        intros [= <- <-]; auto. }
    assert (Hother : forall k' p', k' <> key -> In k' (keys blank_record) ->
              keeps key Q (Extractor.labelled_step k' p' txt)).
    { intros k' p' Hne Hk'. eapply keeps_of_touches;
        [now apply touches_labelled_step|congruence]. }
    assert (Hkey : keeps key Q (Extractor.labelled_step key p txt)).
    { apply keeps_labelled_step; [|exact Hm].
      destruct Hin as [[= <- <-]|[[= <- <-]|[[= <- <-]|[]]]]; simpl; auto 10. }
    assert (Hne : key <> "University Name" /\ key <> "Certificate Holder Name"
                  /\ key <> "Course").
    { destruct Hin as [[= <- <-]|[[= <- <-]|[[= <- <-]|[]]]];
        repeat split; discriminate. }
    destruct Hne as (Hn1 & Hn2 & Hn3).
    apply keeps_bind; [apply Henter|intros _].
    apply keeps_bind; [apply Henter|intros _].
    apply keeps_bind;
      [eapply keeps_of_touches; [apply touches_university_step|exact Hn1]|intros u].
    apply keeps_bind; [apply Henter|intros _].
    apply keeps_bind;
      [eapply keeps_of_touches; [apply touches_holder_step|exact Hn2]|intros _].
    apply keeps_bind; [apply Henter|intros _].
    apply keeps_bind.
    { destruct Hin as [[= <- <-]|[[= <- <-]|[[= <- <-]|[]]]];
        first [exact Hkey | apply Hother; [discriminate|simpl; auto 10]]. }
    intros _.
    apply keeps_bind; [apply Henter|intros _].
    apply keeps_bind.
    { destruct Hin as [[= <- <-]|[[= <- <-]|[[= <- <-]|[]]]];
        first [exact Hkey | apply Hother; [discriminate|simpl; auto 10]]. }
    intros _.
    apply keeps_bind; [apply Henter|intros _].
    apply keeps_bind.
    { destruct Hin as [[= <- <-]|[[= <- <-]|[[= <- <-]|[]]]];
        first [exact Hkey | apply Hother; [discriminate|simpl; auto 10]]. }
    intros _.
    apply keeps_bind; [apply Henter|intros _].
    apply keeps_bind;
      [eapply keeps_of_touches; [apply touches_course_step|exact Hn3]|intros _].
    eapply keeps_of_touches; [apply touches_course_fallback_step|exact Hn3]. }
  unfold Extractor.extract_from_results, try_except, bind, ret, get_state.
  assert (H0 : Q (dict_get key blank_record)).
  { destruct Hin as [[= <- <-]|[[= <- <-]|[[= <- <-]|[]]]]; exact Hs. }
  destruct (Extractor.extract_body fault results blank_record) as [d1 [[]|e]] eqn:E;
    cbn [snd]; intros [= <-];
    exact (proj2 (Hbody _ _ _ is_record_blank H0 E)).
Qed.

(** X1. Whatever the spans, and wherever an exception strikes inside the
    try block, the roll number and the certificate identifier of the
    record that comes back are never empty and contain no whitespace
    character. *)
Theorem roll_and_certificate_id_are_tokens :
  forall (fault : option Extractor.stage) (results : list span),
    exists d,
      Extractor.extract_from_results fault results = Ok d
      /\ Forall (fun key => exists v, dict_get key d = Some v
                                      /\ v <> EmptyString /\ no_space v = true)
                ["Roll No"; "Certificate ID"].
Proof.
  intros fault results.
  destruct (extract_from_results_is_record fault results) as (d & H & _).
  exists d. split; [exact H|].
  assert (Hs : exists v, Some SENTINEL = Some v /\ v <> EmptyString
                         /\ no_space v = true).
  { exists SENTINEL. repeat split. discriminate. }
  assert (Hm : forall p m txt,
             In p [Patterns.roll; Patterns.cert_id] ->
             Re.search Patterns.ic (Patterns.ast p) txt = Some m ->
             exists v, Some (Py.strip (Re.group 1 (Re.groups m))) = Some v
                       /\ v <> EmptyString /\ no_space v = true).
  { intros p m txt Hp Hsearch.
    apply search_is_match in Hsearch as [s0 Hhere].
    assert (Hg : Re.group 1 (Re.groups m) <> EmptyString
                 /\ no_space (Re.group 1 (Re.groups m)) = true).
    { destruct Hp as [<-|[<-|[]]]; eapply ends_in_token_group; exact Hhere. }
    destruct Hg as [Hne Hns]. rewrite (strip_no_space _ Hns). eauto. }
  repeat constructor.
  - eapply (labelled_field_invariant "Roll No" Patterns.roll); eauto.
    + simpl; auto.
    + intros m Hsearch. eapply Hm; [|exact Hsearch]. simpl; auto.
  - eapply (labelled_field_invariant "Certificate ID" Patterns.cert_id); eauto.
    + simpl; auto.
    + intros m Hsearch. eapply Hm; [|exact Hsearch]. simpl; auto.
Qed.

(** X2. Whatever the spans, and wherever an exception strikes inside the
    try block, the grade of the record that comes back is the sentinel or
    one single character that is not whitespace: a grade of several
    characters is cut to its first one. *)
Theorem grade_is_one_character :
  forall (fault : option Extractor.stage) (results : list span),
    exists d,
      Extractor.extract_from_results fault results = Ok d
      /\ (dict_get "Grade" d = Some SENTINEL
          \/ exists c, Py.isspace c = false
                       /\ dict_get "Grade" d = Some (String c EmptyString)).
Proof.
  intros fault results.
  destruct (extract_from_results_is_record fault results) as (d & H & _).
  exists d. split; [exact H|].
  eapply (labelled_field_invariant "Grade" Patterns.grade
            (fun o => o = Some SENTINEL
                      \/ exists c, Py.isspace c = false
                                   /\ o = Some (String c EmptyString)));
    [simpl; auto| now left | | exact H].
  intros m Hsearch. right.
  apply search_is_match in Hsearch as [s0 Hhere].
  apply ends_in_char_group in Hhere as (c & Hc & ->).
  exists c. split; [assumption|].
  rewrite strip_no_space; [reflexivity|]. cbn. now rewrite Hc.
Qed.

(** ** The extractor, statement by statement *)

Lemma holder_step_ok tl (start : nat) d :
  exists d', Extractor.holder_step tl (Z.of_nat start) d = (d', Ok tt).
Proof.
  rewrite holder_step_first_match. destruct (List.find _ _); eauto.
Qed.

Lemma course_fallback_step_ok txt d :
  is_record d ->
  exists d', Extractor.course_fallback_step None txt d = (d', Ok tt).
Proof.
  intros Hd. destruct (is_record_has_course d Hd) as [v Hv].
  unfold Extractor.course_fallback_step, get_item, bind. rewrite Hv.
  destruct (String.eqb v SENTINEL); [|eauto].
  cbn [Extractor.enter]. unfold ret at 1.
  apply labelled_step_ok.
Qed.

Lemma labelled_step_sets key p txt d :
  In key (keys blank_record) -> is_record d ->
  dict_get key d = Some SENTINEL ->
  exists d', Extractor.labelled_step key p txt d = (d', Ok tt)
             /\ dict_get key d' = Some (labelled_value p txt).
Proof.
  intros Hin Hd Hs. unfold Extractor.labelled_step, labelled_value.
  destruct (Re.search _ _ _).
  - eexists. split; [reflexivity|]. apply dict_get_set_same.
  - eexists. split; [reflexivity|]. exact Hs.
Qed.

(** The undisturbed try block, step by step. *)
Lemma extract_body_chain results :
  let tl := Extractor.stripped_texts results in
  let txt := Py.join " " tl in
  exists d1 d2 d3 d4 d5 d6 d7 (u : Z),
    Extractor.university_step tl 0 blank_record = (d1, Ok u)
    /\ Extractor.holder_step tl u d1 = (d2, Ok tt)
    /\ Extractor.labelled_step "Roll No" Patterns.roll txt d2 = (d3, Ok tt)
    /\ Extractor.labelled_step "Certificate ID" Patterns.cert_id txt d3 = (d4, Ok tt)
    /\ Extractor.labelled_step "Grade" Patterns.grade txt d4 = (d5, Ok tt)
    /\ Extractor.course_step txt d5 = (d6, Ok tt)
    /\ Extractor.course_fallback_step None txt d6 = (d7, Ok tt)
    /\ Extractor.extract_body None results blank_record = (d7, Ok tt).
Proof.
  intros tl txt.
  assert (HU : exists d1 (n : nat),
             Extractor.university_step tl 0 blank_record = (d1, Ok (Z.of_nat n))).
  { rewrite university_step_spec.
    destruct (first_index has_keyword tl); cbv zeta.
    - eauto.
    - exists blank_record, 0%nat. reflexivity. }
  destruct HU as (d1 & n & E1).
  destruct (touches_university_step _ _ _ _ _ is_record_blank E1) as [R1 _].
  destruct (holder_step_ok tl n d1) as [d2 E2].
  destruct (touches_holder_step _ _ _ _ _ R1 E2) as [R2 _].
  destruct (labelled_step_ok "Roll No" Patterns.roll txt d2) as [d3 E3].
  destruct (touches_labelled_step "Roll No" Patterns.roll txt
              ltac:(simpl; auto 10) _ _ _ R2 E3) as [R3 _].
  destruct (labelled_step_ok "Certificate ID" Patterns.cert_id txt d3) as [d4 E4].
  destruct (touches_labelled_step "Certificate ID" Patterns.cert_id txt
              ltac:(simpl; auto 10) _ _ _ R3 E4) as [R4 _].
  destruct (labelled_step_ok "Grade" Patterns.grade txt d4) as [d5 E5].
  destruct (touches_labelled_step "Grade" Patterns.grade txt
              ltac:(simpl; auto 10) _ _ _ R4 E5) as [R5 _].
  destruct (course_step_ok txt d5) as [d6 E6].
  destruct (touches_course_step _ _ _ _ R5 E6) as [R6 _].
  destruct (course_fallback_step_ok txt d6 R6) as [d7 E7].
  exists d1, d2, d3, d4, d5, d6, d7, (Z.of_nat n).
  repeat (split; [assumption|]).
  unfold Extractor.extract_body. fold tl. fold txt.
  cbn [Extractor.enter]. unfold bind, ret.
  now rewrite E1, E2, E3, E4, E5, E6, E7.
Qed.

(** X3. On any spans the statements of the try block raise nothing of their
    own: no index is out of range and no key is missing, so the block runs
    to its end. *)
Theorem try_block_runs_to_the_end :
  forall results : list span,
    snd (Extractor.extract_body None results blank_record) = Ok tt.
Proof.
  intros results.
  destruct (extract_body_chain results)
    as (d1 & d2 & d3 & d4 & d5 & d6 & d7 & u & _ & _ & _ & _ & _ & _ & _ & E).
  now rewrite E.
Qed.

(** X4. When no exception strikes, roll number, certificate identifier and
    grade are each the stripped first group of the leftmost match of the
    field's pattern in the text that joins the stripped non-blank span
    texts with single spaces, and the sentinel when the pattern matches
    nowhere; no later statement overwrites them. *)
Theorem labelled_fields_from_joined_text :
  forall results : list span,
    let all_text := Py.join " " (Extractor.stripped_texts results) in
    exists d,
      Extractor.extract_from_results None results = Ok d
      /\ dict_get "Roll No" d = Some (labelled_value Patterns.roll all_text)
      /\ dict_get "Certificate ID" d
         = Some (labelled_value Patterns.cert_id all_text)
      /\ dict_get "Grade" d = Some (labelled_value Patterns.grade all_text).
Proof.
  intros results all_text.
  destruct (extract_body_chain results)
    as (d1 & d2 & d3 & d4 & d5 & d6 & d7 & u & E1 & E2 & E3 & E4 & E5 & E6 & E7 & E).
  fold all_text in E3, E4, E5, E6, E7.
  destruct (touches_university_step _ _ _ _ _ is_record_blank E1) as [R1 F1].
  destruct (touches_holder_step _ _ _ _ _ R1 E2) as [R2 F2].
  destruct (touches_labelled_step "Roll No" _ _ ltac:(simpl; auto 10)
              _ _ _ R2 E3) as [R3 F3].
  destruct (touches_labelled_step "Certificate ID" _ _ ltac:(simpl; auto 10)
              _ _ _ R3 E4) as [R4 F4].
  destruct (touches_labelled_step "Grade" _ _ ltac:(simpl; auto 10)
              _ _ _ R4 E5) as [R5 F5].
  destruct (touches_course_step _ _ _ _ R5 E6) as [R6 F6].
  destruct (touches_course_fallback_step _ _ _ _ _ R6 E7) as [R7 F7].
  exists d7. split.
  { unfold Extractor.extract_from_results, try_except, bind, ret, get_state.
    now rewrite E. }
  assert (S2 : forall k, k <> "University Name" -> k <> "Certificate Holder Name" ->
                         In k (keys blank_record) -> dict_get k d2 = Some SENTINEL).
  { intros k Hn1 Hn2 Hk. rewrite F2, F1 by assumption.
    simpl in Hk. repeat (destruct Hk as [<-|Hk]; [reflexivity|]). destruct Hk. }
  repeat split.
  - rewrite F7, F6, F5, F4 by discriminate.
    destruct (labelled_step_sets "Roll No" Patterns.roll all_text d2
                ltac:(simpl; auto 10) R2
                ltac:(apply S2; [discriminate|discriminate|simpl; auto 10]))
      as (d3' & E3' & H).
    rewrite E3 in E3'. now injection E3' as <-.
  - rewrite F7, F6, F5 by discriminate.
    destruct (labelled_step_sets "Certificate ID" Patterns.cert_id all_text d3
                ltac:(simpl; auto 10) R3) as (d4' & E4' & H).
    { rewrite F3 by discriminate.
      apply S2; [discriminate|discriminate|simpl; auto 10]. }
    rewrite E4 in E4'. now injection E4' as <-.
  - rewrite F7, F6 by discriminate.
    destruct (labelled_step_sets "Grade" Patterns.grade all_text d4
                ltac:(simpl; auto 10) R4) as (d5' & E5' & H).
    { rewrite F4, F3 by discriminate.
      apply S2; [discriminate|discriminate|simpl; auto 10]. }
    rewrite E5 in E5'. now injection E5' as <-.
Qed.

(** X5. When no exception strikes, the university name is the sentinel if
    no line contains one of the three keywords; otherwise it is the first
    such line, followed by those of the next two lines that continue it
    (in order, up to the first that does not), joined with single spaces
    and stripped. *)
Theorem university_name_in_record :
  forall results : list span,
    let text_lines := Extractor.stripped_texts results in
    exists d,
      Extractor.extract_from_results None results = Ok d
      /\ dict_get "University Name" d =
         Some (match first_index has_keyword text_lines with
               | None => SENTINEL
               | Some i =>
                   Py.strip
                     (Py.join " "
                        (nth i text_lines EmptyString
                         :: leading Extractor.is_continuation
                              (map Py.strip
                                 (firstn 2 (skipn (S i) text_lines)))))
               end).
Proof.
  intros results text_lines.
  destruct (extract_body_chain results)
    as (d1 & d2 & d3 & d4 & d5 & d6 & d7 & u & E1 & E2 & E3 & E4 & E5 & E6 & E7 & E).
  fold text_lines in E1, E2.
  destruct (touches_university_step _ _ _ _ _ is_record_blank E1) as [R1 F1].
  destruct (touches_holder_step _ _ _ _ _ R1 E2) as [R2 F2].
  destruct (touches_labelled_step "Roll No" _ _ ltac:(simpl; auto 10)
              _ _ _ R2 E3) as [R3 F3].
  destruct (touches_labelled_step "Certificate ID" _ _ ltac:(simpl; auto 10)
              _ _ _ R3 E4) as [R4 F4].
  destruct (touches_labelled_step "Grade" _ _ ltac:(simpl; auto 10)
              _ _ _ R4 E5) as [R5 F5].
  destruct (touches_course_step _ _ _ _ R5 E6) as [R6 F6].
  destruct (touches_course_fallback_step _ _ _ _ _ R6 E7) as [R7 F7].
  exists d7. split.
  { unfold Extractor.extract_from_results, try_except, bind, ret, get_state.
    now rewrite E. }
  rewrite F7, F6, F5, F4, F3, F2 by discriminate.
  rewrite university_step_spec in E1.
  destruct (first_index has_keyword text_lines); cbv zeta in E1;
    apply (f_equal fst) in E1; cbn [fst] in E1; subst d1;
    [apply dict_get_set_same|reflexivity].
Qed.

(** X6. When no exception strikes, the holder name is the first line that
    looks like a name at or after the line where the university name
    ended (the first line when there is no university name), and the
    sentinel when there is no such line. *)
Theorem holder_name_in_record :
  forall results : list span,
    let text_lines := Extractor.stripped_texts results in
    exists d,
      Extractor.extract_from_results None results = Ok d
      /\ dict_get "Certificate Holder Name" d =
         Some (match List.find Extractor.looks_like_name
                       (skipn (resume_point text_lines) text_lines) with
               | Some line => line
               | None => SENTINEL
               end).
Proof.
  intros results text_lines.
  destruct (extract_body_chain results)
    as (d1 & d2 & d3 & d4 & d5 & d6 & d7 & u & E1 & E2 & E3 & E4 & E5 & E6 & E7 & E).
  fold text_lines in E1, E2.
  destruct (touches_university_step _ _ _ _ _ is_record_blank E1) as [R1 F1].
  destruct (touches_holder_step _ _ _ _ _ R1 E2) as [R2 F2].
  destruct (touches_labelled_step "Roll No" _ _ ltac:(simpl; auto 10)
              _ _ _ R2 E3) as [R3 F3].
  destruct (touches_labelled_step "Certificate ID" _ _ ltac:(simpl; auto 10)
              _ _ _ R3 E4) as [R4 F4].
  destruct (touches_labelled_step "Grade" _ _ ltac:(simpl; auto 10)
              _ _ _ R4 E5) as [R5 F5].
  destruct (touches_course_step _ _ _ _ R5 E6) as [R6 F6].
  destruct (touches_course_fallback_step _ _ _ _ _ R6 E7) as [R7 F7].
  exists d7. split.
  { unfold Extractor.extract_from_results, try_except, bind, ret, get_state.
    now rewrite E. }
  rewrite F7, F6, F5, F4, F3 by discriminate.
  assert (Hu : u = Z.of_nat (resume_point text_lines)
               /\ dict_get "Certificate Holder Name" d1 = Some SENTINEL).
  { rewrite F1 by discriminate. split; [|reflexivity].
    rewrite university_step_spec in E1. unfold resume_point.
    destruct (first_index has_keyword text_lines); cbv zeta in E1;
      apply (f_equal snd) in E1; cbn [snd] in E1;
      injection E1 as <-; reflexivity. }
  destruct Hu as [-> Hs].
  rewrite holder_step_first_match in E2.
  destruct (List.find Extractor.looks_like_name _).
  - injection E2 as <-. apply dict_get_set_same.
  - injection E2 as <-. exact Hs.
Qed.

(** Dropping the spans whose text is empty or whitespace changes nothing. *)
Lemma stripped_texts_app r1 r2 :
  Extractor.stripped_texts (r1 ++ r2)
  = Extractor.stripped_texts r1 ++ Extractor.stripped_texts r2.
Proof.
  unfold Extractor.stripped_texts. now rewrite filter_app, List.map_app.
Qed.

(** X7. A span whose text is empty or whitespace only has no influence on
    the result, wherever it stands among the spans. *)
Theorem blank_span_is_ignored :
  forall fault (before after : list span) (sp : span),
    Py.strip (text sp) = EmptyString ->
    Extractor.extract_from_results fault (before ++ sp :: after)
    = Extractor.extract_from_results fault (before ++ after).
Proof.
  intros fault before after sp Hblank.
  unfold Extractor.extract_from_results, Extractor.extract_body.
  replace (Extractor.stripped_texts (before ++ sp :: after))
    with (Extractor.stripped_texts (before ++ after)); [reflexivity|].
  rewrite !stripped_texts_app. f_equal.
  unfold Extractor.stripped_texts. rewrite filter_cons, Hblank. reflexivity.
Qed.

Lemma blank_span_is_ignored_witness :
  Extractor.extract_from_results None
    (firstn 2 scenario ++ mk_span "   " :: skipn 2 scenario)
  = Extractor.extract_from_results None (firstn 2 scenario ++ skipn 2 scenario).
Proof.
  apply (blank_span_is_ignored None (firstn 2 scenario) (skipn 2 scenario)
           (mk_span "   ")).
  vm_compute. reflexivity.
Defined.

(** ** [extract_fields] and the files *)

Lemma logged_nil w : logged w [] = w.
Proof. unfold logged. rewrite app_nil_r. apply world_eta. Qed.

Lemma extract_fields_spec READER fault image_path w :
  Final1.extract_fields READER fault image_path w =
  (logged w (extract_calls READER image_path (fs w)),
   extracted READER fault image_path (fs w)).
Proof.
  unfold extracted, extract_calls.
  destruct READER as [r|].
  2:{ rewrite logged_nil. now destruct (fs w !! image_path). }
  destruct (fs w !! image_path) as [[|data]|] eqn:E.
  - unfold Final1.extract_fields, logged.
    unfold try_except, bind, Final1.on_world, Final1.on_dict, Final1.readtext,
      OS.exists_, OS.read, log, lookup_path, bind, ret, raise, lift, get_state.
    simpl. rewrite E. simpl. rewrite E. simpl.
    now rewrite <- app_assoc.
  - destruct (r data) as [results|e] eqn:Er.
    + now apply (extract_fields_reads r fault image_path w data results).
    + now apply (final1_extract_fields_engine_raises r fault image_path w data e).
  - now apply final1_extract_fields_missing_path.
Qed.

Lemma extracted_is_record READER fault image_path m :
  exists d, extracted READER fault image_path m = Ok d /\ is_record d.
Proof.
  unfold extracted.
  destruct READER as [r|]; [|exists blank_record; now split].
  destruct (m !! image_path) as [[|data]|]; try (exists blank_record; now split).
  destruct (r data); [apply extract_from_results_is_record|].
  exists blank_record; now split.
Qed.

(** X8. [extract_fields] of [final1.py] never raises and always returns a
    dictionary with exactly the six keys; it changes no file, and the only
    calls it makes are the existence test and the read of [image_path]. *)
Theorem extract_fields_only_reads :
  forall (READER : option Final1.reader) (fault : option Extractor.stage)
         (image_path : string) (w : world),
    exists cs d,
      Final1.extract_fields READER fault image_path w = (logged w cs, Ok d)
      /\ is_record d
      /\ Forall (fun c => c = CExists image_path \/ c = CRead image_path) cs.
Proof.
  intros READER fault image_path w.
  rewrite extract_fields_spec.
  destruct (extracted_is_record READER fault image_path (fs w)) as (d & -> & Hd).
  do 2 eexists. split; [reflexivity|]. split; [assumption|].
  unfold extract_calls.
  destruct READER; [destruct (fs w !! image_path)|];
    repeat (apply List.Forall_cons;
            [first [left; reflexivity | right; reflexivity]|]);
    apply List.Forall_nil.
Qed.

(** X9. [extract_fields] of [final1.py] returns the record of six sentinels
    when the engine is not there, when nothing stands at [image_path],
    when a directory stands there, and when the engine raises on the
    file. *)
Theorem extract_fields_degrades :
  forall (READER : option Final1.reader) (fault : option Extractor.stage)
         (image_path : string) (w : world),
    (READER = None
     \/ fs w !! image_path = None
     \/ fs w !! image_path = Some Dir
     \/ exists r data e, READER = Some r
                         /\ fs w !! image_path = Some (File data)
                         /\ r data = Raise e) ->
    snd (Final1.extract_fields READER fault image_path w) = Ok blank_record.
Proof.
  intros READER fault image_path w H.
  rewrite extract_fields_spec. cbn [snd]. unfold extracted.
  destruct H as [->|[->|[->|(r & data & e & -> & -> & ->)]]]; try reflexivity;
    now destruct READER.
Qed.

Lemma extract_fields_degrades_witness :
  snd (Final1.extract_fields (Some failing_reader) None upload_path world_ready)
  = Ok blank_record.
Proof.
  apply (extract_fields_degrades (Some failing_reader) None upload_path
           world_ready).
  right. right. right. exists failing_reader, "IMGac", ValueError.
  repeat split.
Defined.

(** ** The suspicion surface on a field that is not constant *)

(** X10. When the similarity field is not constant (maximum and minimum
    differ), the suspicion surface is computed and each of its values is a
    finite number between 0 and 1. *)
Theorem suspicion_surface_unit_interval :
  forall (ssim_map : list (list Q)) (d : Q),
    divisor ssim_map = Ok d ->
    ~ (d == 0)%Q ->
    exists surface,
      suspicion_surface ssim_map = Ok surface
      /\ Forall (Forall in_unit) surface.
Proof. exact suspicion_surface_in_unit. Qed.

Lemma suspicion_surface_unit_interval_witness :
  exists surface,
    suspicion_surface [[1 # 2; 1]; [3 # 4; 9 # 10]]%Q = Ok surface
    /\ Forall (Forall in_unit) surface.
Proof.
  apply (suspicion_surface_unit_interval [[1 # 2; 1]; [3 # 4; 9 # 10]]%Q
           (1 - (1 # 2))%Q).
  - vm_compute. reflexivity.
  - vm_compute. discriminate.
Defined.

(** X11. When the similarity field is not constant, the suspicion surface is
    relative to the field itself: the least similar point of the field
    gets suspicion 1 and the most similar one suspicion 0, however similar
    the two images are, and a higher similarity never gets a higher
    suspicion.  The surface is the field under one map [level] applied
    point by point; of its values only 1 and 0 are named. *)
Theorem suspicion_surface_is_relative :
  forall (ssim_map : list (list Q)) (d : Q),
    divisor ssim_map = Ok d ->
    ~ (d == 0)%Q ->
    exists (lo hi : Q) (level : Q -> Q),
      In lo (concat ssim_map) /\ In hi (concat ssim_map)
      /\ (forall v, In v (concat ssim_map) -> (lo <= v)%Q /\ (v <= hi)%Q)
      /\ suspicion_surface ssim_map
         = Ok (map (map (fun v => Fin (level v))) ssim_map)
      /\ (level lo == 1)%Q
      /\ (level hi == 0)%Q
      /\ forall u v, In u (concat ssim_map) -> In v (concat ssim_map) ->
           (u <= v)%Q -> (level v <= level u)%Q.
Proof.
  intros m d Hd Hne. unfold divisor in Hd.
  destruct (np_min m) as [lo|] eqn:Hmin; [|discriminate].
  destruct (np_max m) as [hi|] eqn:Hmax; [|discriminate].
  injection Hd as <-.
  destruct (np_min_spec m lo Hmin) as [Hlo Hle].
  destruct (np_max_spec m hi Hmax) as [Hhi Hge].
  assert (Hpos : (0 < hi - lo)%Q).
  { specialize (Hle hi Hhi). lra. }
  exists lo, hi, (suspicion lo hi).
  split; [exact Hlo|]. split; [exact Hhi|].
  split; [intros v Hv; split; [now apply Hle|now apply Hge]|].
  split; [|split; [|split]].
  - unfold suspicion_surface, normalize. rewrite Hmin, Hmax.
    unfold invert. rewrite map_map. f_equal.
    apply map_ext. intros row. rewrite map_map.
    apply map_ext. intros v. unfold np_div.
    destruct (Qeq_bool (hi - lo) 0) eqn:E; [|reflexivity].
    apply Qeq_bool_iff in E. contradiction.
  - unfold suspicion. field. lra.
  - unfold suspicion. field. lra.
  - intros u v _ _ Huv. unfold suspicion.
    assert ((u - lo) / (hi - lo) <= (v - lo) / (hi - lo))%Q.
    { apply Qmult_le_compat_r; [lra|]. apply Qlt_le_weak, Qinv_lt_0_compat, Hpos. }
    lra.
Qed.

Lemma suspicion_surface_is_relative_witness :
  exists (lo hi : Q) (level : Q -> Q),
    In lo (concat [[99 # 100; 1]]%Q) /\ In hi (concat [[99 # 100; 1]]%Q)
    /\ (forall v, In v (concat [[99 # 100; 1]]%Q) -> (lo <= v)%Q /\ (v <= hi)%Q)
    /\ suspicion_surface [[99 # 100; 1]]%Q
       = Ok (map (map (fun v => Fin (level v))) [[99 # 100; 1]]%Q)
    /\ (level lo == 1)%Q
    /\ (level hi == 0)%Q
    /\ forall u v, In u (concat [[99 # 100; 1]]%Q) ->
         In v (concat [[99 # 100; 1]]%Q) ->
         (u <= v)%Q -> (level v <= level u)%Q.
Proof.
  apply (suspicion_surface_is_relative [[99 # 100; 1]]%Q (1 - (99 # 100))%Q).
  - vm_compute. reflexivity.
  - vm_compute. discriminate.
Defined.

(** ** The results of the two heat-map generators *)

Lemma log_spec c w : log c w = (logged w [c], Ok tt).
Proof. reflexivity. Qed.

(** Writing either stores the file or raises and leaves the files as they
    are. *)
Lemma OS_write_cases p data w :
  exists w',
    (OS.write p data w = (w', Ok tt)
     /\ fs w' = <[p := File data]> (fs w)
     /\ calls w' = calls w ++ [CWrite p])
    \/ (exists e, OS.write p data w = (w', Raise e))
       /\ fs w' = fs w /\ calls w' = calls w ++ [CWrite p].
Proof.
  unfold OS.write, OS.check_parent, bind, log, lookup_path, store, ret, raise.
  simpl.
  destruct (negb (Py.truthy (Path.dirname p))); simpl;
    [|destruct (fs w !! Path.dirname p) as [[|old0]|]; simpl];
    try destruct (fs w !! p) as [[|old]|]; simpl; eexists;
    first [ left; split; [reflexivity|split; reflexivity]
          | right; split; [eexists; reflexivity|split; reflexivity] ].
Qed.

Lemma generate_ssim_heatmap_cases :
  forall (lib : imaging) (reference_path test_path output_path : string)
         (w : world),
    let '(w', r) :=
      OcrService.generate_ssim_heatmap lib reference_path test_path
        output_path w in
    match r with
    | Ok true =>
        fs w !! reference_path <> None
        /\ exists data, fs w' = <[output_path := File data]> (fs w)
    | Ok false =>
        fs w' = fs w
        \/ (fs w !! reference_path = None
            /\ fs w' = <[output_path := File (imsave_bytes lib (zeros 200 300))]>
                         (fs w))
    | Raise _ => fs w !! reference_path = None /\ fs w' = fs w
    end.
Proof.
  intros lib reference_path test_path output_path w.
  unfold OcrService.generate_ssim_heatmap.
  rewrite (bind_ok _ _ _ _ _ (OS_exists_spec _ _)).
  destruct (fs w !! reference_path) as [n|] eqn:Href; cbv beta iota delta [negb].
  - (* the reference is there: everything is inside the try block *)
    match goal with |- context [try_except ?c ?h ?s] =>
      destruct (c s) as [w1 [b|e]] eqn:Hbody end.
    + rewrite (try_except_ok _ _ _ _ _ Hbody). revert Hbody.
      rewrite (bind_ok _ _ _ _ _ (imread_spec _ _ _)). cbv beta.
      rewrite (bind_ok _ _ _ _ _ (imread_spec _ _ _)). cbv beta.
      rewrite !logged_logged, !fs_logged.
      destruct (match fs w !! reference_path with
                | Some (File data) => imdecode lib data | _ => None end)
        as [reference|];
      destruct (match fs w !! test_path with
                | Some (File data) => imdecode lib data | _ => None end)
        as [test|];
        try (intros [= <- <-]; now left).
      unfold lift at 1. unfold bind at 1.
      destruct (Heatmap.similarity_mapper lib reference test)
        as [[[score inverted] test']|e]; [|discriminate].
      unfold lift at 1. unfold bind at 1.
      destruct (Heatmap.overlay_renderer lib test' inverted) as [shown|e];
        [|discriminate].
      set (w0 := logged w _).
      destruct (OS_write_cases output_path (savefig_bytes lib shown score) w0)
        as [w2 [(Hw & Hfs & _)|([e He] & _)]].
      * rewrite (bind_ok _ _ _ _ _ Hw). intros [= <- <-].
        split; [discriminate|]. eexists. exact Hfs.
      * rewrite (bind_raise _ _ _ _ _ He). discriminate.
    + rewrite (try_except_raise _ _ _ _ _ Hbody). cbv beta. unfold ret.
      left. revert Hbody.
      rewrite (bind_ok _ _ _ _ _ (imread_spec _ _ _)). cbv beta.
      rewrite (bind_ok _ _ _ _ _ (imread_spec _ _ _)). cbv beta.
      rewrite !logged_logged, !fs_logged.
      destruct (match fs w !! reference_path with
                | Some (File data) => imdecode lib data | _ => None end)
        as [reference|];
      destruct (match fs w !! test_path with
                | Some (File data) => imdecode lib data | _ => None end)
        as [test|];
        try discriminate.
      unfold lift at 1. unfold bind at 1.
      destruct (Heatmap.similarity_mapper lib reference test)
        as [[[score inverted] test']|e'].
      2:{ now intros [= <- <-]. }
      unfold lift at 1. unfold bind at 1.
      destruct (Heatmap.overlay_renderer lib test' inverted) as [shown|e'].
      2:{ now intros [= <- <-]. }
      set (w0 := logged w _).
      destruct (OS_write_cases output_path (savefig_bytes lib shown score) w0)
        as [w2 [(Hw & _)|([e2 He] & Hfs & _)]].
      * rewrite (bind_ok _ _ _ _ _ Hw). discriminate.
      * rewrite (bind_raise _ _ _ _ _ He). intros [= <- <-]. exact Hfs.
  - (* no reference: the placeholder is written outside the try block *)
    set (w0 := logged w _).
    destruct (OS_write_cases output_path (imsave_bytes lib (zeros 200 300)) w0)
      as [w2 [(Hw & Hfs & _)|([e He] & Hfs & _)]].
    + rewrite (bind_ok _ _ _ _ _ Hw). cbv beta. unfold ret.
      right. split; [reflexivity|exact Hfs].
    + rewrite (bind_raise _ _ _ _ _ He). split; [reflexivity|exact Hfs].
Qed.

(** The overlay names that [process_certificate] builds end in [.png]. *)
Lemma png_name_app a b : png_name b = true -> png_name (a +:+ b) = true.
Proof.
  intros Hb. induction a as [|c a IH].
  - now rewrite append_nil.
  - rewrite append_cons. cbn [png_name]. rewrite IH. apply orb_true_r.
Qed.

Lemma png_name_heatmap_path u : png_name (OcrService.heatmap_path_of u) = true.
Proof.
  rewrite heatmap_path_of_eq.
  apply png_name_app.
  change (String "/" (Uuid.to_str u +:+ "_heatmap.png"))
    with (("/" +:+ Uuid.to_str u) +:+ "_heatmap.png").
  now apply png_name_app.
Qed.

(** X12. What the result of the generator of [ocr_service.py] tells about
    the files, for an output name that ends in [.png].  [True]: the
    reference was there and the output path now holds a file.  [False]:
    either no file has changed, or the reference was missing and the
    output path holds the blank placeholder.  An exception leaves the
    generator only when the reference is missing, and then no file has
    changed. *)
Theorem generate_ssim_heatmap_result_and_files :
  forall (lib : imaging) (reference_path test_path output_path : string)
         (w : world),
    png_name output_path = true ->
    let '(w', r) :=
      OcrService.generate_ssim_heatmap lib reference_path test_path
        output_path w in
    match r with
    | Ok true =>
        fs w !! reference_path <> None
        /\ exists data, fs w' = <[output_path := File data]> (fs w)
    | Ok false =>
        fs w' = fs w
        \/ (fs w !! reference_path = None
            /\ fs w' = <[output_path := File (imsave_bytes lib (zeros 200 300))]>
                         (fs w))
    | Raise _ => fs w !! reference_path = None /\ fs w' = fs w
    end.
Proof.
  intros lib reference_path test_path output_path w _.
  apply generate_ssim_heatmap_cases.
Qed.

Lemma generate_ssim_heatmap_result_and_files_witness :
  let '(w', r) :=
    OcrService.generate_ssim_heatmap Double.lib OcrService.REFERENCE_IMAGE_PATH
      upload_path "static/overlay.png" world_ready in
  match r with
  | Ok true =>
      fs world_ready !! OcrService.REFERENCE_IMAGE_PATH <> None
      /\ exists data,
           fs w' = <["static/overlay.png" := File data]> (fs world_ready)
  | Ok false =>
      fs w' = fs world_ready
      \/ (fs world_ready !! OcrService.REFERENCE_IMAGE_PATH = None
          /\ fs w' = <["static/overlay.png" :=
                         File (imsave_bytes Double.lib (zeros 200 300))]>
                       (fs world_ready))
  | Raise _ =>
      fs world_ready !! OcrService.REFERENCE_IMAGE_PATH = None
      /\ fs w' = fs world_ready
  end.
Proof.
  apply (generate_ssim_heatmap_result_and_files Double.lib
           OcrService.REFERENCE_IMAGE_PATH upload_path "static/overlay.png"
           world_ready).
  reflexivity.
Defined.

(** X13. When nothing stands at the reference path, and the output name
    ends in [.png] and can be written, the generator of [ocr_service.py]
    writes the blank image of 200 rows and 300 columns there and returns
    [False], without reading the test image. *)
Theorem generate_ssim_heatmap_placeholder :
  forall (lib : imaging) (reference_path test_path output_path : string)
         (w : world),
    png_name output_path = true ->
    fs w !! reference_path = None ->
    writable (fs w) output_path ->
    OcrService.generate_ssim_heatmap lib reference_path test_path output_path w =
    ({| fs := <[output_path := File (imsave_bytes lib (zeros 200 300))]> (fs w);
        calls := calls w ++ [CExists reference_path; CWrite output_path] |},
     Ok false).
Proof.
  intros lib reference_path test_path output_path w _.
  apply generate_ssim_heatmap_missing_reference.
Qed.

Lemma generate_ssim_heatmap_placeholder_witness :
  OcrService.generate_ssim_heatmap Double.lib OcrService.REFERENCE_IMAGE_PATH
    upload_path "static/overlay.png" world_bare =
  ({| fs := <["static/overlay.png" := File (imsave_bytes Double.lib (zeros 200 300))]>
              (fs world_bare);
      calls := calls world_bare
               ++ [CExists OcrService.REFERENCE_IMAGE_PATH;
                   CWrite "static/overlay.png"] |},
   Ok false).
Proof.
  apply (generate_ssim_heatmap_placeholder Double.lib
           OcrService.REFERENCE_IMAGE_PATH upload_path "static/overlay.png"
           world_bare).
  - reflexivity.
  - vm_compute. reflexivity.
  - split; [right; vm_compute; reflexivity|vm_compute; discriminate].
Defined.

Lemma final1_generate_ssim_heatmap_calls :
  forall (lib : imaging) (reference_path test_path : string) (w : world),
    exists shown,
      Final1.generate_ssim_heatmap lib reference_path test_path w =
      (logged w ([CRead reference_path; CRead test_path] ++ shown), Ok tt)
      /\ (shown = [] \/ exists figure, shown = [CShow figure]).
Proof.
  intros lib reference_path test_path w.
  unfold Final1.generate_ssim_heatmap.
  match goal with |- context [try_except ?c ?h ?s] =>
    assert (Hbody : exists shown r,
               c s = (logged w ([CRead reference_path; CRead test_path] ++ shown), r)
               /\ (shown = [] \/ exists figure, shown = [CShow figure]))
  end.
  { rewrite (bind_ok _ _ _ _ _ (imread_spec _ _ _)). cbv beta.
    rewrite (bind_ok _ _ _ _ _ (imread_spec _ _ _)). cbv beta.
    rewrite !logged_logged, !fs_logged.
    destruct (match fs w !! reference_path with
              | Some (File data) => imdecode lib data | _ => None end)
      as [reference|];
    destruct (match fs w !! test_path with
              | Some (File data) => imdecode lib data | _ => None end)
      as [test|];
      try (exists [], (Ok tt); split; [now rewrite app_nil_r|now left]).
    unfold lift at 1. unfold bind at 1.
    destruct (Heatmap.similarity_mapper lib reference test)
      as [[[score inverted] test']|e].
    2:{ exists [], (Raise e). split; [now rewrite app_nil_r|now left]. }
    unfold lift at 1. unfold bind at 1.
    destruct (Heatmap.overlay_renderer lib test' inverted) as [shown|e].
    2:{ exists [], (Raise e). split; [now rewrite app_nil_r|now left]. }
    exists [CShow (imsave_bytes lib shown)], (Ok tt). split; [|right; eauto].
    rewrite log_spec, logged_logged. now rewrite <- app_assoc. }
  destruct Hbody as (shown & r & Hbody & Hshown).
  exists shown. split; [|exact Hshown].
  destruct r as [[]|e].
  - now rewrite (try_except_ok _ _ _ _ _ Hbody).
  - now rewrite (try_except_raise _ _ _ _ _ Hbody).
Qed.

(** X14. The generator of [final1.py] never raises and never writes: it
    reads the two images, shows at most one figure, and leaves every file
    as it was, whatever the imaging libraries do. *)
Theorem final1_generate_ssim_heatmap_only_reads :
  forall (lib : imaging) (reference_path test_path : string) (w : world),
    exists shown,
      Final1.generate_ssim_heatmap lib reference_path test_path w =
      (logged w ([CRead reference_path; CRead test_path] ++ shown), Ok tt)
      /\ (shown = [] \/ exists figure, shown = [CShow figure]).
Proof. exact final1_generate_ssim_heatmap_calls. Qed.

(** ** What a request leaves behind *)

(** *** What each statement of [process_certificate] can change *)

Lemma OS_ensure_dir_frame e q w :
  let '(w', r) := OS.ensure_dir e q w in
  forall p, p <> q -> fs w' !! p = fs w !! p.
Proof.
  unfold OS.ensure_dir, bind, lookup_path, store, ret, raise.
  destruct (fs w !! q) as [[|data]|]; intros p Hp; try reflexivity.
  cbn [fs]. now rewrite lookup_insert_ne.
Qed.

Lemma OS_makedirs_frame w :
  let '(w', r) := OS.makedirs "static/heatmaps" w in
  forall p, p <> "static" -> p <> "static/heatmaps" -> fs w' !! p = fs w !! p.
Proof.
  unfold OS.makedirs.
  change (Path.ancestors "static/heatmaps") with ["static"].
  rewrite (bind_ok _ _ _ _ _ (log_spec _ _)). cbv beta.
  unfold OS.ensure_dirs. unfold bind.
  pose proof (OS_ensure_dir_frame NotADirectoryError "static"
                (logged w [CMakedirs "static/heatmaps"])) as H1.
  destruct (OS.ensure_dir NotADirectoryError "static" _) as [w1 [[]|e]].
  - unfold ret.
    pose proof (OS_ensure_dir_frame FileExistsError "static/heatmaps" w1) as H2.
    destruct (OS.ensure_dir FileExistsError "static/heatmaps" w1) as [w2 r].
    intros p Hp1 Hp2. rewrite H2, H1 by assumption. reflexivity.
  - intros p Hp1 Hp2. now rewrite H1.
Qed.

Lemma generate_ssim_heatmap_frame lib reference_path test_path output_path w :
  let '(w', r) :=
    OcrService.generate_ssim_heatmap lib reference_path test_path output_path w in
  forall p, p <> output_path -> fs w' !! p = fs w !! p.
Proof.
  pose proof (generate_ssim_heatmap_cases lib reference_path test_path
                output_path w) as H.
  destruct (OcrService.generate_ssim_heatmap lib reference_path test_path
              output_path w) as [w' [[|]|e]]; intros p Hp.
  - destruct H as (_ & data & ->). now rewrite lookup_insert_ne.
  - destruct H as [->|[_ ->]]; [reflexivity|]. now rewrite lookup_insert_ne.
  - destruct H as [_ ->]. reflexivity.
Qed.

Lemma OS_remove_frame q w :
  let '(w', r) := OS.remove q w in
  forall p, p <> q -> fs w' !! p = fs w !! p.
Proof.
  unfold OS.remove, bind, log, lookup_path, unlink, raise. simpl.
  destruct (fs w !! q) as [[|data]|]; intros p Hp; try reflexivity.
  simpl. now rewrite lookup_delete_ne.
Qed.

(** X15. Whatever happens, [process_certificate] creates, changes or removes
    nothing but the upload, the two directories [static] and
    [static/heatmaps], and the overlay file named after the identifier. *)
Theorem process_certificate_touches_four_paths :
  forall (lib : imaging) (u : N) (file_path : string) (w : world) (p : string),
    let '(w', r) := OcrService.process_certificate lib u file_path w in
    p = file_path \/ p = "static" \/ p = "static/heatmaps"
    \/ p = OcrService.heatmap_path_of u
    \/ fs w' !! p = fs w !! p.
Proof.
  intros lib u file_path w p.
  destruct (decide (p = file_path)) as [|Hn1]; [destruct (OcrService.process_certificate _ _ _ _); now left|].
  destruct (decide (p = "static")) as [|Hn2]; [destruct (OcrService.process_certificate _ _ _ _); auto|].
  destruct (decide (p = "static/heatmaps")) as [|Hn3]; [destruct (OcrService.process_certificate _ _ _ _); auto|].
  destruct (decide (p = OcrService.heatmap_path_of u)) as [|Hn4]; [destruct (OcrService.process_certificate _ _ _ _); auto 10|].
  assert (Hgoal : forall w' r, OcrService.process_certificate lib u file_path w = (w', r) ->
                               fs w' !! p = fs w !! p).
  2:{ destruct (OcrService.process_certificate lib u file_path w) as [w' r] eqn:E.
      do 4 right. now apply (Hgoal w' r). }
  intros w' r. unfold OcrService.process_certificate.
  unfold OcrService.extract_fields at 1. unfold bind at 1, ret at 1. cbv beta iota.
  unfold bind at 1.
  pose proof (OS_makedirs_frame w) as Hmk.
  destruct (OS.makedirs "static/heatmaps" w) as [w1 [[]|e]].
  2:{ intros [= <- <-]. now apply Hmk. }
  cbv zeta. unfold bind at 1.
  pose proof (generate_ssim_heatmap_frame lib OcrService.REFERENCE_IMAGE_PATH
                file_path (OcrService.heatmap_path_of u) w1) as Hgen.
  destruct (OcrService.generate_ssim_heatmap lib OcrService.REFERENCE_IMAGE_PATH
              file_path (OcrService.heatmap_path_of u) w1) as [w2 [b|e]].
  2:{ intros [= <- <-]. rewrite Hgen, Hmk by assumption. reflexivity. }
  rewrite (bind_ok _ _ _ _ _ (OS_exists_spec _ _)). cbv beta.
  destruct (fs w2 !! file_path) as [n|] eqn:Ef.
  - unfold bind at 1.
    pose proof (OS_remove_frame file_path (logged w2 [CExists file_path])) as Hrm.
    destruct (OS.remove file_path (logged w2 [CExists file_path])) as [w3 [[]|e]].
    + unfold ret. intros [= <- <-].
      rewrite Hrm, fs_logged, Hgen, Hmk by assumption. reflexivity.
    + intros [= <- <-].
      rewrite Hrm, fs_logged, Hgen, Hmk by assumption. reflexivity.
  - unfold bind, ret. intros [= <- <-].
    rewrite fs_logged, Hgen, Hmk by assumption. reflexivity.
Qed.



(** ** The two routes *)

(** X17. With the directory [static] in place and a file name without a
    separator, the upload route stores the upload under [static], has it
    processed and answers with the record; when the answer is sent the
    stored upload is gone again.  No directory may stand at the path of
    the upload or of the overlay, and no regular file where the overlay
    directory goes. *)
Theorem verify_certificate_upload_is_gone :
  forall (lib : imaging) (u1 u2 : N) (filename content : string) (w : world),
    let file_path := "static/" +:+ Uuid.to_str u1 +:+ "_" +:+ filename in
    Path.has_sep filename = false ->
    fs w !! "static" = Some Dir ->
    fs w !! file_path <> Some Dir ->
    no_file_at (fs w) "static/heatmaps" ->
    fs w !! OcrService.heatmap_path_of u2 <> Some Dir ->
    exists w' resp,
      OcrRoutes.verify_certificate lib u1 u2 filename content w = (w', Ok resp)
      /\ OcrRoutes.extracted_data resp = stand_in_record
      /\ fs w' !! file_path = None.
Proof.
  intros lib u1 u2 filename content w.
  apply verify_certificate_removes_upload.
Qed.

Lemma verify_certificate_upload_is_gone_witness :
  exists w' resp,
    OcrRoutes.verify_certificate Double.lib 7 5 "certificate.png" "IMGac"
      world_fresh = (w', Ok resp)
    /\ OcrRoutes.extracted_data resp = stand_in_record
    /\ fs w' !! ("static/" +:+ Uuid.to_str 7 +:+ "_" +:+ "certificate.png") = None.
Proof.
  apply (verify_certificate_upload_is_gone Double.lib 7 5 "certificate.png"
           "IMGac" world_fresh).
  - reflexivity.
  - vm_compute. reflexivity.
  - vm_compute. discriminate.
  - intros data. vm_compute. discriminate.
  - vm_compute. discriminate.
Defined.

Lemma basename_heatmap_path u :
  Path.basename (OcrService.heatmap_path_of u)
  = Uuid.to_str u +:+ "_heatmap.png".
Proof.
  rewrite heatmap_path_of_eq.
  unfold Path.basename, Path.split.
  rewrite cut_last_app_sep by (now rewrite has_sep_app, has_sep_uuid).
  reflexivity.
Qed.

(** X18. The file name that the upload route puts into [heatmap_url] leads
    the overlay route to the very path [process_certificate] wrote the
    overlay to: the route answers with that file, and fails when no
    regular file stands there. *)
Theorem heatmap_url_leads_to_overlay :
  forall (u : N) (w : world),
    OcrRoutes.get_heatmap (Path.basename (OcrService.heatmap_path_of u)) w =
    (logged w [CRead (OcrService.heatmap_path_of u)],
     match fs w !! OcrService.heatmap_path_of u with
     | Some (File data) => Ok data
     | _ => Raise RuntimeError
     end).
Proof.
  intros u w. rewrite basename_heatmap_path.
  unfold OcrRoutes.get_heatmap.
  change ("static/heatmaps/" +:+ (Uuid.to_str u +:+ "_heatmap.png"))
    with ("static/heatmaps" +:+ String "/" (Uuid.to_str u +:+ "_heatmap.png")).
  rewrite <- heatmap_path_of_eq.
  rewrite (bind_ok _ _ _ _ _ (log_spec _ _)). cbv beta.
  unfold bind, lookup_path. rewrite fs_logged.
  now destruct (fs w !! OcrService.heatmap_path_of u) as [[|data]|].
Qed.

(** X19. The upload route makes no directory: when [static] is missing (the
    file name having no separator) the upload cannot be stored, the route
    raises [FileNotFoundError], and nothing has been written or
    processed. *)
Theorem verify_certificate_needs_static :
  forall (lib : imaging) (u1 u2 : N) (filename content : string) (w : world),
    let file_path := "static/" +:+ Uuid.to_str u1 +:+ "_" +:+ filename in
    Path.has_sep filename = false ->
    fs w !! "static" = None ->
    OcrRoutes.verify_certificate lib u1 u2 filename content w
    = (logged w [CWrite file_path], Raise FileNotFoundError).
Proof.
  intros lib u1 u2 filename content w file_path Hname Hstatic.
  unfold OcrRoutes.verify_certificate. fold file_path.
  assert (Hdir : Path.dirname file_path = "static").
  { subst file_path. apply dirname_upload.
    now rewrite !has_sep_app, has_sep_uuid, Hname. }
  apply bind_raise.
  unfold OS.write.
  rewrite (bind_ok _ _ _ _ _ (log_spec _ _)). cbv beta.
  apply bind_raise.
  unfold OS.check_parent. rewrite Hdir. cbn [Py.truthy negb].
  unfold bind, lookup_path. rewrite fs_logged, Hstatic. reflexivity.
Qed.

Lemma verify_certificate_needs_static_witness :
  OcrRoutes.verify_certificate Double.lib 7 5 "certificate.png" "IMGac"
    world_template_only
  = (logged world_template_only
       [CWrite ("static/" +:+ Uuid.to_str 7 +:+ "_" +:+ "certificate.png")],
     Raise FileNotFoundError).
Proof.
  apply (verify_certificate_needs_static Double.lib 7 5 "certificate.png"
           "IMGac" world_template_only).
  - reflexivity.
  - vm_compute. reflexivity.
Defined.

(** ** The tabular log when rows cannot be written *)

(** *** What each statement of [save_to_csv] can change *)

Lemma OS_open_append_frame q w :
  let '(w', r) := OS.open_append q w in
  forall p, p <> q -> fs w' !! p = fs w !! p.
Proof.
  unfold OS.open_append, OS.check_parent, bind, log, lookup_path, store, ret, raise.
  simpl.
  destruct (negb (Py.truthy (Path.dirname q))); simpl;
    [|destruct (fs w !! Path.dirname q) as [[|old0]|]; simpl];
    try destruct (fs w !! q) as [[|old]|]; simpl; intros p Hp;
    try reflexivity; now rewrite lookup_insert_ne.
Qed.

Lemma writerow_frame q fieldnames rowdict w :
  let '(w', r) := Final1.writerow q fieldnames rowdict w in
  forall p, p <> q -> fs w' !! p = fs w !! p.
Proof.
  unfold Final1.writerow, lift, bind, OS.append, bind, lookup_path, store.
  destruct (Final1.dict_to_list fieldnames rowdict); [|intros; reflexivity].
  destruct (fs w !! q) as [[|old]|]; intros p Hp; simpl;
    now rewrite lookup_insert_ne.
Qed.

Lemma writerows_frame q fieldnames rowdicts : forall w,
  let '(w', r) := Final1.writerows q fieldnames rowdicts w in
  forall p, p <> q -> fs w' !! p = fs w !! p.
Proof.
  induction rowdicts as [|d ds IH]; intros w; [intros p Hp; reflexivity|].
  cbn [Final1.writerows]. unfold bind.
  pose proof (writerow_frame q fieldnames d w) as H1.
  destruct (Final1.writerow q fieldnames d w) as [w1 [[]|e]].
  - specialize (IH w1).
    destruct (Final1.writerows q fieldnames ds w1) as [w2 r].
    intros p Hp. now rewrite IH, H1.
  - exact H1.
Qed.

Lemma save_to_csv_frame :
  forall (data_list : list dict) (output_filename : string) (w : world),
    exists w',
      Final1.save_to_csv data_list output_filename w = (w', Ok tt)
      /\ forall p, p = output_filename \/ fs w' !! p = fs w !! p.
Proof.
  intros data_list q w.
  destruct data_list as [|first rest].
  { exists w. split; [reflexivity|]. now right. }
  unfold Final1.save_to_csv.
  rewrite (bind_ok _ _ _ _ _ (OS_exists_spec _ _)). cbv beta.
  set (w0 := logged w [CExists q]).
  match goal with |- context [try_except ?c ?h ?s] =>
    assert (Hbody : let '(w', r) := c s in
                    forall p, p <> q -> fs w' !! p = fs w !! p)
  end.
  { unfold bind at 1.
    pose proof (OS_open_append_frame q w0) as H1.
    destruct (OS.open_append q w0) as [w1 [[]|e]]; [|exact H1].
    unfold bind at 1.
    assert (H2 : let '(w', r) :=
                   (if negb (match fs w !! q with Some _ => true | None => false end)
                    then Final1.writeheader q (keys first) else ret tt) w1 in
                 forall p, p <> q -> fs w' !! p = fs w1 !! p).
    { destruct (negb _); [apply writerow_frame|intros p Hp; reflexivity]. }
    destruct ((if negb (match fs w !! q with Some _ => true | None => false end)
               then Final1.writeheader q (keys first) else ret tt) w1)
      as [w2 [[]|e]].
    - pose proof (writerows_frame q (keys first) (first :: rest) w2) as H3.
      destruct (Final1.writerows q (keys first) (first :: rest) w2) as [w3 r].
      intros p Hp. now rewrite H3, H2, H1.
    - intros p Hp. now rewrite H2, H1. }
  match goal with |- context [try_except ?c ?h ?s] =>
    destruct (c s) as [w' [[]|e]] eqn:E
  end.
  - rewrite (try_except_ok _ _ _ _ _ E). exists w'. split; [reflexivity|].
    intros p. destruct (decide (p = q)); [now left|right; now apply Hbody].
  - rewrite (try_except_raise _ _ _ _ _ E). exists w'. split; [reflexivity|].
    intros p. destruct (decide (p = q)); [now left|right; now apply Hbody].
Qed.

(** X20. [save_to_csv] never raises, whatever the dictionaries and the state
    of the files, and no path other than [output_filename] is created,
    changed or removed. *)
Theorem save_to_csv_never_raises :
  forall (data_list : list dict) (output_filename : string) (w : world),
    exists w',
      Final1.save_to_csv data_list output_filename w = (w', Ok tt)
      /\ forall p, p = output_filename \/ fs w' !! p = fs w !! p.
Proof. exact save_to_csv_frame. Qed.

(** X21. For a list that is not empty, when the output file cannot be opened
    (its directory is missing, or a directory stands at its path),
    [save_to_csv] returns normally and nothing has been written: the
    records are lost without an error reaching the caller. *)
Theorem save_to_csv_unwritable :
  forall (data_list : list dict) (output_filename : string) (w : world),
    data_list <> [] ->
    ~ writable (fs w) output_filename ->
    Final1.save_to_csv data_list output_filename w =
    (logged w [CExists output_filename; CAppend output_filename], Ok tt).
Proof.
  intros data_list q w Hne Hnw.
  destruct data_list as [|first rest]; [congruence|].
  unfold Final1.save_to_csv.
  rewrite (bind_ok _ _ _ _ _ (OS_exists_spec _ _)). cbv beta.
  assert (Hopen : exists e, OS.open_append q (logged w [CExists q])
                            = (logged w [CExists q; CAppend q], Raise e)).
  { unfold OS.open_append.
    rewrite (bind_ok _ _ _ _ _ (log_spec _ _)). cbv beta.
    rewrite logged_logged. cbn [app].
    set (w1 := logged w [CExists q; CAppend q]).
    assert (Hfs : fs w1 = fs w) by reflexivity.
    unfold OS.check_parent.
    destruct (negb (Py.truthy (Path.dirname q))) eqn:Hd.
    - unfold bind, ret, lookup_path. rewrite Hfs.
      destruct (fs w !! q) as [[|old]|] eqn:Eq;
        [unfold raise; eauto| |]; exfalso; apply Hnw;
        (split; [left; now destruct (Path.dirname q)|congruence]).
    - unfold bind at 1. unfold bind at 1. unfold lookup_path at 1. rewrite Hfs.
      destruct (fs w !! Path.dirname q) as [[|old0]|] eqn:Ed;
        [|unfold raise; eauto|unfold raise; eauto].
      unfold ret at 1. unfold bind, lookup_path. rewrite Hfs.
      destruct (fs w !! q) as [[|old]|] eqn:Eq;
        [unfold raise; eauto| |]; exfalso; apply Hnw;
        (split; [now right|congruence]). }
  destruct Hopen as [e Hopen].
  erewrite try_except_raise; [reflexivity|].
  apply bind_raise. exact Hopen.
Qed.

Lemma save_to_csv_unwritable_witness :
  Final1.save_to_csv [blank_record] "static" world_ready =
  (logged world_ready [CExists "static"; CAppend "static"], Ok tt).
Proof.
  apply (save_to_csv_unwritable [blank_record] "static" world_ready).
  - discriminate.
  - intros [_ H]. apply H. vm_compute. reflexivity.
Defined.

Lemma rows_text_app l1 l2 : rows_text (l1 ++ l2) = rows_text l1 +:+ rows_text l2.
Proof.
  unfold rows_text. induction l1 as [|d l1 IH].
  - now rewrite append_nil.
  - cbn [app map]. rewrite !concat_nil_cons, IH. now rewrite append_assoc.
Qed.

(** A dictionary with a key outside the schema stops the writer. *)
Lemma dict_to_list_unknown_key rowdict k :
  In k (keys rowdict) -> ~ In k (keys blank_record) ->
  Final1.dict_to_list (keys blank_record) rowdict = Raise ValueError.
Proof.
  intros Hin Hout. unfold Final1.dict_to_list.
  destruct (forallb _ (keys rowdict)) eqn:E; [|reflexivity].
  rewrite List.forallb_forall in E. specialize (E k Hin).
  apply List.existsb_exists in E as (k' & Hk' & Heq).
  apply String.eqb_eq in Heq. subst k'. contradiction.
Qed.

Lemma writerows_stops good : forall w p old bad rest k,
  Forall is_record good ->
  In k (keys bad) -> ~ In k (keys blank_record) ->
  fs w !! p = Some (File old) ->
  Final1.writerows p (keys blank_record) (good ++ bad :: rest) w =
  ({| fs := <[p := File (old +:+ rows_text good)]> (fs w); calls := calls w |},
   Raise ValueError).
Proof.
  induction good as [|d ds IH]; intros w p old bad rest k Hall Hin Hout Hp.
  - cbn [app Final1.writerows]. unfold Final1.writerow.
    unfold lift at 1. unfold bind.
    rewrite (dict_to_list_unknown_key bad k Hin Hout).
    unfold rows_text. simpl. rewrite append_nil_r.
    rewrite insert_id by exact Hp. now rewrite world_eta.
  - inversion Hall as [|? ? Hd Hds]; subst.
    cbn [app Final1.writerows].
    rewrite (bind_ok _ _ _ _ _ (writerow_record w p old d Hd Hp)).
    rewrite (IH _ p (old +:+ Csv.line (row_of d)) bad rest k Hds Hin Hout)
      by (cbn [fs]; apply lookup_insert_eq).
    cbn [fs calls]. rewrite insert_insert_eq.
    unfold rows_text. cbn [map]. rewrite concat_nil_cons.
    now rewrite append_assoc.
Qed.

(** The header step of [save_to_csv] on a file just opened. *)
Lemma header_step w p (existed : bool) :
  fs w !! p = Some (File (contents (fs w) p)) ->
  (if negb existed then Final1.writeheader p (keys blank_record) else ret tt) w =
  ({| fs := <[p := File (contents (fs w) p
                         +:+ (if existed then EmptyString else header_text))]>
              (fs w);
      calls := calls w |}, Ok tt).
Proof.
  intros Hp. destruct existed; cbn [negb].
  - unfold ret. rewrite append_nil_r, insert_id by exact Hp.
    now rewrite world_eta.
  - now apply writeheader_fixed.
Qed.

Lemma contents_insert m p data : contents (<[p := File data]> m) p = data.
Proof. unfold contents. now rewrite lookup_insert_eq. Qed.

(** Saving records to a path that can be opened. *)
Lemma save_to_csv_records data_list p w :
  data_list <> [] ->
  Forall is_record data_list ->
  writable (fs w) p ->
  Final1.save_to_csv data_list p w =
  ({| fs := <[p := File (saved (fs w) p data_list)]> (fs w);
      calls := calls w ++ [CExists p; CAppend p] |}, Ok tt).
Proof.
  intros Hne Hall Hw.
  destruct data_list as [|first rest]; [congruence|].
  assert (Hfirst : keys first = keys blank_record) by now inversion Hall.
  unfold Final1.save_to_csv. rewrite Hfirst.
  rewrite (bind_ok _ _ _ _ _ (OS_exists_spec _ _)). cbv beta.
  assert (Hw' : writable (fs (logged w [CExists p])) p) by exact Hw.
  erewrite try_except_ok; [reflexivity|].
  rewrite (bind_ok _ _ _ _ _ (OS_open_append_ok _ _ Hw')). cbv beta.
  rewrite fs_logged.
  set (w1 := {| fs := <[p := File (contents (fs w) p)]> (fs w);
                calls := calls (logged w [CExists p]) ++ [CAppend p] |}).
  assert (H1 : fs w1 !! p = Some (File (contents (fs w1) p))).
  { cbn [fs w1]. rewrite contents_insert. apply lookup_insert_eq. }
  rewrite (bind_ok _ _ _ _ _ (header_step w1 p _ H1)). cbv beta.
  erewrite (writerows_records _ _ _ _ Hall)
    by (cbn [fs]; apply lookup_insert_eq).
  subst w1. cbn [fs calls logged]. rewrite !insert_insert_eq, contents_insert.
  unfold saved. rewrite <- app_assoc. cbn [app].
  destruct (fs w !! p); now rewrite append_assoc.
Qed.

(** X22. For two lists of six-field records, neither empty, and an output
    file that can be opened: saving one list and then the other leaves the
    files as saving the two lists at once does.  The header is written
    once at most, and the rows follow one another in order. *)
Theorem save_to_csv_twice :
  forall (first_batch second_batch : list dict) (output_filename : string)
         (w : world),
    first_batch <> [] -> second_batch <> [] ->
    Forall is_record first_batch -> Forall is_record second_batch ->
    writable (fs w) output_filename ->
    fs (fst ((Final1.save_to_csv first_batch output_filename ;;
              Final1.save_to_csv second_batch output_filename) w))
    = fs (fst (Final1.save_to_csv (first_batch ++ second_batch)
                 output_filename w)).
Proof.
  intros l1 l2 p w Hn1 Hn2 Ha1 Ha2 Hw.
  rewrite (bind_ok _ _ _ _ _ (save_to_csv_records l1 p w Hn1 Ha1 Hw)).
  set (w1 := {| fs := <[p := File (saved (fs w) p l1)]> (fs w);
                calls := calls w ++ [CExists p; CAppend p] |}).
  assert (Hw1 : writable (fs w1) p).
  { destruct Hw as [Hd Hnd]. split.
    - destruct Hd as [Hd|Hd]; [now left|right].
      cbn [fs w1]. rewrite lookup_insert_ne; [exact Hd|].
      intros Heq. rewrite <- Heq in Hd. contradiction.
    - cbn [fs w1]. rewrite lookup_insert_eq. discriminate. }
  rewrite (save_to_csv_records l2 p w1 Hn2 Ha2 Hw1).
  rewrite (save_to_csv_records (l1 ++ l2) p w).
  - cbn [fst fs w1]. rewrite insert_insert_eq. do 2 f_equal.
    unfold saved. rewrite contents_insert, lookup_insert_eq.
    rewrite append_nil, rows_text_app. now rewrite !append_assoc.
  - destruct l1; [congruence|discriminate].
  - now apply List.Forall_app.
  - exact Hw.
Qed.

Lemma save_to_csv_twice_witness :
  fs (fst ((Final1.save_to_csv [blank_record] Final1.DEFAULT_OUTPUT ;;
            Final1.save_to_csv [stand_in_record] Final1.DEFAULT_OUTPUT)
             world_ready))
  = fs (fst (Final1.save_to_csv ([blank_record] ++ [stand_in_record])
               Final1.DEFAULT_OUTPUT world_ready)).
Proof.
  apply (save_to_csv_twice [blank_record] [stand_in_record]
           Final1.DEFAULT_OUTPUT world_ready).
  - discriminate.
  - discriminate.
  - repeat constructor.
  - repeat constructor.
  - split; [left; reflexivity|]. vm_compute. discriminate.
Defined.

(** X23. When the list starts with six-field records and then holds a
    dictionary with a key outside the six field names, and the file can be
    opened: the rows of the records before that dictionary are written and
    stay in the file (after the header when the file is new), that
    dictionary and all after it are not written, and [save_to_csv] returns
    normally. *)
Theorem save_to_csv_stops_at_unknown_key :
  forall (good rest : list dict) (bad : dict) (k output_filename : string)
         (w : world),
    good <> [] ->
    Forall is_record good ->
    In k (keys bad) -> ~ In k (keys blank_record) ->
    writable (fs w) output_filename ->
    Final1.save_to_csv (good ++ bad :: rest) output_filename w =
    ({| fs := <[output_filename := File (saved (fs w) output_filename good)]>
                (fs w);
        calls := calls w ++ [CExists output_filename; CAppend output_filename] |},
     Ok tt).
Proof.
  intros good rest bad k p w Hne Hall Hin Hout Hw.
  destruct good as [|first good']; [congruence|].
  assert (Hfirst : keys first = keys blank_record) by now inversion Hall.
  cbn [app]. unfold Final1.save_to_csv. rewrite Hfirst.
  rewrite (bind_ok _ _ _ _ _ (OS_exists_spec _ _)). cbv beta.
  assert (Hw' : writable (fs (logged w [CExists p])) p) by exact Hw.
  erewrite try_except_raise; [reflexivity|].
  rewrite (bind_ok _ _ _ _ _ (OS_open_append_ok _ _ Hw')). cbv beta.
  rewrite fs_logged.
  set (w1 := {| fs := <[p := File (contents (fs w) p)]> (fs w);
                calls := calls (logged w [CExists p]) ++ [CAppend p] |}).
  assert (H1 : fs w1 !! p = Some (File (contents (fs w1) p))).
  { cbn [fs w1]. rewrite contents_insert. apply lookup_insert_eq. }
  rewrite (bind_ok _ _ _ _ _ (header_step w1 p _ H1)). cbv beta.
  change (first :: good' ++ bad :: rest) with ((first :: good') ++ bad :: rest).
  erewrite (writerows_stops (first :: good') _ p _ bad rest k Hall Hin Hout)
    by (cbn [fs]; apply lookup_insert_eq).
  subst w1. cbn [fs calls logged]. rewrite !insert_insert_eq, contents_insert.
  unfold saved, ret. rewrite <- app_assoc. cbn [app].
  destruct (fs w !! p); now rewrite append_assoc.
Qed.

Lemma save_to_csv_stops_at_unknown_key_witness :
  Final1.save_to_csv ([blank_record] ++ [("Issuer", "XYZ")] :: [stand_in_record])
    Final1.DEFAULT_OUTPUT world_ready =
  ({| fs := <[Final1.DEFAULT_OUTPUT :=
                File (saved (fs world_ready) Final1.DEFAULT_OUTPUT [blank_record])]>
              (fs world_ready);
      calls := calls world_ready
               ++ [CExists Final1.DEFAULT_OUTPUT; CAppend Final1.DEFAULT_OUTPUT] |},
   Ok tt).
Proof.
  apply (save_to_csv_stops_at_unknown_key [blank_record] [stand_in_record]
           [("Issuer", "XYZ")] "Issuer" Final1.DEFAULT_OUTPUT world_ready).
  - discriminate.
  - repeat constructor.
  - simpl. auto.
  - simpl. intros H. repeat (destruct H as [H|H]; [discriminate|]). exact H.
  - split; [left; reflexivity|]. vm_compute. discriminate.
Defined.

(** ** The script *)

Lemma main_after_heatmap lib READER fault w :
  exists shown,
    Final1.main lib READER fault w =
    (let w0 := logged w ([CRead Final1.REFERENCE_IMAGE_PATH;
                          CRead Final1.TEST_IMAGE_PATH] ++ shown
                         ++ [CExists Final1.TEST_IMAGE_PATH]) in
     match fs w !! Final1.TEST_IMAGE_PATH, READER with
     | Some _, Some _ =>
         (extracted_fields <-
            Final1.extract_fields READER fault Final1.TEST_IMAGE_PATH ;;
          Final1.save_to_csv [extracted_fields] Final1.DEFAULT_OUTPUT) w0
     | _, _ => (w0, Ok tt)
     end).
Proof.
  destruct (final1_generate_ssim_heatmap_calls lib Final1.REFERENCE_IMAGE_PATH
              Final1.TEST_IMAGE_PATH w) as (shown & Hgen & _).
  exists shown. unfold Final1.main.
  rewrite (bind_ok _ _ _ _ _ Hgen). cbv beta zeta.
  rewrite (bind_ok _ _ _ _ _ (OS_exists_spec _ _)). cbv beta.
  rewrite logged_logged, fs_logged, <- app_assoc.
  destruct (fs w !! Final1.TEST_IMAGE_PATH); cbn [negb]; [|reflexivity].
  destruct READER; reflexivity.
Qed.

(** X24. Run as a script where something stands at [test1.png], with the
    engine initialized and the log file writable, the program ends
    normally, and the log file holds what it held, then the header if the
    file was not there, then the one row of the record that
    [extract_fields] returns for the certificate; no other file
    changes. *)
Theorem main_appends_one_record :
  forall (lib : imaging) (r : Final1.reader) (fault : option Extractor.stage)
         (w : world),
    fs w !! Final1.TEST_IMAGE_PATH <> None ->
    writable (fs w) Final1.DEFAULT_OUTPUT ->
    exists d w',
      snd (Final1.extract_fields (Some r) fault Final1.TEST_IMAGE_PATH w) = Ok d
      /\ Final1.main lib (Some r) fault w = (w', Ok tt)
      /\ fs w' = <[Final1.DEFAULT_OUTPUT :=
                    File (saved (fs w) Final1.DEFAULT_OUTPUT [d])]> (fs w).
Proof.
  intros lib r fault w Hcert Hw.
  destruct (main_after_heatmap lib (Some r) fault w) as (shown & ->).
  cbv zeta.
  destruct (fs w !! Final1.TEST_IMAGE_PATH) as [n|] eqn:E; [|congruence].
  rewrite extract_fields_spec. cbn [snd].
  unfold bind at 1. rewrite extract_fields_spec, fs_logged.
  destruct (extracted_is_record (Some r) fault Final1.TEST_IMAGE_PATH (fs w))
    as (d & Hd & Hrec).
  rewrite Hd. exists d. cbv beta iota.
  rewrite save_to_csv_records; [|discriminate|now repeat constructor|exact Hw].
  eexists. split; [reflexivity|]. split; reflexivity.
Qed.

Lemma main_appends_one_record_witness :
  exists d w',
    snd (Final1.extract_fields (Some scenario_reader) None
           Final1.TEST_IMAGE_PATH world_desk) = Ok d
    /\ Final1.main Double.lib (Some scenario_reader) None world_desk
       = (w', Ok tt)
    /\ fs w' = <[Final1.DEFAULT_OUTPUT :=
                  File (saved (fs world_desk) Final1.DEFAULT_OUTPUT [d])]>
                (fs world_desk).
Proof.
  apply (main_appends_one_record Double.lib scenario_reader None world_desk).
  - vm_compute. discriminate.
  - split; [left; reflexivity|]. vm_compute. discriminate.
Defined.

(** X25. The script never ends with an exception, whatever the files, the
    engine and the imaging libraries, and it creates, changes or removes
    no path other than the log file. *)
Theorem main_only_touches_the_log :
  forall (lib : imaging) (READER : option Final1.reader)
         (fault : option Extractor.stage) (w : world),
    exists w',
      Final1.main lib READER fault w = (w', Ok tt)
      /\ forall p, p = Final1.DEFAULT_OUTPUT \/ fs w' !! p = fs w !! p.
Proof.
  intros lib READER fault w.
  destruct (main_after_heatmap lib READER fault w) as (shown & ->).
  cbv zeta.
  destruct (fs w !! Final1.TEST_IMAGE_PATH) as [n|];
    [destruct READER as [r|]|];
    try (eexists; split; [reflexivity|]; intros p; now right).
  unfold bind at 1. rewrite extract_fields_spec.
  destruct (extracted_is_record (Some r) fault Final1.TEST_IMAGE_PATH
              (fs (logged w ([CRead Final1.REFERENCE_IMAGE_PATH;
                              CRead Final1.TEST_IMAGE_PATH] ++ shown
                             ++ [CExists Final1.TEST_IMAGE_PATH]))))
    as (d & -> & _).
  cbv beta iota.
  match goal with |- context [Final1.save_to_csv ?l ?q ?w1] =>
    destruct (save_to_csv_frame l q w1) as (w' & -> & Hframe)
  end.
  exists w'. split; [reflexivity|].
  intros p. destruct (Hframe p) as [->|Hp]; [now left|right].
  rewrite Hp. reflexivity.
Qed.

(** X26. Without the certificate [test1.png], or without the engine, the
    script ends normally and no file is created or changed: the log file
    gets neither header nor row. *)
Theorem main_without_certificate_or_engine :
  forall (lib : imaging) (READER : option Final1.reader)
         (fault : option Extractor.stage) (w : world),
    fs w !! Final1.TEST_IMAGE_PATH = None \/ READER = None ->
    exists w',
      Final1.main lib READER fault w = (w', Ok tt) /\ fs w' = fs w.
Proof.
  intros lib READER fault w H.
  destruct (main_after_heatmap lib READER fault w) as (shown & ->).
  cbv zeta.
  destruct H as [->| ->].
  - eexists. split; reflexivity.
  - destruct (fs w !! Final1.TEST_IMAGE_PATH); eexists; split; reflexivity.
Qed.

Lemma main_without_certificate_or_engine_witness :
  exists w',
    Final1.main Double.lib (Some scenario_reader) None world_template_only
    = (w', Ok tt)
    /\ fs w' = fs world_template_only.
Proof.
  apply (main_without_certificate_or_engine Double.lib (Some scenario_reader)
           None world_template_only).
  left. vm_compute. reflexivity.
Defined.
